(** * functional-paint: canvases as packed RGB / RGBA byte buffers

    A shallow embedding of [src/index.js] (both iterations kept in the
    repository) over an explicit JavaScript store, and the properties of
    the drawing operations stated on it.

    - Part 1: JavaScript values, plain arrays, the object store and the
      store-passing monad the functions run in.
    - Part 2: [utils.js] and [constants.js].
    - Part 3: [index.js], the compositing iteration, and in module [Flat]
      the functions of the flat-overwrite iteration that differ from it.
    - Part 4: the buffers the calls compute, and the proof that they do.
    - Part 5: the properties of the operations.
    - Part 6: further properties of [index.js]: creation, reading back,
      the data model as an invariant, how calls compose, blitting pixel by
      pixel, and the flat iteration against the compositing one. *)

From Stdlib Require Import ZArith Lia List Bool.
From stdpp Require Import base list gmap.

Local Open Scope Z_scope.

(* ===================================================================== *)
(** ** Part 1: values, arrays, store *)
(* ===================================================================== *)

(** What an array slot or a colour component can hold.  Coordinates and
    bytes are integers; [VNaN] is what arithmetic on [undefined] gives. *)
Inductive value : Type :=
  | VUndef
  | VNaN
  | VNum (n : Z).

(** [typeof v === 'undefined']. *)
Definition is_undefined (v : value) : bool :=
  match v with VUndef => true | _ => false end.

(** ToBoolean: [undefined], [NaN] and [0] are falsy. *)
Definition truthy (v : value) : bool :=
  match v with
  | VNum n => negb (n =? 0)
  | _ => false
  end.

(** [u === v]: [NaN] is equal to nothing, itself included. *)
Definition strict_eq (u v : value) : bool :=
  match u, v with
  | VUndef, VUndef => true
  | VNum a, VNum b => a =? b
  | _, _ => false
  end.

(** A colour is an array that is only read: [color[i]] is [undefined]
    past its end. *)
Definition Color : Type := list value.

Definition color_at (color : Color) (i : Z) : value :=
  if 0 <=? i then default VUndef (color !! Z.to_nat i) else VUndef.

(** A plain JavaScript array: the indexed elements ([length] is their
    number; a hole reads as [undefined], as [VUndef] does) and the
    properties stored under negative keys, which [a[-4] = v] creates
    without touching [length]; indices are taken below the [2^32 - 1] at
    which JavaScript stops counting them as indices.  A [Uint8Array] is
    represented by the array
    of its bytes: the functions below only read and spread such a buffer,
    every write goes to a plain copy. *)
Record JsArray : Type := mkArray {
  elems : list value;
  props : gmap Z value
}.

Definition arr_length (a : JsArray) : Z := Z.of_nat (length (elems a)).

(** [a[k]] *)
Definition arr_get (a : JsArray) (k : Z) : value :=
  if 0 <=? k then default VUndef (elems a !! Z.to_nat k)
  else default VUndef (props a !! k).

(** [a[k] = v]: inside the array the slot is replaced; at or past [length]
    the array grows to [k + 1] and the slots in between are holes; a
    negative key becomes a property. *)
Definition arr_set (a : JsArray) (k : Z) (v : value) : JsArray :=
  if 0 <=? k then
    let i := Z.to_nat k in
    if (i <? length (elems a))%nat
    then mkArray (<[i := v]> (elems a)) (props a)
    else mkArray (elems a ++ replicate (i - length (elems a)) VUndef ++ [v])
                 (props a)
  else mkArray (elems a) (<[k := v]> (props a)).

(** [[...a]]: a new array of the indexed elements; properties are not
    copied. *)
Definition spread (a : JsArray) : JsArray := mkArray (elems a) ∅.

(** [new Uint8Array(n).fill(0x00)] for [0 <= n]. *)
Definition zeros (n : Z) : JsArray := mkArray (replicate (Z.to_nat n) (VNum 0)) ∅.

Definition arr_of_bytes (l : list Z) : JsArray := mkArray (VNum <$> l) ∅.

(** Objects live in a store and are named by their location. *)
Definition loc : Type := nat.

Record Canvas : Type := mkCanvas {
  width : Z;
  height : Z;
  hasAlphaChannel : bool;
  data : loc
}.

Inductive obj : Type :=
  | OCanvas (c : Canvas)
  | OArray (a : JsArray).

Abbreviation store := (list obj).

Inductive error : Type :=
  | RangeError
  | ReferenceError
  | TypeError.

Inductive result (A : Type) : Type :=
  | Ok (a : A)
  | Throw (e : error).
Arguments Ok {A} a.
Arguments Throw {A} e.

(** A computation reads and updates the store, and returns or throws. *)
Definition M (A : Type) : Type := store -> result (A * store).

Definition ret {A} (a : A) : M A := fun s => Ok (a, s).

Definition bind {A B} (m : M A) (k : A -> M B) : M B :=
  fun s => match m s with
           | Ok (a, s') => k a s'
           | Throw e => Throw e
           end.

Definition throw {A} (e : error) : M A := fun _ => Throw e.

Notation "x <- m ;; k" := (bind m (fun x => k))
  (at level 100, m at next level, right associativity).
Notation "m ;; k" := (bind m (fun _ => k))
  (at level 100, right associativity).

(** Allocation: the new object gets the next location. *)
Definition alloc (o : obj) : M loc :=
  fun s => Ok (length s, s ++ [o]).

(** A location of the wrong kind is a type error of the caller: the
    signatures take a [Canvas] and arrays. *)
Definition getCanvas (l : loc) : M Canvas :=
  fun s => match s !! l with
           | Some (OCanvas c) => Ok (c, s)
           | _ => Throw TypeError
           end.

Definition getArray (l : loc) : M JsArray :=
  fun s => match s !! l with
           | Some (OArray a) => Ok (a, s)
           | _ => Throw TypeError
           end.

(** [canvas.data = d] *)
Definition setData (l : loc) (d : loc) : M unit :=
  fun s => match s !! l with
           | Some (OCanvas c) =>
               Ok (tt, <[l := OCanvas (mkCanvas (width c) (height c)
                                         (hasAlphaChannel c) d)]> s)
           | _ => Throw TypeError
           end.

(** [arr[k] = v] on the array at [l]. *)
Definition writeArray (l : loc) (k : Z) (v : value) : M unit :=
  fun s => match s !! l with
           | Some (OArray a) => Ok (tt, <[l := OArray (arr_set a k v)]> s)
           | _ => Throw TypeError
           end.

(** [canvas.data[k]] *)
Definition readData (canvas : loc) (k : Z) : M value :=
  c <- getCanvas canvas ;;
  a <- getArray (data c) ;;
  ret (arr_get a k).

(** [canvas.data[k] = v] *)
Definition writeData (canvas : loc) (k : Z) (v : value) : M unit :=
  c <- getCanvas canvas ;;
  writeArray (data c) k v.

(** A counting [for] loop and a [forEach] run their body on each element
    in order. *)
Fixpoint forM_ {A} (l : list A) (body : A -> M unit) : M unit :=
  match l with
  | [] => ret tt
  | x :: l' => body x ;; forM_ l' body
  end.

(* ===================================================================== *)
(** ** Part 2: constants.js and utils.js *)
(* ===================================================================== *)

(** Modelled from the spec: [constants.js] is not in the repository
    snapshot.  "Red=0, Green=1, Blue=2, Alpha=3", "channels = 4 if
    hasAlphaChannel else 3". *)
Definition CHANNEL_RED : Z := 0.
Definition CHANNEL_GREEN : Z := 1.
Definition CHANNEL_BLUE : Z := 2.
Definition CHANNEL_ALPHA : Z := 3.
Definition RGB : Z := 3.
Definition RGBA : Z := 4.

(** Modelled from the spec: [utils.js] is not in the repository snapshot,
    only its tests are.  [channelCount(hasAlphaChannel) -> 3 | 4]. *)
Definition getChannelCount (hasAlpha : bool) : Z :=
  if hasAlpha then RGBA else RGB.

(** Modelled from the spec: [utils.js] is missing.
    "offset = (y*width + x) * channels(hasAlphaChannel)". *)
Definition coordinatesToBytePosition (w : Z) (hasAlpha : bool) (x y : Z) : Z :=
  (y * w + x) * getChannelCount hasAlpha.

(** Modelled from the spec: [utils.js] is missing.
    "pixelIndex = offset / channels, x = pixelIndex % width,
    y = floor(pixelIndex / width)".  The offsets of pixels are multiples of
    the channel count, where the first division is exact; [%] is the
    remainder of JavaScript. *)
Definition bytePositionToCoordinates (w : Z) (hasAlpha : bool) (offset : Z)
  : Z * Z :=
  let pixelIndex := offset / getChannelCount hasAlpha in
  (Z.rem pixelIndex w, pixelIndex / w).

(** [Math.round (n / d)] for [0 < d]: the nearest integer, halves up. *)
Definition round_div (n d : Z) : Z := (2 * n + d) / (2 * d).

Definition clamp_byte (n : Z) : Z := Z.max 0 (Z.min 255 n).

(** Modelled from the spec: [utils.js] is missing.
    "result = srcAlpha + destAlpha*(255-srcAlpha)/255, rounded to nearest
    integer, clamped to [0,255]". *)
Definition blendAlpha (destAlpha srcAlpha : Z) : Z :=
  clamp_byte (round_div (255 * srcAlpha + destAlpha * (255 - srcAlpha)) 255).

(** Modelled from the spec: [utils.js] is missing.
    "standard source-over compositing of one color channel, weighted by
    the two alphas, normalized by the resulting composite alpha":
    [(src*srcAlpha + dest*destAlpha*(255-srcAlpha)/255) / blendAlpha],
    rounded and clamped as the alpha is.  At composite alpha 0 the spec
    gives the value 0 and also, the source being fully transparent there,
    the destination channel; the repository's test
    [blendChannel(0xff, 0xff, 0x00, 0x00) === 0xff] decides for the
    destination channel. *)
Definition blendChannel (destChannel srcChannel destAlpha srcAlpha : Z) : Z :=
  let alpha := blendAlpha destAlpha srcAlpha in
  if alpha =? 0 then destChannel
  else clamp_byte
         (round_div (255 * (srcChannel * srcAlpha)
                     + destChannel * destAlpha * (255 - srcAlpha))
                    (255 * alpha)).

(** Modelled from the spec: [utils.js] is missing.  "applies blendChannel
    to R,G,B and blendAlpha to A, producing a 4-element result". *)
Definition blendColor (dest src : Z * Z * Z * Z) : Z * Z * Z * Z :=
  let '(dr, dg, db, da) := dest in
  let '(sr, sg, sb, sa) := src in
  (blendChannel dr sr da sa, blendChannel dg sg da sa,
   blendChannel db sb da sa, blendAlpha da sa).

(** [mergeAlpha] and [mergeColors] are the names under which [index.js]
    imports the two blend functions.  They are arithmetic, so an operand
    that is not a number gives [NaN]. *)
Definition mergeAlpha (destAlpha srcAlpha : value) : value :=
  match destAlpha, srcAlpha with
  | VNum da, VNum sa => VNum (blendAlpha da sa)
  | _, _ => VNaN
  end.

Definition mergeChannel (dc sc da sa : value) : value :=
  match dc, sc, da, sa with
  | VNum d, VNum s, VNum a, VNum b => VNum (blendChannel d s a b)
  | _, _, _, _ => VNaN
  end.

Definition mergeColors (dest src : Color) : Color :=
  let da := color_at dest CHANNEL_ALPHA in
  let sa := color_at src CHANNEL_ALPHA in
  [ mergeChannel (color_at dest CHANNEL_RED) (color_at src CHANNEL_RED) da sa;
    mergeChannel (color_at dest CHANNEL_GREEN) (color_at src CHANNEL_GREEN) da sa;
    mergeChannel (color_at dest CHANNEL_BLUE) (color_at src CHANNEL_BLUE) da sa;
    mergeAlpha da sa ].

(** Modelled from the spec: [utils.js] is missing.  [drawRect] "sets Alpha
    to color[3] if provided else 255". *)
Definition isDefined (v : value) : bool := negb (is_undefined v).

(** [coordinates2bytePosition(canvas, x, y)], the form [index.js] calls:
    width and channel count are the canvas's. *)
Definition coordinates2bytePosition (canvas : loc) (x y : Z) : M Z :=
  c <- getCanvas canvas ;;
  ret (coordinatesToBytePosition (width c) (hasAlphaChannel c) x y).

(** Modelled from the spec: [utils.js] is missing.  "Per-pixel iteration
    must visit every pixel of the canvas exactly once, in row-major order
    (y outer, x inner), yielding (x, y, byteOffset) for each." *)
Definition pixels (w h : Z) (hasAlpha : bool) : list (Z * Z * Z) :=
  flat_map (fun y =>
    map (fun x => (x, y, coordinatesToBytePosition w hasAlpha x y)) (seqZ 0 w))
    (seqZ 0 h).

Definition forEachPixel (canvas : loc) (callback : Z -> Z -> Z -> M unit)
  : M unit :=
  c <- getCanvas canvas ;;
  forM_ (pixels (width c) (height c) (hasAlphaChannel c))
        (fun '(x, y, bytePos) => callback x y bytePos).

(* ===================================================================== *)
(** ** Part 3: index.js *)
(* ===================================================================== *)

(** [new Uint8Array(n).fill(0x00)]: a negative length is a RangeError. *)
Definition newUint8Array (n : Z) : M loc :=
  if n <? 0 then throw RangeError else alloc (OArray (zeros n)).

Definition createCanvas (width height : Z) (hasAlphaChannel : bool) : M loc :=
  let channels := if hasAlphaChannel then RGBA else RGB in
  buffer <- newUint8Array (width * height * channels) ;;
  alloc (OCanvas (mkCanvas width height hasAlphaChannel buffer)).

(** Called with its four arguments, as [cloneCanvas] does. *)
Definition createCanvasFromImageBuffer
    (imageBuffer : loc) (width height : Z) (hasAlphaChannel : bool) : M loc :=
  canvas <- createCanvas width height hasAlphaChannel ;;
  a <- getArray imageBuffer ;;
  copy <- alloc (OArray (spread a)) ;;
  setData canvas copy ;;
  ret canvas.

Definition cloneCanvas (canvas : loc) : M loc :=
  c <- getCanvas canvas ;;
  createCanvasFromImageBuffer (data c) (width c) (height c) (hasAlphaChannel c).

Definition isEqualColor (color1 color2 : Color) : bool :=
  strict_eq (color_at color1 CHANNEL_RED) (color_at color2 CHANNEL_RED)
  && strict_eq (color_at color1 CHANNEL_GREEN) (color_at color2 CHANNEL_GREEN)
  && strict_eq (color_at color1 CHANNEL_BLUE) (color_at color2 CHANNEL_BLUE).

(** [[w.data[p + RED], w.data[p + GREEN], w.data[p + BLUE]] = color] *)
Definition assignRGB (workingCanvas : loc) (bytePos : Z) (color : Color)
  : M unit :=
  writeData workingCanvas (bytePos + CHANNEL_RED) (color_at color 0) ;;
  writeData workingCanvas (bytePos + CHANNEL_GREEN) (color_at color 1) ;;
  writeData workingCanvas (bytePos + CHANNEL_BLUE) (color_at color 2).

Definition canvasHasAlpha (canvas : loc) : M bool :=
  c <- getCanvas canvas ;; ret (hasAlphaChannel c).

Definition drawPixel (canvas : loc) (x y : Z) (color : Color) : M loc :=
  workingCanvas <- cloneCanvas canvas ;;
  bytePos <- coordinates2bytePosition canvas x y ;;
  assignRGB workingCanvas bytePos color ;;
  (if truthy (color_at color CHANNEL_ALPHA) then
     alpha <- canvasHasAlpha canvas ;;
     if alpha
     then writeData workingCanvas (bytePos + CHANNEL_ALPHA)
                    (color_at color CHANNEL_ALPHA)
     else ret tt
   else ret tt) ;;
  ret workingCanvas.

Definition drawRect (canvas : loc) (x y width height : Z) (color : Color)
  : M loc :=
  workingCanvas <- cloneCanvas canvas ;;
  forM_ (seqZ x width) (fun i =>
    forM_ (seqZ y height) (fun j =>
      bytePos <- coordinates2bytePosition canvas i j ;;
      assignRGB workingCanvas bytePos color ;;
      alpha <- canvasHasAlpha canvas ;;
      if alpha
      then writeData workingCanvas (bytePos + CHANNEL_ALPHA)
             (if isDefined (color_at color CHANNEL_ALPHA)
              then color_at color CHANNEL_ALPHA else VNum 255)
      else ret tt)) ;;
  ret workingCanvas.

(** The source colour handed to [mergeColors] takes its alpha from
    [source.data[destBytePos + CHANNEL_ALPHA]], as the file has it. *)
Definition drawCanvas (destination source : loc) (offsetX offsetY : Z) : M loc :=
  workingCanvas <- cloneCanvas destination ;;
  forEachPixel source (fun x y bytePos =>
    destBytePos <- coordinates2bytePosition destination (x + offsetX) (y + offsetY) ;;
    probe <- readData destination destBytePos ;;
    if is_undefined probe then ret tt
    else
      dr <- readData destination (destBytePos + CHANNEL_RED) ;;
      dg <- readData destination (destBytePos + CHANNEL_GREEN) ;;
      db <- readData destination (destBytePos + CHANNEL_BLUE) ;;
      dalpha <- canvasHasAlpha destination ;;
      da <- (if dalpha then readData destination (destBytePos + CHANNEL_ALPHA)
             else ret (VNum 255)) ;;
      sr <- readData source (bytePos + CHANNEL_RED) ;;
      sg <- readData source (bytePos + CHANNEL_GREEN) ;;
      sb <- readData source (bytePos + CHANNEL_BLUE) ;;
      salpha <- canvasHasAlpha source ;;
      sa <- (if salpha then readData source (destBytePos + CHANNEL_ALPHA)
             else ret (VNum 255)) ;;
      assignRGB workingCanvas destBytePos
                (mergeColors [dr; dg; db; da] [sr; sg; sb; sa]) ;;
      both <- (dalpha' <- canvasHasAlpha destination ;;
               if dalpha' then canvasHasAlpha source else ret false) ;;
      if both then
        da' <- readData destination (destBytePos + CHANNEL_ALPHA) ;;
        sa' <- readData source (bytePos + CHANNEL_ALPHA) ;;
        writeData workingCanvas (destBytePos + CHANNEL_ALPHA) (mergeAlpha da' sa')
      else ret tt) ;;
  ret workingCanvas.

Definition getColor (canvas : loc) (x y : Z) : M Color :=
  bytePos <- coordinates2bytePosition canvas x y ;;
  r <- readData canvas (bytePos + CHANNEL_RED) ;;
  g <- readData canvas (bytePos + CHANNEL_GREEN) ;;
  b <- readData canvas (bytePos + CHANNEL_BLUE) ;;
  alpha <- canvasHasAlpha canvas ;;
  if alpha then
    a <- readData canvas (bytePos + CHANNEL_ALPHA) ;;
    ret [r; g; b; a]
  else ret [r; g; b].

Definition replaceColor (canvas : loc) (replacee replacer : Color) : M loc :=
  workingCanvas <- cloneCanvas canvas ;;
  forEachPixel canvas (fun x y bytePos =>
    color <- getColor canvas x y ;;
    if isEqualColor color replacee
    then assignRGB workingCanvas bytePos replacer
    else ret tt) ;;
  ret workingCanvas.

(** The iteration of [src/index.js] that copies pixels flat.  Its
    [createCanvas], [createCanvasFromImageBuffer], [cloneCanvas],
    [isEqualColor], [replaceColor] and [getColor] are the ones above. *)
Module Flat.

(** R, G, B only: the alpha byte is never written. *)
Definition drawPixel (canvas : loc) (x y : Z) (color : Color) : M loc :=
  workingCanvas <- cloneCanvas canvas ;;
  bytePos <- coordinates2bytePosition canvas x y ;;
  assignRGB workingCanvas bytePos color ;;
  ret workingCanvas.

(** Four targets are assigned from [color] whatever the canvas is. *)
Definition drawRect (canvas : loc) (x y width height : Z) (color : Color)
  : M loc :=
  workingCanvas <- cloneCanvas canvas ;;
  forM_ (seqZ x width) (fun i =>
    forM_ (seqZ y height) (fun j =>
      bytePos <- coordinates2bytePosition canvas i j ;;
      assignRGB workingCanvas bytePos color ;;
      writeData workingCanvas (bytePos + CHANNEL_ALPHA)
                (color_at color CHANNEL_ALPHA))) ;;
  ret workingCanvas.

(** The callback starts by reading [destBytePos], which its own block
    declares with [let] further down: the read is in the temporal dead
    zone and throws, so nothing after it runs. *)
Definition drawCanvas (destination source : loc) (offsetX offsetY : Z)
  : M loc :=
  workingCanvas <- cloneCanvas destination ;;
  forEachPixel source (fun x y bytePos => throw ReferenceError) ;;
  ret workingCanvas.

End Flat.

(* ===================================================================== *)
(** ** Part 4: what a call does to the store *)
(* ===================================================================== *)

(** *** The buffers the calls compute

    Each drawing function clones its canvas and then writes into the
    clone's buffer.  The functions below are the buffers these writes
    lead to; section [Runs] proves that the calls compute them. *)

Definition byte_size (c : Canvas) : Z :=
  width c * height c * getChannelCount (hasAlphaChannel c).

Definition bytePos_of (c : Canvas) (x y : Z) : Z :=
  coordinatesToBytePosition (width c) (hasAlphaChannel c) x y.

Definition assignRGB_arr (b : JsArray) (p : Z) (color : Color) : JsArray :=
  arr_set (arr_set (arr_set b (p + CHANNEL_RED) (color_at color 0))
                   (p + CHANNEL_GREEN) (color_at color 1))
          (p + CHANNEL_BLUE) (color_at color 2).

Definition drawPixel_arr (c : Canvas) (x y : Z) (color : Color) (b : JsArray)
  : JsArray :=
  let p := bytePos_of c x y in
  let b' := assignRGB_arr b p color in
  if truthy (color_at color CHANNEL_ALPHA) && hasAlphaChannel c
  then arr_set b' (p + CHANNEL_ALPHA) (color_at color CHANNEL_ALPHA)
  else b'.

Definition rect_alpha (color : Color) : value :=
  if isDefined (color_at color CHANNEL_ALPHA)
  then color_at color CHANNEL_ALPHA else VNum 255.

Definition rect_px (c : Canvas) (color : Color) (i j : Z) (b : JsArray)
  : JsArray :=
  let p := bytePos_of c i j in
  let b' := assignRGB_arr b p color in
  if hasAlphaChannel c then arr_set b' (p + CHANNEL_ALPHA) (rect_alpha color)
  else b'.

Definition drawRect_arr (c : Canvas) (x y w h : Z) (color : Color)
    (b : JsArray) : JsArray :=
  fold_left (fun b i => fold_left (fun b j => rect_px c color i j b) (seqZ y h) b)
            (seqZ x w) b.

(** The colours [drawCanvas] hands to [mergeColors] for a source pixel at
    [bytePos] that lands on [destBytePos]. *)
Definition dest_color (dc : Canvas) (da : JsArray) (destBytePos : Z) : Color :=
  [ arr_get da (destBytePos + CHANNEL_RED);
    arr_get da (destBytePos + CHANNEL_GREEN);
    arr_get da (destBytePos + CHANNEL_BLUE);
    if hasAlphaChannel dc then arr_get da (destBytePos + CHANNEL_ALPHA)
    else VNum 255 ].

Definition src_color (sc : Canvas) (sa : JsArray) (bytePos destBytePos : Z)
  : Color :=
  [ arr_get sa (bytePos + CHANNEL_RED);
    arr_get sa (bytePos + CHANNEL_GREEN);
    arr_get sa (bytePos + CHANNEL_BLUE);
    if hasAlphaChannel sc then arr_get sa (destBytePos + CHANNEL_ALPHA)
    else VNum 255 ].

Definition blit_px (dc : Canvas) (da : JsArray) (sc : Canvas) (sa : JsArray)
    (offsetX offsetY : Z) (b : JsArray) (px : Z * Z * Z) : JsArray :=
  let '(x, y, bytePos) := px in
  let destBytePos := bytePos_of dc (x + offsetX) (y + offsetY) in
  if is_undefined (arr_get da destBytePos) then b
  else
    let b' := assignRGB_arr b destBytePos
                (mergeColors (dest_color dc da destBytePos)
                             (src_color sc sa bytePos destBytePos)) in
    if hasAlphaChannel dc && hasAlphaChannel sc
    then arr_set b' (destBytePos + CHANNEL_ALPHA)
           (mergeAlpha (arr_get da (destBytePos + CHANNEL_ALPHA))
                       (arr_get sa (bytePos + CHANNEL_ALPHA)))
    else b'.

Definition drawCanvas_arr (dc : Canvas) (da : JsArray) (sc : Canvas)
    (sa : JsArray) (offsetX offsetY : Z) (b : JsArray) : JsArray :=
  fold_left (blit_px dc da sc sa offsetX offsetY)
            (pixels (width sc) (height sc) (hasAlphaChannel sc)) b.

Definition getColor_arr (c : Canvas) (a : JsArray) (x y : Z) : Color :=
  let p := bytePos_of c x y in
  [ arr_get a (p + CHANNEL_RED); arr_get a (p + CHANNEL_GREEN);
    arr_get a (p + CHANNEL_BLUE) ]
  ++ (if hasAlphaChannel c then [arr_get a (p + CHANNEL_ALPHA)] else []).

Definition replace_px (c : Canvas) (a : JsArray) (replacee replacer : Color)
    (b : JsArray) (px : Z * Z * Z) : JsArray :=
  let '(x, y, bytePos) := px in
  if isEqualColor (getColor_arr c a x y) replacee
  then assignRGB_arr b bytePos replacer
  else b.

Definition replaceColor_arr (c : Canvas) (a : JsArray)
    (replacee replacer : Color) (b : JsArray) : JsArray :=
  fold_left (replace_px c a replacee replacer)
            (pixels (width c) (height c) (hasAlphaChannel c)) b.

Module Flat_arr.

Definition rect_px (c : Canvas) (color : Color) (i j : Z) (b : JsArray)
  : JsArray :=
  let p := bytePos_of c i j in
  arr_set (assignRGB_arr b p color) (p + CHANNEL_ALPHA)
          (color_at color CHANNEL_ALPHA).

Definition drawRect_arr (c : Canvas) (x y w h : Z) (color : Color)
    (b : JsArray) : JsArray :=
  fold_left (fun b i => fold_left (fun b j => rect_px c color i j b) (seqZ y h) b)
            (seqZ x w) b.

End Flat_arr.

(** The store after [cloneCanvas] of a canvas [c], with [b] in the clone's
    buffer: the discarded [Uint8Array], the new canvas object, and the
    copy. *)
Definition working (s : store) (c : Canvas) (b : JsArray) : store :=
  s ++ [ OArray (zeros (byte_size c));
         OCanvas (mkCanvas (width c) (height c) (hasAlphaChannel c)
                           (S (S (length s))));
         OArray b ].

(** The canvas object at [l] is [c] and its buffer holds [a]. *)
Definition canvas_at (s : store) (l : loc) (c : Canvas) (a : JsArray) : Prop :=
  s !! l = Some (OCanvas c) /\ s !! data c = Some (OArray a).

(** The data model of the spec: a buffer of [width*height*channels]
    numbers and nothing else. *)
Definition is_number (v : value) : Prop := exists n, v = VNum n.

Definition well_formed (c : Canvas) (a : JsArray) : Prop :=
  0 <= width c /\ 0 <= height c /\
  arr_length a = byte_size c /\
  (forall k, 0 <= k < arr_length a -> is_number (arr_get a k)) /\
  (forall k, k < 0 -> arr_get a k = VUndef).

(** A colour whose R, G, B are numbers. *)
Definition is_color (color : Color) : Prop :=
  is_number (color_at color CHANNEL_RED) /\
  is_number (color_at color CHANNEL_GREEN) /\
  is_number (color_at color CHANNEL_BLUE).

Definition is_numberb (v : value) : bool :=
  match v with VNum _ => true | _ => false end.

(** [well_formed], as a check that runs. *)
Definition well_formedb (c : Canvas) (a : JsArray) : bool :=
  (0 <=? width c) && (0 <=? height c)
  && (arr_length a =? byte_size c)
  && forallb is_numberb (elems a)
  && forallb (fun kv => 0 <=? fst kv) (map_to_list (props a)).

(** Pixel [(x, y)] lies on the canvas. *)
Definition on_canvas (c : Canvas) (x y : Z) : Prop :=
  0 <= x < width c /\ 0 <= y < height c.

(** Pixel [(i, j)] lies in the rectangle [[x, x+w) x [y, y+h)]. *)
Definition in_rect (x y w h i j : Z) : Prop :=
  x <= i < x + w /\ y <= j < y + h.

Definition in_rectb (x y w h i j : Z) : bool :=
  (x <=? i) && (i <? x + w) && (y <=? j) && (j <? y + h).

(** The pixels of a rectangle in the order [drawRect] visits them. *)
Definition rect_pixels (x y w h : Z) : list (Z * Z) :=
  flat_map (fun i => map (fun j => (i, j)) (seqZ y h)) (seqZ x w).

(** The colour [drawRect] leaves in a pixel it fills. *)
Definition rect_color (c : Canvas) (color : Color) : Color :=
  [color_at color 0; color_at color 1; color_at color 2]
  ++ (if hasAlphaChannel c then [rect_alpha color] else []).

(** What a call returned, if it did. *)
Definition returned {A} (r : result (A * store)) : option A :=
  match r with
  | Ok (x, _) => Some x
  | Throw _ => None
  end.

(** [getColor(call(...), x, y)]: the colour read at [(x, y)] from the
    canvas a call returns. *)
Definition color_after (call : M loc) (x y : Z) (s : store) : option Color :=
  match call s with
  | Ok (l', s') => returned (getColor l' x y s')
  | Throw _ => None
  end.

(** Key [k] is one of the [n] bytes that start at [p]. *)
Definition covers (p n k : Z) : bool := (p <=? k) && (k <? p + n).

(** The bytes a rectangle pixel writes, and what it writes there. *)
Definition rect_touch (c : Canvas) (ij : Z * Z) (k : Z) : bool :=
  covers (bytePos_of c (fst ij) (snd ij)) (getChannelCount (hasAlphaChannel c)) k.

Definition rect_val (c : Canvas) (color : Color) (ij : Z * Z) (k : Z) : value :=
  let d := k - bytePos_of c (fst ij) (snd ij) in
  if d <? 3 then color_at color d else rect_alpha color.

(** The bytes the [replaceColor] callback writes for a pixel, and what. *)
Definition replace_touch (c : Canvas) (a : JsArray) (replacee : Color)
    (px : Z * Z * Z) (k : Z) : bool :=
  let '(x, y, p) := px in
  isEqualColor (getColor_arr c a x y) replacee && covers p 3 k.

Definition replace_val (replacer : Color) (px : Z * Z * Z) (k : Z) : value :=
  let '(x, y, p) := px in color_at replacer (k - p).

(** The bytes the [drawCanvas] callback writes for a source pixel: none
    when the probe at the destination offset is [undefined], else R, G, B
    and, when both canvases have an alpha channel, the alpha. *)
Definition blit_touch (dc : Canvas) (da : JsArray) (sc : Canvas)
    (offsetX offsetY : Z) (px : Z * Z * Z) (k : Z) : bool :=
  let '(x, y, p) := px in
  let q := bytePos_of dc (x + offsetX) (y + offsetY) in
  negb (is_undefined (arr_get da q))
  && covers q (if hasAlphaChannel dc && hasAlphaChannel sc then 4 else 3) k.

Definition blit_val (dc : Canvas) (da : JsArray) (sc : Canvas) (sa : JsArray)
    (offsetX offsetY : Z) (px : Z * Z * Z) (k : Z) : value :=
  let '(x, y, p) := px in
  let q := bytePos_of dc (x + offsetX) (y + offsetY) in
  if k - q <? 3
  then color_at (mergeColors (dest_color dc da q) (src_color sc sa p q)) (k - q)
  else mergeAlpha (arr_get da (q + CHANNEL_ALPHA)) (arr_get sa (p + CHANNEL_ALPHA)).

(** The buffer of the canvas a call returns. *)
Definition bytes_after (call : M loc) (s : store) : option (list value) :=
  match call s with
  | Ok (l', s') =>
      match s' !! l' with
      | Some (OCanvas c) =>
          match s' !! data c with
          | Some (OArray a) => Some (elems a)
          | _ => None
          end
      | _ => None
      end
  | Throw _ => None
  end.

(** The bytes of the buffer of the canvas at [l]. *)
Definition bytes_of (s : store) (l : loc) : option (list value) :=
  match s !! l with
  | Some (OCanvas c) =>
      match s !! data c with
      | Some (OArray a) => Some (elems a)
      | _ => None
      end
  | _ => None
  end.

(** Stores used as examples: an array is followed by the canvas that
    owns it. *)
Definition rgba_2x2 : store :=
  [ OArray (arr_of_bytes [ 1; 1; 1; 255;   2; 2; 2; 255;
                           3; 3; 3; 255;   4; 4; 4; 255 ]);
    OCanvas (mkCanvas 2 2 true 0%nat) ].

Definition rgba_1x1 : store :=
  [ OArray (arr_of_bytes [1; 2; 3; 255]); OCanvas (mkCanvas 1 1 true 0%nat) ].

Definition rgb_2x1 : store :=
  [ OArray (arr_of_bytes [1; 1; 1;  2; 2; 2]);
    OCanvas (mkCanvas 2 1 false 0%nat) ].

Definition three_bytes : store := [ OArray (arr_of_bytes [1; 2; 3]) ].

(** Two 2x1 RGBA canvases: a destination, at location 1, and a source, at
    location 3, whose first pixel is opaque and whose second is
    transparent. *)
Definition two_strips : store :=
  [ OArray (arr_of_bytes [1; 2; 3; 255;   4; 5; 6; 255]);
    OCanvas (mkCanvas 2 1 true 0%nat);
    OArray (arr_of_bytes [10; 20; 30; 255;   0; 0; 0; 0]);
    OCanvas (mkCanvas 2 1 true 2%nat) ].

(** A 2x1 RGB destination, at location 1, and a fully opaque 2x1 RGBA
    source, at location 3. *)
Definition rgb_under_rgba : store :=
  [ OArray (arr_of_bytes [0; 0; 0;   0; 0; 0]);
    OCanvas (mkCanvas 2 1 false 0%nat);
    OArray (arr_of_bytes [10; 20; 30; 255;   40; 50; 60; 255]);
    OCanvas (mkCanvas 2 1 true 2%nat) ].

(** A number that fits a byte. *)
Definition is_byte (v : value) : Prop := exists n, v = VNum n /\ 0 <= n <= 255.

Definition is_byteb (v : value) : bool :=
  match v with VNum n => (0 <=? n) && (n <=? 255) | _ => false end.

(** A well-formed canvas all of whose slots hold bytes. *)
Definition byte_canvas (c : Canvas) (a : JsArray) : Prop :=
  well_formed c a /\ forall k, 0 <= k < arr_length a -> is_byte (arr_get a k).

Definition byte_canvasb (c : Canvas) (a : JsArray) : bool :=
  well_formedb c a && forallb is_byteb (elems a).

(** The alpha component of a colour is a number or is left out. *)
Definition alpha_ok (color : Color) : Prop :=
  is_number (color_at color CHANNEL_ALPHA) \/ color_at color CHANNEL_ALPHA = VUndef.

(** The colour [getColor] reads from a zero-filled canvas, and the one it
    reads where the buffer has nothing. *)
Definition blank_color (alpha : bool) : Color :=
  [VNum 0; VNum 0; VNum 0] ++ (if alpha then [VNum 0] else []).

Definition undefined_color (alpha : bool) : Color :=
  [VUndef; VUndef; VUndef] ++ (if alpha then [VUndef] else []).

Definition on_canvasb (c : Canvas) (x y : Z) : bool :=
  (0 <=? x) && (x <? width c) && (0 <=? y) && (y <? height c).

(** The bytes [drawPixel] writes, and what it writes there. *)
Definition pixel_touch (c : Canvas) (x y : Z) (color : Color) (k : Z) : bool :=
  covers (bytePos_of c x y)
         (if truthy (color_at color CHANNEL_ALPHA) && hasAlphaChannel c
          then 4 else 3) k.

(** A canvas object written by hand with a negative width; no call of
    [createCanvas] returns one. *)
Definition negative_width : store :=
  [ OArray (arr_of_bytes []); OCanvas (mkCanvas (-1) 1 true 0%nat) ].

(** A 2x2 RGBA destination, at location 1, and a 1x2 RGB source, at
    location 3. *)
Definition rgb_over_rgba : store :=
  [ OArray (arr_of_bytes [ 1; 1; 1; 0;     2; 2; 2; 128;
                           3; 3; 3; 255;   4; 4; 4; 255 ]);
    OCanvas (mkCanvas 2 2 true 0%nat);
    OArray (arr_of_bytes [ 10; 20; 30;   40; 50; 60 ]);
    OCanvas (mkCanvas 1 2 false 2%nat) ].

(** A 1x1 RGBA destination, at location 1, whose buffer holds 3 bytes, as
    [createCanvasFromImageBuffer([1, 2, 3], 1, 1, true)] returns it, and a
    1x1 RGBA source, at location 3. *)
Definition short_destination : store :=
  [ OArray (arr_of_bytes [1; 2; 3]);
    OCanvas (mkCanvas 1 1 true 0%nat);
    OArray (arr_of_bytes [9; 9; 9; 255]);
    OCanvas (mkCanvas 1 1 true 2%nat) ].

(* ===================================================================== *)
(** ** Laws of arrays *)
(* ===================================================================== *)

Section ArrayLaws.

Implicit Types (a : JsArray) (k : Z) (v : value).

Lemma arr_length_nonneg a : 0 <= arr_length a.
Proof. unfold arr_length. lia. Qed.

(** Reading after a write: the written slot holds the value, every
    other key reads as before. *)
Lemma arr_get_set a k v k' :
  arr_get (arr_set a k v) k' = if k' =? k then v else arr_get a k'.
Proof.
  unfold arr_get, arr_set.
  destruct (Z.leb_spec 0 k) as [Hk|Hk]; cbn zeta.
  - destruct (Nat.ltb_spec (Z.to_nat k) (length (elems a))) as [Hlt|Hge];
      cbn [elems props];
      destruct (Z.eqb_spec k' k) as [->|Hne].
    + destruct (Z.leb_spec 0 k); [|lia].
      by rewrite list_lookup_insert_eq.
    + destruct (Z.leb_spec 0 k'); [|done].
      rewrite list_lookup_insert_ne; [done|lia].
    + destruct (Z.leb_spec 0 k); [|lia].
      rewrite lookup_app_r by lia.
      rewrite lookup_app_r by (rewrite length_replicate; lia).
      rewrite length_replicate.
      by replace (_ - _ - _)%nat with 0%nat by lia.
    + destruct (Z.leb_spec 0 k'); [|done].
      destruct (decide (Z.to_nat k' < length (elems a))%nat) as [Hin|Hout].
      * by rewrite lookup_app_l.
      * rewrite (lookup_ge_None_2 (elems a)) by lia.
        rewrite lookup_app_r by lia.
        destruct (decide (Z.to_nat k' < Z.to_nat k)%nat) as [Hl|Hg].
        -- rewrite lookup_app_l by (rewrite length_replicate; lia).
           rewrite lookup_replicate_2; [done|lia].
        -- rewrite lookup_app_r by (rewrite length_replicate; lia).
           rewrite length_replicate.
           rewrite lookup_ge_None_2; [done|cbn; lia].
  - cbn [elems props].
    destruct (Z.eqb_spec k' k) as [->|Hne].
    + destruct (Z.leb_spec 0 k); [lia|]. by rewrite lookup_insert_eq.
    + destruct (Z.leb_spec 0 k'); [done|].
      by rewrite lookup_insert_ne.
Qed.

(** A write grows the array exactly when its index is at or past the
    end. *)
Lemma arr_length_set a k v :
  arr_length (arr_set a k v)
  = if (0 <=? k) && (arr_length a <=? k) then k + 1 else arr_length a.
Proof.
  unfold arr_length, arr_set.
  destruct (Z.leb_spec 0 k) as [Hk|Hk]; cbn [andb]; [|done].
  cbn zeta.
  destruct (Nat.ltb_spec (Z.to_nat k) (length (elems a))) as [Hlt|Hge];
    cbn [elems].
  - rewrite length_insert.
    destruct (Z.leb_spec (Z.of_nat (length (elems a))) k); [lia|done].
  - rewrite !length_app, length_replicate. cbn [length].
    destruct (Z.leb_spec (Z.of_nat (length (elems a))) k); lia.
Qed.

Lemma arr_length_set_inside a k v :
  k < arr_length a -> arr_length (arr_set a k v) = arr_length a.
Proof.
  intros Hk. rewrite arr_length_set.
  destruct (Z.leb_spec 0 k); cbn [andb]; [|done].
  destruct (Z.leb_spec (arr_length a) k); [lia|done].
Qed.

Lemma arr_get_outside a k : arr_length a <= k -> arr_get a k = VUndef.
Proof.
  intros Hk. unfold arr_get, arr_length in *.
  destruct (Z.leb_spec 0 k); [|lia].
  rewrite lookup_ge_None_2; [done|lia].
Qed.

Lemma arr_length_spread a : arr_length (spread a) = arr_length a.
Proof. done. Qed.

(** The copy holds the indexed elements and no property. *)
Lemma arr_get_spread a k :
  arr_get (spread a) k = if 0 <=? k then arr_get a k else VUndef.
Proof.
  unfold arr_get, spread; cbn [elems props].
  destruct (0 <=? k); [done|]. by rewrite lookup_empty.
Qed.

Lemma arr_get_assignRGB a p color k :
  arr_get (assignRGB_arr a p color) k
  = if (p <=? k) && (k <? p + 3) then color_at color (k - p)
    else arr_get a k.
Proof.
  unfold assignRGB_arr, CHANNEL_RED, CHANNEL_GREEN, CHANNEL_BLUE.
  rewrite !arr_get_set.
  destruct (Z.eqb_spec k (p + 2)) as [->|];
    [replace (p + 2 - p) with 2 by lia|];
    [destruct (Z.leb_spec p (p + 2)), (Z.ltb_spec (p + 2) (p + 3)); done || lia|].
  destruct (Z.eqb_spec k (p + 1)) as [->|];
    [replace (p + 1 - p) with 1 by lia|];
    [destruct (Z.leb_spec p (p + 1)), (Z.ltb_spec (p + 1) (p + 3)); done || lia|].
  destruct (Z.eqb_spec k (p + 0)) as [->|];
    [replace (p + 0 - p) with 0 by lia|];
    [destruct (Z.leb_spec p (p + 0)), (Z.ltb_spec (p + 0) (p + 3)); done || lia|].
  destruct (Z.leb_spec p k), (Z.ltb_spec k (p + 3)); cbn [andb]; done || lia.
Qed.

Lemma arr_length_assignRGB_inside a p color :
  0 <= p -> p + 3 <= arr_length a ->
  arr_length (assignRGB_arr a p color) = arr_length a.
Proof.
  intros Hp Hlen. unfold assignRGB_arr, CHANNEL_RED, CHANNEL_GREEN, CHANNEL_BLUE.
  assert (H0 : arr_length (arr_set a (p + 0) (color_at color 0)) = arr_length a)
    by (apply arr_length_set_inside; lia).
  assert (H1 : arr_length (arr_set (arr_set a (p + 0) (color_at color 0))
                                   (p + 1) (color_at color 1)) = arr_length a)
    by (rewrite arr_length_set_inside; lia).
  rewrite arr_length_set_inside; lia.
Qed.

End ArrayLaws.

(* ===================================================================== *)
(** ** Running the calls *)
(* ===================================================================== *)

Lemma bind_Ok {A B} (m : M A) (k : A -> M B) (s s' : store) (a : A) :
  m s = Ok (a, s') -> bind m k s = k a s'.
Proof. unfold bind. by intros ->. Qed.

Lemma bind_Throw {A B} (m : M A) (k : A -> M B) (s : store) (e : error) :
  m s = Throw e -> bind m k s = Throw e.
Proof. unfold bind. by intros ->. Qed.

Section Runs.

Implicit Types (s t : store) (l : loc) (c : Canvas) (a b : JsArray).

Lemma getCanvas_run t l c :
  t !! l = Some (OCanvas c) -> getCanvas l t = Ok (c, t).
Proof. unfold getCanvas. by intros ->. Qed.

Lemma getArray_run t l a :
  t !! l = Some (OArray a) -> getArray l t = Ok (a, t).
Proof. unfold getArray. by intros ->. Qed.

Lemma readData_run t l c a k :
  canvas_at t l c a -> readData l k t = Ok (arr_get a k, t).
Proof.
  intros [Hc Ha]. unfold readData.
  rewrite (bind_Ok _ _ _ _ _ (getCanvas_run _ _ _ Hc)).
  by rewrite (bind_Ok _ _ _ _ _ (getArray_run _ _ _ Ha)).
Qed.

Lemma canvasHasAlpha_run t l c :
  t !! l = Some (OCanvas c) -> canvasHasAlpha l t = Ok (hasAlphaChannel c, t).
Proof.
  intros Hc. unfold canvasHasAlpha.
  by rewrite (bind_Ok _ _ _ _ _ (getCanvas_run _ _ _ Hc)).
Qed.

Lemma coordinates2bytePosition_run t l c x y :
  t !! l = Some (OCanvas c) ->
  coordinates2bytePosition l x y t = Ok (bytePos_of c x y, t).
Proof.
  intros Hc. unfold coordinates2bytePosition.
  by rewrite (bind_Ok _ _ _ _ _ (getCanvas_run _ _ _ Hc)).
Qed.

(** [getColor] reads and leaves the store as it is. *)
Lemma getColor_run t l c a x y :
  canvas_at t l c a -> getColor l x y t = Ok (getColor_arr c a x y, t).
Proof.
  intros Hat. pose proof Hat as [Hc _]. unfold getColor, getColor_arr.
  rewrite (bind_Ok _ _ _ _ _ (coordinates2bytePosition_run _ _ _ _ _ Hc)).
  rewrite !(bind_Ok _ _ _ _ _ (readData_run _ _ _ _ _ Hat)).
  rewrite (bind_Ok _ _ _ _ _ (canvasHasAlpha_run _ _ _ Hc)).
  destruct (hasAlphaChannel c); [|done].
  by rewrite (bind_Ok _ _ _ _ _ (readData_run _ _ _ _ _ Hat)).
Qed.

(** Objects that were there before the clone are found unchanged in the
    working store. *)
Lemma working_lookup_old s c b l o :
  s !! l = Some o -> working s c b !! l = Some o.
Proof. intros H. unfold working. by apply lookup_app_l_Some. Qed.

Lemma canvas_at_working s c b l c' a :
  canvas_at s l c' a -> canvas_at (working s c b) l c' a.
Proof. intros [H1 H2]. split; by apply working_lookup_old. Qed.

Lemma working_lookup_canvas s c b :
  working s c b !! S (length s)
  = Some (OCanvas (mkCanvas (width c) (height c) (hasAlphaChannel c)
                            (S (S (length s))))).
Proof.
  unfold working. rewrite lookup_app_r by lia.
  by replace (S (length s) - length s)%nat with 1%nat by lia.
Qed.

Lemma working_lookup_buffer s c b :
  working s c b !! S (S (length s)) = Some (OArray b).
Proof.
  unfold working. rewrite lookup_app_r by lia.
  by replace (S (S (length s)) - length s)%nat with 2%nat by lia.
Qed.

Lemma working_canvas_at s c b :
  canvas_at (working s c b) (S (length s))
    (mkCanvas (width c) (height c) (hasAlphaChannel c) (S (S (length s)))) b.
Proof.
  split; [apply working_lookup_canvas | apply working_lookup_buffer].
Qed.

Lemma working_insert_buffer s c b b' :
  <[S (S (length s)) := OArray b']> (working s c b) = working s c b'.
Proof.
  unfold working. rewrite insert_app_r_alt by lia.
  by replace (S (S (length s)) - length s)%nat with 2%nat by lia.
Qed.

(** A write through the clone changes its buffer and nothing else. *)
Lemma writeData_working s c b k v :
  writeData (S (length s)) k v (working s c b)
  = Ok (tt, working s c (arr_set b k v)).
Proof.
  unfold writeData.
  rewrite (bind_Ok _ _ _ _ _ (getCanvas_run _ _ _ (working_lookup_canvas s c b))).
  cbn [data]. unfold writeArray.
  by rewrite working_lookup_buffer, working_insert_buffer.
Qed.

Lemma assignRGB_working s c b p color :
  assignRGB (S (length s)) p color (working s c b)
  = Ok (tt, working s c (assignRGB_arr b p color)).
Proof.
  unfold assignRGB, assignRGB_arr.
  rewrite !(bind_Ok _ _ _ _ _ (writeData_working _ _ _ _ _)).
  by rewrite writeData_working.
Qed.

(** A loop whose body rewrites the clone's buffer folds the rewriting
    over its range. *)
Lemma forM_working {A} (l : list A) (body : A -> M unit)
    (f : JsArray -> A -> JsArray) s c :
  (forall x b, body x (working s c b) = Ok (tt, working s c (f b x))) ->
  forall b, forM_ l body (working s c b) = Ok (tt, working s c (fold_left f l b)).
Proof.
  intros Hbody. induction l as [|x l IH]; intros b; [done|].
  cbn [forM_ fold_left]. rewrite (bind_Ok _ _ _ _ _ (Hbody x b)). apply IH.
Qed.

Lemma forEachPixel_working l c callback
    (f : JsArray -> Z * Z * Z -> JsArray) s wc :
  s !! l = Some (OCanvas c) ->
  (forall x y p b, callback x y p (working s wc b)
                   = Ok (tt, working s wc (f b (x, y, p)))) ->
  forall b, forEachPixel l callback (working s wc b)
            = Ok (tt, working s wc
                    (fold_left f (pixels (width c) (height c) (hasAlphaChannel c)) b)).
Proof.
  intros Hc Hcb b. unfold forEachPixel.
  rewrite (bind_Ok _ _ _ _ _
             (getCanvas_run _ _ _ (working_lookup_old _ wc b _ _ Hc))).
  apply forM_working. intros [[x y] p] b'. apply Hcb.
Qed.

Lemma createCanvas_run s w h alpha :
  0 <= w * h * getChannelCount alpha ->
  createCanvas w h alpha s
  = Ok (S (length s),
        s ++ [OArray (zeros (w * h * getChannelCount alpha));
              OCanvas (mkCanvas w h alpha (length s))]).
Proof.
  intros Hsize. unfold createCanvas, newUint8Array.
  fold (getChannelCount alpha).
  destruct (Z.ltb_spec (w * h * getChannelCount alpha) 0); [lia|].
  unfold bind, alloc. rewrite length_app, <- app_assoc. cbn [length app].
  by replace (length s + 1)%nat with (S (length s)) by lia.
Qed.

(** The new canvas carries a copy of the buffer it is given, whatever
    the buffer's length is. *)
Lemma createCanvasFromImageBuffer_run s buf a w h alpha :
  s !! buf = Some (OArray a) ->
  0 <= w * h * getChannelCount alpha ->
  createCanvasFromImageBuffer buf w h alpha s
  = Ok (S (length s),
        s ++ [OArray (zeros (w * h * getChannelCount alpha));
              OCanvas (mkCanvas w h alpha (S (S (length s))));
              OArray (spread a)]).
Proof.
  intros Ha Hsize. unfold createCanvasFromImageBuffer.
  rewrite (bind_Ok _ _ _ _ _ (createCanvas_run _ _ _ _ Hsize)).
  erewrite bind_Ok by (apply getArray_run; by apply lookup_app_l_Some).
  unfold bind, alloc, setData, ret.
  rewrite length_app. cbn [length].
  replace (length s + 2)%nat with (S (S (length s))) by lia.
  rewrite <- app_assoc. cbn [app].
  rewrite lookup_app_r by lia.
  replace (S (length s) - length s)%nat with 1%nat by lia.
  cbn [lookup list_lookup]. cbn.
  rewrite insert_app_r_alt by lia.
  by replace (S (length s) - length s)%nat with 1%nat by lia.
Qed.

(** [cloneCanvas] allocates three objects and leaves the others alone. *)
Lemma cloneCanvas_run s l c a :
  canvas_at s l c a -> 0 <= byte_size c ->
  cloneCanvas l s = Ok (S (length s), working s c (spread a)).
Proof.
  intros [Hc Ha] Hsize. unfold cloneCanvas.
  rewrite (bind_Ok _ _ _ _ _ (getCanvas_run _ _ _ Hc)).
  by rewrite (createCanvasFromImageBuffer_run _ _ _ _ _ _ Ha Hsize).
Qed.

(** A negative size makes the allocation of the typed array throw. *)
Lemma cloneCanvas_negative s l c :
  s !! l = Some (OCanvas c) -> byte_size c < 0 ->
  cloneCanvas l s = Throw RangeError.
Proof.
  intros Hc Hsize. unfold cloneCanvas.
  rewrite (bind_Ok _ _ _ _ _ (getCanvas_run _ _ _ Hc)).
  unfold createCanvasFromImageBuffer, createCanvas, newUint8Array.
  fold (getChannelCount (hasAlphaChannel c)). fold (byte_size c).
  destruct (Z.ltb_spec (byte_size c) 0); [done|lia].
Qed.

End Runs.

Section Calls.

Variables (s : store) (l : loc) (c : Canvas) (a : JsArray).
Hypothesis Hat : canvas_at s l c a.
Hypothesis Hsize : 0 <= byte_size c.

Let Hc : s !! l = Some (OCanvas c) := proj1 Hat.

Local Ltac in_working :=
  first [ apply coordinates2bytePosition_run
        | apply canvasHasAlpha_run
        | apply getColor_run; apply canvas_at_working
        | eapply readData_run; apply canvas_at_working ];
  try apply working_lookup_old; eassumption.

Lemma drawPixel_run x y color :
  drawPixel l x y color s
  = Ok (S (length s), working s c (drawPixel_arr c x y color (spread a))).
Proof.
  unfold drawPixel, drawPixel_arr.
  rewrite (bind_Ok _ _ _ _ _ (cloneCanvas_run _ _ _ _ Hat Hsize)).
  erewrite bind_Ok by in_working.
  rewrite (bind_Ok _ _ _ _ _ (assignRGB_working _ _ _ _ _)).
  destruct (truthy (color_at color CHANNEL_ALPHA)); cbn [andb]; [|done].
  unfold bind.
  rewrite (canvasHasAlpha_run _ _ _ (working_lookup_old _ _ _ _ _ Hc)).
  destruct (hasAlphaChannel c); [|done].
  by rewrite writeData_working.
Qed.

Lemma Flat_drawPixel_run x y color :
  Flat.drawPixel l x y color s
  = Ok (S (length s),
        working s c (assignRGB_arr (spread a) (bytePos_of c x y) color)).
Proof.
  unfold Flat.drawPixel.
  rewrite (bind_Ok _ _ _ _ _ (cloneCanvas_run _ _ _ _ Hat Hsize)).
  erewrite bind_Ok by in_working.
  by rewrite (bind_Ok _ _ _ _ _ (assignRGB_working _ _ _ _ _)).
Qed.

Lemma drawRect_run x y w h color :
  drawRect l x y w h color s
  = Ok (S (length s), working s c (drawRect_arr c x y w h color (spread a))).
Proof.
  unfold drawRect, drawRect_arr.
  rewrite (bind_Ok _ _ _ _ _ (cloneCanvas_run _ _ _ _ Hat Hsize)).
  erewrite bind_Ok; [reflexivity|].
  apply forM_working. intros i b.
  apply forM_working. intros j b'. unfold rect_px.
  erewrite bind_Ok by in_working.
  rewrite (bind_Ok _ _ _ _ _ (assignRGB_working _ _ _ _ _)).
  erewrite bind_Ok by in_working.
  destruct (hasAlphaChannel c); [|done].
  by rewrite writeData_working.
Qed.

Lemma Flat_drawRect_run x y w h color :
  Flat.drawRect l x y w h color s
  = Ok (S (length s),
        working s c (Flat_arr.drawRect_arr c x y w h color (spread a))).
Proof.
  unfold Flat.drawRect, Flat_arr.drawRect_arr.
  rewrite (bind_Ok _ _ _ _ _ (cloneCanvas_run _ _ _ _ Hat Hsize)).
  erewrite bind_Ok; [reflexivity|].
  apply forM_working. intros i b.
  apply forM_working. intros j b'. unfold Flat_arr.rect_px.
  erewrite bind_Ok by in_working.
  rewrite (bind_Ok _ _ _ _ _ (assignRGB_working _ _ _ _ _)).
  by rewrite writeData_working.
Qed.

Lemma replaceColor_run replacee replacer :
  replaceColor l replacee replacer s
  = Ok (S (length s),
        working s c (replaceColor_arr c a replacee replacer (spread a))).
Proof.
  unfold replaceColor, replaceColor_arr.
  rewrite (bind_Ok _ _ _ _ _ (cloneCanvas_run _ _ _ _ Hat Hsize)).
  erewrite bind_Ok; [reflexivity|].
  apply forEachPixel_working; [exact Hc|].
  intros x y p b. unfold replace_px.
  erewrite bind_Ok by in_working.
  destruct (isEqualColor _ _); [|done].
  apply assignRGB_working.
Qed.

(** Blitting [source] onto the canvas at [l]. *)
Lemma drawCanvas_run source sc sa offsetX offsetY :
  canvas_at s source sc sa ->
  drawCanvas l source offsetX offsetY s
  = Ok (S (length s),
        working s c (drawCanvas_arr c a sc sa offsetX offsetY (spread a))).
Proof.
  intros Hsrc. pose proof Hsrc as [Hsc _].
  unfold drawCanvas, drawCanvas_arr.
  rewrite (bind_Ok _ _ _ _ _ (cloneCanvas_run _ _ _ _ Hat Hsize)).
  erewrite bind_Ok; [reflexivity|].
  apply forEachPixel_working; [exact Hsc|].
  intros x y p b. unfold blit_px.
  erewrite bind_Ok by in_working.
  erewrite bind_Ok by in_working.
  destruct (is_undefined _); [done|].
  cbn zeta.
  do 4 (erewrite bind_Ok by in_working).
  set (q := bytePos_of c (x + offsetX) (y + offsetY)).
  rewrite (bind_Ok (if hasAlphaChannel c then _ else _) _ _ (working s c b)
             (if hasAlphaChannel c then arr_get a (q + CHANNEL_ALPHA)
              else VNum 255)).
  2:{ destruct (hasAlphaChannel c); [in_working|reflexivity]. }
  do 4 (erewrite bind_Ok by in_working).
  rewrite (bind_Ok (if hasAlphaChannel sc then _ else _) _ _ (working s c b)
             (if hasAlphaChannel sc then arr_get sa (q + CHANNEL_ALPHA)
              else VNum 255)).
  2:{ destruct (hasAlphaChannel sc); [in_working|reflexivity]. }
  unfold dest_color, src_color.
  rewrite (bind_Ok _ _ _ _ _ (assignRGB_working _ _ _ _ _)).
  match goal with
  | |- bind ?m ?k ?W = _ =>
      rewrite (bind_Ok m k W W (hasAlphaChannel c && hasAlphaChannel sc))
  end.
  2:{ erewrite bind_Ok by in_working.
      destruct (hasAlphaChannel c); [in_working|reflexivity]. }
  destruct (hasAlphaChannel c && hasAlphaChannel sc); [|done].
  do 2 (erewrite bind_Ok by in_working).
  apply writeData_working.
Qed.

Lemma Flat_drawCanvas_throws source sc sa offsetX offsetY :
  canvas_at s source sc sa ->
  0 < width sc -> 0 < height sc ->
  Flat.drawCanvas l source offsetX offsetY s = Throw ReferenceError.
Proof.
  intros [Hsc _] Hw Hh. unfold Flat.drawCanvas.
  rewrite (bind_Ok _ _ _ _ _ (cloneCanvas_run _ _ _ _ Hat Hsize)).
  apply bind_Throw. unfold forEachPixel.
  erewrite bind_Ok by (apply getCanvas_run, working_lookup_old, Hsc).
  unfold pixels.
  rewrite (seqZ_cons 0 (height sc)) by lia. cbn [flat_map].
  rewrite (seqZ_cons 0 (width sc)) by lia. done.
Qed.

End Calls.

(* ===================================================================== *)
(** ** Part 5: properties *)
(* ===================================================================== *)

(** *** The utilities against the repository's tests

    The assertions of the test file, on the definitions of Part 2. *)

Example test_coordinates2bytePosition :
  map (fun '(x, y) => coordinatesToBytePosition 2 true x y)
      [(0, 0); (1, 0); (0, 1); (1, 1); (0, 2); (1, 2); (0, 3); (1, 3)]
  = [0; 4; 8; 12; 16; 20; 24; 28].
Proof. reflexivity. Qed.

Example test_bytePosition2Coordinates :
  map (bytePositionToCoordinates 2 true) [0; 4; 8; 12; 16; 20; 24; 28]
  = [(0, 0); (1, 0); (0, 1); (1, 1); (0, 2); (1, 2); (0, 3); (1, 3)].
Proof. reflexivity. Qed.

Example test_blendAlpha :
  blendAlpha 0 0 = 0 /\ blendAlpha 255 0 = 255 /\
  blendAlpha 0 255 = 255 /\ blendAlpha 255 255 = 255.
Proof. repeat split; reflexivity. Qed.

Example test_blendChannel_00 :
  map (fun '(d, s, da, sa) => blendChannel d s da sa)
      [ (0, 0, 0, 0); (0, 0, 0, 255); (0, 0, 255, 0); (0, 0, 255, 255);
        (0, 255, 255, 0); (0, 255, 0, 0) ]
  = [0; 0; 0; 0; 0; 0].
Proof. reflexivity. Qed.

Example test_blendChannel_ff :
  map (fun '(d, s, da, sa) => blendChannel d s da sa)
      [ (255, 255, 0, 0); (255, 255, 0, 255); (255, 255, 255, 0);
        (255, 255, 255, 255); (255, 0, 255, 0) ]
  = [255; 255; 255; 255; 255].
Proof. reflexivity. Qed.

Example test_blendColor :
  blendColor (0, 0, 0, 255) (255, 255, 255, 0) = (0, 0, 0, 255).
Proof. reflexivity. Qed.

Lemma getChannelCount_pos alpha : 0 < getChannelCount alpha.
Proof. destruct alpha; reflexivity. Qed.

Lemma getChannelCount_cases alpha :
  getChannelCount alpha = 3 \/ getChannelCount alpha = 4.
Proof. destruct alpha; [right|left]; reflexivity. Qed.

(** C4. A pixel's byte offset maps back to the pixel: for a width above 0
    and coordinates [0 <= x < width], [0 <= y < height],
    [bytePositionToCoordinates] of [coordinatesToBytePosition] is
    [(x, y)], with or without alpha channel. *)
Theorem coordinates_round_trip (w h : Z) (alpha : bool) (x y : Z) :
  0 < w -> 0 <= x < w -> 0 <= y < h ->
  bytePositionToCoordinates w alpha (coordinatesToBytePosition w alpha x y)
  = (x, y).
Proof.
  intros Hw Hx Hy.
  unfold bytePositionToCoordinates, coordinatesToBytePosition.
  pose proof (getChannelCount_pos alpha) as Hch.
  rewrite Z.div_mul by lia.
  assert (Hpix : 0 <= y * w + x) by nia.
  rewrite Z.rem_mod_nonneg by lia.
  f_equal.
  - rewrite Z.add_comm, Z.mod_add by lia. apply Z.mod_small; lia.
  - rewrite Z.div_add_l by lia. rewrite Z.div_small; lia.
Qed.

Lemma coordinates_round_trip_witness :
  bytePositionToCoordinates 2 true (coordinatesToBytePosition 2 true 1 3)
  = (1, 3).
Proof. apply (coordinates_round_trip 2 4 true 1 3); lia. Defined.

(** C5. [blendAlpha(0, 0) = 0], and for every [x] in [0, 255] the
    composite alpha is 255 as soon as one operand is 255:
    [blendAlpha(x, 255) = 255] and [blendAlpha(255, x) = 255]. *)
Theorem blendAlpha_saturates :
  blendAlpha 0 0 = 0 /\
  forall x, 0 <= x <= 255 -> blendAlpha x 255 = 255 /\ blendAlpha 255 x = 255.
Proof.
  split; [reflexivity|]. intros x Hx. unfold blendAlpha. split.
  - replace (255 * 255 + x * (255 - 255)) with 65025 by lia. reflexivity.
  - replace (255 * x + 255 * (255 - x)) with 65025 by lia. reflexivity.
Qed.

Lemma blendAlpha_saturates_witness :
  blendAlpha 100 255 = 255 /\ blendAlpha 255 100 = 255.
Proof. apply (proj2 blendAlpha_saturates 100). lia. Defined.

(** *** Folding writes over a list of pixels

    Every loop of [index.js] runs, for each element of a list, a step that
    either leaves a given key of the buffer alone or stores there a value
    that does not depend on the buffer.  What the loop leaves at the key
    is then decided by the elements that touch it. *)
Section FoldPoint.

Context {E : Type}.
Variables (step : JsArray -> E -> JsArray)
          (touch : E -> Z -> bool) (val : E -> Z -> value).
Hypothesis step_get : forall b e k,
  arr_get (step b e) k = if touch e k then val e k else arr_get b k.

Lemma fold_untouched (l : list E) (b : JsArray) (k : Z) :
  (forall e, In e l -> touch e k = false) ->
  arr_get (fold_left step l b) k = arr_get b k.
Proof.
  revert b. induction l as [|e l IH]; intros b Hl; [done|].
  cbn [fold_left]. rewrite IH by (intros; apply Hl; by right).
  rewrite step_get, Hl; [done|by left].
Qed.

Lemma fold_touched (l : list E) (b : JsArray) (k : Z) :
  (exists e, In e l /\ touch e k = true) ->
  exists e, In e l /\ touch e k = true
            /\ arr_get (fold_left step l b) k = val e k.
Proof.
  revert b. induction l as [|e l IH]; intros b [e0 [Hin Ht]]; [done|].
  cbn [fold_left].
  destruct (existsb (fun e' => touch e' k) l) eqn:Hex.
  - apply existsb_exists in Hex as [e1 [Hin1 Ht1]].
    destruct (IH (step b e)) as [e2 [Hin2 [Ht2 Hv]]]; [by exists e1|].
    exists e2. split; [by right|done].
  - assert (Hnone : forall e', In e' l -> touch e' k = false).
    { intros e' Hin'. destruct (touch e' k) eqn:Ht'; [|done].
      assert (existsb (fun e' => touch e' k) l = true)
        by (apply existsb_exists; eauto).
      congruence. }
    destruct Hin as [->|Hin]; [|by rewrite (Hnone e0 Hin) in Ht].
    exists e0. split; [by left|]. split; [done|].
    by rewrite fold_untouched, step_get, Ht.
Qed.

Lemma fold_touched_same (l : list E) (b : JsArray) (k : Z) (v : value) :
  (forall e, In e l -> touch e k = true -> val e k = v) ->
  (exists e, In e l /\ touch e k = true) ->
  arr_get (fold_left step l b) k = v.
Proof.
  intros Hsame Hex.
  destruct (fold_touched l b k Hex) as [e [Hin [Ht ->]]]. by apply Hsame.
Qed.

(** What the loop leaves at a key is what the last element that touches
    it wrote. *)
Lemma fold_last (l : list E) (b : JsArray) (k : Z) :
  arr_get (fold_left step l b) k
  = match find (fun e => touch e k) (rev l) with
    | Some e => val e k
    | None => arr_get b k
    end.
Proof.
  revert b. induction l as [|e l IH] using rev_ind; intros b; [done|].
  rewrite fold_left_app, rev_app_distr. cbn [fold_left rev app find].
  rewrite step_get. destruct (touch e k); [done|apply IH].
Qed.

(** The length is kept when every step keeps it. *)
Lemma fold_length (l : list E) (b : JsArray) (n : Z) :
  (forall b' e, In e l -> arr_length b' = n -> arr_length (step b' e) = n) ->
  arr_length b = n -> arr_length (fold_left step l b) = n.
Proof.
  revert b. induction l as [|e l IH]; intros b Hstep Hb; [done|].
  cbn [fold_left]. apply IH.
  - intros b' e' Hin. apply Hstep. by right.
  - apply Hstep; [by left|done].
Qed.

End FoldPoint.

(** *** The pixels a loop visits *)

Lemma in_seqZ (m n k : Z) : In k (seqZ m n) <-> m <= k < m + n.
Proof. rewrite <- list_elem_of_In. apply elem_of_seqZ. Qed.

Lemma in_pixels w h alpha x y p :
  In (x, y, p) (pixels w h alpha)
  <-> 0 <= x < w /\ 0 <= y < h /\ p = coordinatesToBytePosition w alpha x y.
Proof.
  unfold pixels. rewrite in_flat_map. split.
  - intros [y' [Hy Hin]]. apply in_map_iff in Hin as [x' [Heq Hx]].
    inversion Heq; subst. apply in_seqZ in Hy, Hx. lia.
  - intros [Hx [Hy ->]]. exists y. split; [apply in_seqZ; lia|].
    apply in_map_iff. exists x. split; [done|apply in_seqZ; lia].
Qed.

Lemma in_rect_pixels x y w h i j :
  In (i, j) (rect_pixels x y w h) <-> in_rect x y w h i j.
Proof.
  unfold rect_pixels, in_rect. rewrite in_flat_map. split.
  - intros [i' [Hi Hin]]. apply in_map_iff in Hin as [j' [Heq Hj]].
    inversion Heq; subst. apply in_seqZ in Hi, Hj. lia.
  - intros [Hi Hj]. exists i. split; [apply in_seqZ; lia|].
    apply in_map_iff. exists j. split; [done|apply in_seqZ; lia].
Qed.

(** The nested loops of [drawRect] are one loop over the rectangle's
    pixels. *)
Lemma nested_fold (f : JsArray -> Z -> Z -> JsArray) (xs ys : list Z)
    (b : JsArray) :
  fold_left (fun b i => fold_left (fun b j => f b i j) ys b) xs b
  = fold_left (fun b ij => f b (fst ij) (snd ij))
              (flat_map (fun i => map (fun j => (i, j)) ys) xs) b.
Proof.
  revert b. induction xs as [|i xs IH]; intros b; [done|].
  cbn [fold_left flat_map]. rewrite fold_left_app, IH. f_equal.
  clear. revert b. induction ys as [|j ys IH]; intros b; [done|].
  cbn [fold_left map]. apply IH.
Qed.

Lemma nested_fold_agree (f g : JsArray -> Z -> Z -> JsArray) (xs ys : list Z)
    (b : JsArray) :
  (forall b' i j, f b' i j = g b' i j) ->
  fold_left (fun b i => fold_left (fun b j => f b i j) ys b) xs b
  = fold_left (fun b i => fold_left (fun b j => g b i j) ys b) xs b.
Proof.
  intros Hfg. revert b. induction xs as [|i xs IH]; intros b; [done|].
  cbn [fold_left]. rewrite IH. f_equal.
  clear IH. revert b. induction ys as [|j ys IH]; intros b; [done|].
  cbn [fold_left]. by rewrite Hfg, IH.
Qed.

(** Two pixels of a canvas never share a byte. *)
Lemma pixel_bytes_disjoint w alpha x y x' y' d d' :
  0 <= x < w -> 0 <= x' < w ->
  0 <= d < getChannelCount alpha -> 0 <= d' < getChannelCount alpha ->
  coordinatesToBytePosition w alpha x y + d
  = coordinatesToBytePosition w alpha x' y' + d' ->
  x = x' /\ y = y' /\ d = d'.
Proof.
  intros Hx Hx' Hd Hd'. unfold coordinatesToBytePosition.
  set (ch := getChannelCount alpha) in *. intros Heq.
  assert (Hpix : y * w + x = y' * w + x') by nia.
  assert (d = d') by nia.
  assert (y = y') by nia.
  split; [nia|done].
Qed.

(** A pixel on the canvas has its bytes in the buffer. *)
Lemma pixel_bytes_inside c x y d :
  on_canvas c x y -> 0 <= d < getChannelCount (hasAlphaChannel c) ->
  0 <= bytePos_of c x y + d < byte_size c.
Proof.
  intros [Hx Hy] Hd. unfold bytePos_of, coordinatesToBytePosition, byte_size.
  set (ch := getChannelCount (hasAlphaChannel c)) in *.
  assert (0 <= y * width c + x) by nia.
  assert (y * width c + x + 1 <= width c * height c) by nia.
  nia.
Qed.

(** *** drawRect on an empty rectangle *)

Lemma fold_left_id {A} (f : JsArray -> A -> JsArray) (l : list A) (b : JsArray) :
  (forall b' x, f b' x = b') -> fold_left f l b = b.
Proof.
  intros Hid. revert b. induction l as [|x l IH]; intros b; [done|].
  cbn [fold_left]. by rewrite Hid.
Qed.

Lemma drawRect_arr_empty c x y w h color b :
  w <= 0 \/ h <= 0 -> drawRect_arr c x y w h color b = b.
Proof.
  intros [Hw|Hh]; unfold drawRect_arr.
  - by rewrite (seqZ_nil x w) by lia.
  - apply fold_left_id. intros b' i. by rewrite (seqZ_nil y h) by lia.
Qed.

Lemma Flat_drawRect_arr_empty c x y w h color b :
  w <= 0 \/ h <= 0 -> Flat_arr.drawRect_arr c x y w h color b = b.
Proof.
  intros [Hw|Hh]; unfold Flat_arr.drawRect_arr.
  - by rewrite (seqZ_nil x w) by lia.
  - apply fold_left_id. intros b' i. by rewrite (seqZ_nil y h) by lia.
Qed.

(** C10. An empty rectangle paints nothing: with [width <= 0] or
    [height <= 0], [drawRect] returns, for any position and colour and
    without an error, a canvas of the same dimensions whose buffer holds
    the bytes of the input's, one for one.  This holds in both iterations
    of [drawRect]. *)
Theorem drawRect_empty_rectangle s l c a (x y w h : Z) (color : Color) :
  canvas_at s l c a -> 0 <= byte_size c ->
  w <= 0 \/ h <= 0 ->
  (exists l' s' c' a',
      drawRect l x y w h color s = Ok (l', s')
      /\ canvas_at s' l' c' a'
      /\ (width c', height c', hasAlphaChannel c')
         = (width c, height c, hasAlphaChannel c)
      /\ elems a' = elems a)
  /\ (exists l' s' c' a',
      Flat.drawRect l x y w h color s = Ok (l', s')
      /\ canvas_at s' l' c' a'
      /\ (width c', height c', hasAlphaChannel c')
         = (width c, height c, hasAlphaChannel c)
      /\ elems a' = elems a).
Proof.
  intros Hat Hsize Hempty. split.
  - eexists _, _, _, _. split; [by apply drawRect_run|].
    split; [apply working_canvas_at|].
    split; [done|]. by rewrite drawRect_arr_empty.
  - eexists _, _, _, _. split; [by apply Flat_drawRect_run|].
    split; [apply working_canvas_at|].
    split; [done|]. by rewrite Flat_drawRect_arr_empty.
Qed.

Lemma rgba_2x2_canvas_at :
  canvas_at rgba_2x2 1%nat (mkCanvas 2 2 true 0%nat)
    (arr_of_bytes [1; 1; 1; 255; 2; 2; 2; 255; 3; 3; 3; 255; 4; 4; 4; 255]).
Proof. split; reflexivity. Qed.

Lemma drawRect_empty_rectangle_witness :
  exists l' s' c' a',
    drawRect 1%nat 1 1 0 5 [VNum 9; VNum 9; VNum 9] rgba_2x2 = Ok (l', s')
    /\ canvas_at s' l' c' a'
    /\ (width c', height c', hasAlphaChannel c') = (2, 2, true)
    /\ elems a'
       = VNum <$> [1; 1; 1; 255; 2; 2; 2; 255; 3; 3; 3; 255; 4; 4; 4; 255].
Proof.
  apply (drawRect_empty_rectangle rgba_2x2 1%nat _ _ 1 1 0 5
           [VNum 9; VNum 9; VNum 9] rgba_2x2_canvas_at).
  - vm_compute. discriminate.
  - left. lia.
Defined.

(** *** Nothing that exists is changed *)

Lemma working_prefix s c b : s `prefix_of` working s c b.
Proof. unfold working. by eexists. Qed.

Lemma canvas_at_prefix s s' l c a :
  s `prefix_of` s' -> canvas_at s l c a -> canvas_at s' l c a.
Proof.
  intros Hpre [Hc Ha]. split; by eapply prefix_lookup_Some.
Qed.

(** C3. The canvas operations do not mutate.  [drawPixel], [drawRect],
    [drawCanvas] and [replaceColor] return with a store that extends the
    one they were called in: every object that existed, the input canvas
    (width, height, hasAlphaChannel) and the bytes of its buffer among
    them, is what it was; [getColor] leaves the store as it is.
    [cloneCanvas] returns a canvas of the same dimensions, with the same
    bytes, in a buffer that did not exist before, and a write into that
    buffer leaves the original canvas and its buffer as they were. *)
Theorem operations_leave_input_unchanged s l c a :
  canvas_at s l c a -> 0 <= byte_size c ->
  (forall x y color, exists l' s',
      drawPixel l x y color s = Ok (l', s')
      /\ s `prefix_of` s' /\ canvas_at s' l c a)
  /\ (forall x y w h color, exists l' s',
      drawRect l x y w h color s = Ok (l', s')
      /\ s `prefix_of` s' /\ canvas_at s' l c a)
  /\ (forall source sc sa offsetX offsetY,
      canvas_at s source sc sa ->
      exists l' s',
        drawCanvas l source offsetX offsetY s = Ok (l', s')
        /\ s `prefix_of` s' /\ canvas_at s' l c a
        /\ canvas_at s' source sc sa)
  /\ (forall replacee replacer, exists l' s',
      replaceColor l replacee replacer s = Ok (l', s')
      /\ s `prefix_of` s' /\ canvas_at s' l c a)
  /\ (forall x y, exists color, getColor l x y s = Ok (color, s))
  /\ (exists l' s' c' a',
      cloneCanvas l s = Ok (l', s')
      /\ s `prefix_of` s' /\ canvas_at s' l c a
      /\ canvas_at s' l' c' a'
      /\ (width c', height c', hasAlphaChannel c')
         = (width c, height c, hasAlphaChannel c)
      /\ elems a' = elems a
      /\ (length s <= data c')%nat
      /\ forall k v, exists s'',
          writeData l' k v s' = Ok (tt, s'')
          /\ s `prefix_of` s'' /\ canvas_at s'' l c a).
Proof.
  intros Hat Hsize.
  assert (Hkeep : forall b, canvas_at (working s c b) l c a)
    by (intros b; by apply canvas_at_working).
  repeat split.
  - intros x y color. eexists _, _.
    split; [by apply drawPixel_run|]. split; [apply working_prefix|apply Hkeep].
  - intros x y w h color. eexists _, _.
    split; [by apply drawRect_run|]. split; [apply working_prefix|apply Hkeep].
  - intros source sc sa offsetX offsetY Hsrc. eexists _, _.
    split; [by eapply drawCanvas_run|].
    split; [apply working_prefix|].
    split; [apply Hkeep|by apply canvas_at_working].
  - intros replacee replacer. eexists _, _.
    split; [by apply replaceColor_run|].
    split; [apply working_prefix|apply Hkeep].
  - intros x y. eexists. by eapply getColor_run.
  - eexists _, _, _, _. split; [by apply cloneCanvas_run|].
    split; [apply working_prefix|]. split; [apply Hkeep|].
    split; [apply working_canvas_at|].
    split; [done|]. split; [done|]. split; [cbn; lia|].
    intros k v. eexists. split; [apply writeData_working|].
    split; [apply working_prefix|apply Hkeep].
Qed.

Lemma operations_leave_input_unchanged_witness :
  exists l' s',
    drawPixel 1%nat 0 1 [VNum 9; VNum 8; VNum 7; VNum 6] rgba_2x2 = Ok (l', s')
    /\ rgba_2x2 `prefix_of` s'
    /\ canvas_at s' 1%nat (mkCanvas 2 2 true 0%nat)
         (arr_of_bytes [1; 1; 1; 255; 2; 2; 2; 255; 3; 3; 3; 255; 4; 4; 4; 255]).
Proof.
  assert (Hsize : 0 <= byte_size (mkCanvas 2 2 true 0%nat))
    by (vm_compute; discriminate).
  exact (proj1 (operations_leave_input_unchanged rgba_2x2 1%nat _ _
                  rgba_2x2_canvas_at Hsize)
           0 1 [VNum 9; VNum 8; VNum 7; VNum 6]).
Defined.

(** *** createCanvasFromImageBuffer *)

(** C8, as the code has it.  [createCanvasFromImageBuffer] does not
    compare the buffer's length with the dimensions: for every buffer and
    every width, height and alpha flag whose size
    [width*height*channels] is not negative it returns a new canvas with
    these dimensions whose buffer is a copy of the supplied bytes, and no
    object that existed is changed. *)
Theorem createCanvasFromImageBuffer_copies s buf a (w h : Z) (alpha : bool) :
  s !! buf = Some (OArray a) ->
  0 <= w * h * getChannelCount alpha ->
  exists l' s' c' a',
    createCanvasFromImageBuffer buf w h alpha s = Ok (l', s')
    /\ canvas_at s' l' c' a'
    /\ (width c', height c', hasAlphaChannel c') = (w, h, alpha)
    /\ elems a' = elems a
    /\ data c' <> buf
    /\ s `prefix_of` s'.
Proof.
  intros Ha Hsize. eexists _, _, _, _.
  split; [by eapply createCanvasFromImageBuffer_run|].
  split.
  { split.
    - rewrite lookup_app_r by lia.
      by replace (S (length s) - length s)%nat with 1%nat by lia.
    - cbn [data]. rewrite lookup_app_r by lia.
      by replace (S (S (length s)) - length s)%nat with 2%nat by lia. }
  split; [done|]. split; [done|].
  split; [|by eexists].
  cbn [data]. apply lookup_lt_Some in Ha. lia.
Qed.

Lemma createCanvasFromImageBuffer_copies_witness :
  exists l' s' c' a',
    createCanvasFromImageBuffer 0%nat 1 1 true three_bytes = Ok (l', s')
    /\ canvas_at s' l' c' a'
    /\ (width c', height c', hasAlphaChannel c') = (1, 1, true)
    /\ elems a' = [VNum 1; VNum 2; VNum 3]
    /\ data c' <> 0%nat
    /\ three_bytes `prefix_of` s'.
Proof.
  apply (createCanvasFromImageBuffer_copies three_bytes 0%nat
           (arr_of_bytes [1; 2; 3]) 1 1 true).
  - reflexivity.
  - vm_compute. discriminate.
Defined.

(** C8, as stated, fails: a buffer of 3 bytes given as a 1x1 RGBA image,
    which needs 4, is accepted and becomes the canvas's data. *)
Lemma createCanvasFromImageBuffer_accepts_wrong_size :
  arr_length (arr_of_bytes [1; 2; 3]) <> 1 * 1 * getChannelCount true
  /\ exists s',
      createCanvasFromImageBuffer 0%nat 1 1 true three_bytes = Ok (2%nat, s')
      /\ s' !! 2%nat = Some (OCanvas (mkCanvas 1 1 true 3%nat))
      /\ bytes_of s' 2%nat = Some [VNum 1; VNum 2; VNum 3].
Proof.
  split; [vm_compute; discriminate|].
  eexists. split; [reflexivity|]. split; reflexivity.
Qed.

(** *** drawPixel and the alpha byte *)

(** The alpha byte after [drawPixel]: the colour's alpha where the canvas
    has an alpha channel and that alpha is truthy, the old byte
    otherwise. *)
Lemma drawPixel_arr_alpha c x y color b :
  arr_get (drawPixel_arr c x y color b) (bytePos_of c x y + CHANNEL_ALPHA)
  = if truthy (color_at color CHANNEL_ALPHA) && hasAlphaChannel c
    then color_at color CHANNEL_ALPHA
    else arr_get b (bytePos_of c x y + CHANNEL_ALPHA).
Proof.
  unfold drawPixel_arr, CHANNEL_ALPHA.
  destruct (truthy _ && hasAlphaChannel c).
  - rewrite arr_get_set. by rewrite Z.eqb_refl.
  - rewrite arr_get_assignRGB.
    destruct (Z.leb_spec (bytePos_of c x y) (bytePos_of c x y + 3)),
             (Z.ltb_spec (bytePos_of c x y + 3) (bytePos_of c x y + 3));
      done || lia.
Qed.

(** In the flat iteration [drawPixel] never touches the alpha byte. *)
Lemma Flat_drawPixel_arr_alpha b p color :
  arr_get (assignRGB_arr b p color) (p + CHANNEL_ALPHA)
  = arr_get b (p + CHANNEL_ALPHA).
Proof.
  unfold CHANNEL_ALPHA. rewrite arr_get_assignRGB.
  destruct (Z.leb_spec p (p + 3)), (Z.ltb_spec (p + 3) (p + 3)); done || lia.
Qed.

(** C6. [drawPixel] is to overwrite the alpha byte whenever the canvas has
    an alpha channel and the colour has four components.  On the 1x1 RGBA
    canvas [1, 2, 3, 255] the colour [9, 9, 9, 0] leaves the alpha byte at
    255: [color[CHANNEL_ALPHA]] is tested for truth, and 0 is falsy.
    [drawRect], which tests [isDefined], writes the 0.  The flat iteration
    of [drawPixel] writes no alpha at all. *)
Theorem drawPixel_keeps_alpha_for_alpha_zero :
  color_after (drawPixel 1%nat 0 0 [VNum 9; VNum 9; VNum 9; VNum 0]) 0 0 rgba_1x1
  = Some [VNum 9; VNum 9; VNum 9; VNum 255]
  /\ color_after (drawRect 1%nat 0 0 1 1 [VNum 9; VNum 9; VNum 9; VNum 0])
                 0 0 rgba_1x1
     = Some [VNum 9; VNum 9; VNum 9; VNum 0]
  /\ color_after (Flat.drawPixel 1%nat 0 0 [VNum 9; VNum 9; VNum 9; VNum 7])
                 0 0 rgba_1x1
     = Some [VNum 9; VNum 9; VNum 9; VNum 255].
Proof. repeat split; reflexivity. Qed.

(** *** drawCanvas and the source's alpha *)

(** C1. [drawCanvas] is to composite each source pixel over the
    destination pixel it lands on.  Blitting the opaque pixel
    [10, 20, 30, 255] of [two_strips] onto the destination pixel
    [4, 5, 6, 255] at offset (1, 0) must give [10, 20, 30, 255], as
    [blendColor] says; the call leaves [4, 5, 6, 255], because the source
    alpha handed to [mergeColors] is read at the destination's byte
    offset, where the source holds the alpha 0 of its second pixel.
    Likewise a fully opaque RGBA source drawn at (0, 0) on an RGB
    destination of the same size leaves [9, 12, 14] where the source has
    [40, 50, 60].  The flat iteration throws on its first pixel. *)
Theorem drawCanvas_reads_source_alpha_at_destination_offset :
  blendColor (4, 5, 6, 255) (10, 20, 30, 255) = (10, 20, 30, 255)
  /\ color_after (drawCanvas 1%nat 3%nat 1 0) 1 0 two_strips
     = Some [VNum 4; VNum 5; VNum 6; VNum 255]
  /\ color_after (drawCanvas 1%nat 3%nat 0 0) 1 0 rgb_under_rgba
     = Some [VNum 9; VNum 12; VNum 14]
  /\ Flat.drawCanvas 1%nat 3%nat 1 0 two_strips = Throw ReferenceError.
Proof. repeat split; reflexivity. Qed.

(** *** drawRect *)

Ltac zbool :=
  repeat match goal with
         | |- context [?a <=? ?b] => destruct (Z.leb_spec a b)
         | |- context [?a <? ?b] => destruct (Z.ltb_spec a b)
         | |- context [?a =? ?b] => destruct (Z.eqb_spec a b)
         end;
  cbn [andb orb negb]; try done; try lia.

(** One rectangle pixel writes the canvas's channel count of bytes from
    its offset on: the colour's R, G, B, then the alpha. *)
Lemma arr_get_rect_px c color b ij k :
  arr_get (rect_px c color (fst ij) (snd ij) b) k
  = if rect_touch c ij k then rect_val c color ij k else arr_get b k.
Proof.
  unfold rect_px, rect_touch, rect_val, covers, getChannelCount, RGB, RGBA,
    CHANNEL_ALPHA.
  set (p := bytePos_of c (fst ij) (snd ij)).
  destruct (hasAlphaChannel c);
    rewrite ?arr_get_set, arr_get_assignRGB; zbool.
Qed.

Lemma drawRect_arr_fold c x y w h color b :
  drawRect_arr c x y w h color b
  = fold_left (fun b ij => rect_px c color (fst ij) (snd ij) b)
              (rect_pixels x y w h) b.
Proof.
  unfold drawRect_arr, rect_pixels.
  apply (nested_fold (fun b i j => rect_px c color i j b)).
Qed.

Section RectInside.

Variables (c : Canvas) (x y w h : Z) (color : Color).
Hypothesis Hx : 0 <= x.
Hypothesis Hy : 0 <= y.
Hypothesis Hw : x + w <= width c.
Hypothesis Hh : y + h <= height c.

Lemma in_rect_on_canvas i j : in_rect x y w h i j -> on_canvas c i j.
Proof. unfold in_rect, on_canvas. lia. Qed.

(** A byte of a pixel on the canvas after the fill. *)
Lemma drawRect_arr_pixel_byte b px py d :
  on_canvas c px py -> 0 <= d < getChannelCount (hasAlphaChannel c) ->
  arr_get (drawRect_arr c x y w h color b) (bytePos_of c px py + d)
  = if in_rectb x y w h px py
    then (if d <? 3 then color_at color d else rect_alpha color)
    else arr_get b (bytePos_of c px py + d).
Proof.
  intros Hon Hd. rewrite drawRect_arr_fold.
  set (k := bytePos_of c px py + d).
  assert (Honly : forall ij, In ij (rect_pixels x y w h) ->
            rect_touch c ij k = true -> ij = (px, py)).
  { intros [i j] Hin Hcov. unfold rect_touch in Hcov. cbn [fst snd] in Hcov.
    apply in_rect_pixels, in_rect_on_canvas in Hin.
    unfold covers in Hcov. apply andb_true_iff in Hcov as [H1 H2].
    apply Z.leb_le in H1. apply Z.ltb_lt in H2.
    destruct (pixel_bytes_disjoint (width c) (hasAlphaChannel c)
                i j px py (k - bytePos_of c i j) d) as (-> & -> & _);
      try done; try (unfold on_canvas in *; lia).
    unfold k, bytePos_of. lia. }
  destruct (in_rectb x y w h px py) eqn:Hin.
  - apply (fold_touched_same _ (rect_touch c) (rect_val c color)
             (arr_get_rect_px c color)).
    + intros ij Hij Hcov. rewrite (Honly ij Hij Hcov).
      unfold rect_val. cbn [fst snd].
      by replace (k - bytePos_of c px py) with d by (unfold k; lia).
    + exists (px, py). split.
      * apply in_rect_pixels. unfold in_rectb in Hin. unfold in_rect.
        apply andb_true_iff in Hin as [Hin H4].
        apply andb_true_iff in Hin as [Hin H3].
        apply andb_true_iff in Hin as [H1 H2].
        apply Z.leb_le in H1, H3. apply Z.ltb_lt in H2, H4. lia.
      * unfold rect_touch, covers, k. cbn [fst snd]. zbool.
  - apply (fold_untouched _ (rect_touch c) (rect_val c color)
             (arr_get_rect_px c color)).
    intros ij Hij.
    destruct (rect_touch c ij k) eqn:Hcov; [|done].
    rewrite (Honly ij Hij Hcov) in Hij.
    apply in_rect_pixels in Hij. unfold in_rect in Hij.
    unfold in_rectb in Hin. revert Hin. zbool.
Qed.

(** Inside the bounds the fill does not grow the buffer. *)
Lemma drawRect_arr_length b :
  0 <= width c -> 0 <= height c ->
  arr_length b = byte_size c ->
  arr_length (drawRect_arr c x y w h color b) = byte_size c.
Proof.
  intros Hwc Hhc Hlen. rewrite drawRect_arr_fold.
  apply fold_length; [|done].
  intros b' [i j] Hin Hb'. cbn [fst snd].
  apply in_rect_pixels, in_rect_on_canvas in Hin.
  pose proof (pixel_bytes_inside c i j 0 Hin) as H0.
  pose proof (fun d => pixel_bytes_inside c i j d Hin) as Hd.
  unfold rect_px.
  assert (Hrgb : arr_length (assignRGB_arr b' (bytePos_of c i j) color)
                 = byte_size c).
  { rewrite arr_length_assignRGB_inside; [done| |].
    - specialize (Hd 0). destruct (getChannelCount_cases (hasAlphaChannel c)); lia.
    - specialize (Hd 2). destruct (getChannelCount_cases (hasAlphaChannel c)); lia. }
  destruct (hasAlphaChannel c) eqn:Halpha; [|done].
  rewrite arr_length_set_inside; [done|].
  specialize (Hd 3). unfold CHANNEL_ALPHA.
  rewrite Hrgb. unfold getChannelCount, RGBA in Hd. lia.
Qed.

End RectInside.

Lemma well_formed_check c a : well_formedb c a = true -> well_formed c a.
Proof.
  unfold well_formedb, well_formed. intros H.
  apply andb_true_iff in H as [H Hprops].
  apply andb_true_iff in H as [H Hnum].
  apply andb_true_iff in H as [H Hlen].
  apply andb_true_iff in H as [Hw Hh].
  apply Z.leb_le in Hw, Hh. apply Z.eqb_eq in Hlen.
  repeat split; try done.
  - intros k Hk. unfold arr_get, arr_length in *.
    destruct (Z.leb_spec 0 k); [|lia].
    destruct (lookup_lt_is_Some_2 (elems a) (Z.to_nat k)) as [v Hv]; [lia|].
    rewrite Hv. cbn.
    rewrite forallb_forall in Hnum.
    specialize (Hnum v). rewrite <- list_elem_of_In in Hnum.
    specialize (Hnum (list_elem_of_lookup_2 _ _ _ Hv)).
    destruct v; try done. by eexists.
  - intros k Hk. unfold arr_get.
    destruct (Z.leb_spec 0 k); [lia|].
    destruct (props a !! k) as [v|] eqn:Hv; [|done].
    rewrite forallb_forall in Hprops.
    specialize (Hprops (k, v)). rewrite <- list_elem_of_In in Hprops.
    apply elem_of_map_to_list in Hv. apply Hprops in Hv.
    apply Z.leb_le in Hv. cbn in Hv. lia.
Qed.

Lemma well_formed_size c a : well_formed c a -> 0 <= byte_size c.
Proof. intros (_ & _ & <- & _). apply arr_length_nonneg. Qed.

(** On a canvas with an alpha channel and for a colour that provides an
    alpha, the flat [drawRect] computes the buffer of the compositing
    one. *)
Lemma Flat_drawRect_arr_agrees c x y w h color b :
  hasAlphaChannel c = true -> isDefined (color_at color CHANNEL_ALPHA) = true ->
  Flat_arr.drawRect_arr c x y w h color b = drawRect_arr c x y w h color b.
Proof.
  intros Halpha Hdef. unfold Flat_arr.drawRect_arr, drawRect_arr.
  apply (nested_fold_agree (fun b i j => Flat_arr.rect_px c color i j b)
           (fun b i j => rect_px c color i j b)).
  intros b' i j. unfold Flat_arr.rect_px, rect_px, rect_alpha.
  by rewrite Halpha, Hdef.
Qed.

(** No rectangle pixel is skipped: whatever the canvas and the rectangle
    are, the bytes at the offset of a rectangle pixel hold the colour
    after the fill. *)
Lemma drawRect_arr_written c x y w h color b i j d :
  in_rect x y w h i j -> 0 <= d < getChannelCount (hasAlphaChannel c) ->
  arr_get (drawRect_arr c x y w h color b) (bytePos_of c i j + d)
  = if d <? 3 then color_at color d else rect_alpha color.
Proof.
  intros Hin Hd. rewrite drawRect_arr_fold.
  apply (fold_touched_same _ (rect_touch c) (rect_val c color)
           (arr_get_rect_px c color)).
  - intros [i' j'] _ Ht. unfold rect_touch, covers in Ht. unfold rect_val.
    cbn [fst snd] in *.
    apply andb_true_iff in Ht as [H1 H2].
    apply Z.leb_le in H1. apply Z.ltb_lt in H2.
    assert (Hsame : bytePos_of c i' j' = bytePos_of c i j).
    { unfold bytePos_of, coordinatesToBytePosition in *.
      set (ch := getChannelCount (hasAlphaChannel c)) in *.
      assert (j' * width c + i' = j * width c + i) by nia. congruence. }
    rewrite Hsame.
    by replace (bytePos_of c i j + d - bytePos_of c i j) with d by lia.
  - exists (i, j). split; [by apply in_rect_pixels|].
    unfold rect_touch, covers. cbn [fst snd].
    apply andb_true_iff. split; [apply Z.leb_le|apply Z.ltb_lt]; lia.
Qed.

(** C2, as the code has it.  [drawRect] checks no bounds: for any canvas
    and rectangle, every rectangle pixel [(i, j)], on the canvas or not,
    is written at byte offset [(j*width + i)*channels], where the
    returned buffer holds the colour's R, G, B and, on an alpha canvas,
    alpha [color[3]] if provided, else 255.  When the canvas is well
    formed and the rectangle [[x, x+width) x [y, y+height)] lies within
    the canvas bounds, the returned canvas has the same dimensions and
    buffer length, every pixel of the rectangle has that colour, and
    every other pixel of the canvas reads, through [getColor], as it did
    before the call.  The flat [drawRect] returns the same canvas in the
    same store, so that all of this holds of it, when the canvas has an
    alpha channel and the colour provides an alpha. *)
Theorem drawRect_writes_every_rectangle_pixel s l c a (x y w h : Z)
    (color : Color) :
  canvas_at s l c a -> 0 <= byte_size c ->
  exists l' s' c' a',
    drawRect l x y w h color s = Ok (l', s')
    /\ canvas_at s' l' c' a'
    /\ (width c', height c', hasAlphaChannel c')
       = (width c, height c, hasAlphaChannel c)
    /\ (hasAlphaChannel c = true ->
        isDefined (color_at color CHANNEL_ALPHA) = true ->
        Flat.drawRect l x y w h color s = Ok (l', s'))
    /\ (forall i j d, in_rect x y w h i j ->
          0 <= d < getChannelCount (hasAlphaChannel c) ->
          arr_get a' ((j * width c + i) * getChannelCount (hasAlphaChannel c) + d)
          = if d <? 3 then color_at color d else rect_alpha color)
    /\ (well_formed c a ->
        0 <= x -> 0 <= y -> x + w <= width c -> y + h <= height c ->
        arr_length a' = arr_length a
        /\ forall px py, on_canvas c px py ->
             exists before,
               getColor l px py s = Ok (before, s)
               /\ getColor l' px py s'
                  = Ok (if in_rectb x y w h px py then rect_color c color
                        else before, s')).
Proof.
  intros Hat Hsize.
  eexists _, _, _, _.
  split; [by apply drawRect_run|].
  split; [apply working_canvas_at|].
  split; [done|].
  split; [|split].
  { intros Halpha Hdef. rewrite (Flat_drawRect_run _ _ _ _ Hat Hsize).
    by rewrite Flat_drawRect_arr_agrees. }
  { intros i j d Hin Hd. by apply (drawRect_arr_written c x y w h color). }
  intros Hwf Hx Hy Hw Hh.
  destruct Hwf as (Hwc & Hhc & Hlen & _).
  split; [rewrite Hlen; by apply drawRect_arr_length|].
  intros px py Hon. exists (getColor_arr c a px py).
  split; [by apply getColor_run|].
  erewrite getColor_run by apply working_canvas_at.
  f_equal. f_equal.
  unfold getColor_arr, rect_color, bytePos_of.
  cbn [width height hasAlphaChannel]. fold (bytePos_of c px py).
  assert (Hbyte : forall d, 0 <= d < getChannelCount (hasAlphaChannel c) ->
            arr_get (drawRect_arr c x y w h color (spread a))
                    (bytePos_of c px py + d)
            = if in_rectb x y w h px py
              then (if d <? 3 then color_at color d else rect_alpha color)
              else arr_get a (bytePos_of c px py + d)).
  { intros d Hd. rewrite drawRect_arr_pixel_byte by done.
    rewrite arr_get_spread.
    pose proof (pixel_bytes_inside c px py d Hon Hd).
    destruct (Z.leb_spec 0 (bytePos_of c px py + d)); [done|lia]. }
  pose proof (getChannelCount_cases (hasAlphaChannel c)) as Hch.
  rewrite (Hbyte CHANNEL_RED), (Hbyte CHANNEL_GREEN), (Hbyte CHANNEL_BLUE)
    by (unfold CHANNEL_RED, CHANNEL_GREEN, CHANNEL_BLUE; lia).
  destruct (hasAlphaChannel c) eqn:Halpha.
  - rewrite (Hbyte CHANNEL_ALPHA)
      by (unfold CHANNEL_ALPHA, getChannelCount, RGBA; lia).
    by destruct (in_rectb x y w h px py).
  - by destruct (in_rectb x y w h px py).
Qed.

Lemma rgba_2x2_well_formed :
  well_formed (mkCanvas 2 2 true 0%nat)
    (arr_of_bytes [1; 1; 1; 255; 2; 2; 2; 255; 3; 3; 3; 255; 4; 4; 4; 255]).
Proof. apply well_formed_check. reflexivity. Qed.

Lemma drawRect_writes_every_rectangle_pixel_witness :
  exists l' s' c' a',
    drawRect 1%nat 1 0 1 2 [VNum 9; VNum 8; VNum 7; VNum 6] rgba_2x2 = Ok (l', s')
    /\ canvas_at s' l' c' a'
    /\ (width c', height c', hasAlphaChannel c') = (2, 2, true)
    /\ Flat.drawRect 1%nat 1 0 1 2 [VNum 9; VNum 8; VNum 7; VNum 6] rgba_2x2
       = Ok (l', s')
    /\ arr_get a' ((1 * 2 + 1) * 4 + 3) = VNum 6
    /\ arr_length a' = 16
    /\ forall px py, on_canvas (mkCanvas 2 2 true 0%nat) px py ->
         exists before,
           getColor 1%nat px py rgba_2x2 = Ok (before, rgba_2x2)
           /\ getColor l' px py s'
              = Ok (if in_rectb 1 0 1 2 px py
                    then [VNum 9; VNum 8; VNum 7; VNum 6]
                    else before, s').
Proof.
  assert (Hsize : 0 <= byte_size (mkCanvas 2 2 true 0%nat))
    by (vm_compute; discriminate).
  destruct (drawRect_writes_every_rectangle_pixel rgba_2x2 1%nat _ _ 1 0 1 2
              [VNum 9; VNum 8; VNum 7; VNum 6] rgba_2x2_canvas_at Hsize)
    as (l' & s' & c' & a' & Hrun & Hat & Hdim & Hflat & Hwritten & Hinside).
  exists l', s', c', a'.
  split; [exact Hrun|]. split; [exact Hat|]. split; [exact Hdim|].
  split; [exact (Hflat eq_refl eq_refl)|].
  split.
  { apply (Hwritten 1 1 3);
      [unfold in_rect; lia|unfold getChannelCount, RGBA; cbn; lia]. }
  apply (Hinside rgba_2x2_well_formed); cbn; lia.
Defined.

(** In the flat iteration the fourth assignment target is written on an
    RGB canvas too: filling pixel (0, 0) of the 2x1 RGB canvas puts the
    colour's alpha into the red byte of pixel (1, 0). *)
Example Flat_drawRect_spills_on_rgb :
  bytes_after (Flat.drawRect 1%nat 0 0 1 1 [VNum 9; VNum 8; VNum 7; VNum 6])
              rgb_2x1
  = Some (VNum <$> [9; 8; 7;   6; 2; 2])
  /\ bytes_after (drawRect 1%nat 0 0 1 1 [VNum 9; VNum 8; VNum 7; VNum 6])
                 rgb_2x1
     = Some (VNum <$> [9; 8; 7;   2; 2; 2]).
Proof. split; reflexivity. Qed.

(** C2, as stated, fails.  The 1x2 rectangle at (2, 0) lies outside the
    2x2 canvas.  Its pixel (2, 0) is not skipped: it is written at byte
    offset 8, which is pixel (0, 1), a pixel outside the rectangle whose
    colour changes from [3, 3, 3, 255] to the fill colour.  Its pixel
    (2, 1) is written at offset 16, past the 16 bytes of the buffer, which
    grows to 20. *)
Lemma drawRect_writes_rectangle_pixels_outside_bounds :
  ~ on_canvas (mkCanvas 2 2 true 0%nat) 2 0
  /\ ~ in_rect 2 0 1 2 0 1
  /\ returned (getColor 1%nat 0 1 rgba_2x2)
     = Some [VNum 3; VNum 3; VNum 3; VNum 255]
  /\ color_after (drawRect 1%nat 2 0 1 2 [VNum 9; VNum 8; VNum 7; VNum 6])
                 0 1 rgba_2x2
     = Some [VNum 9; VNum 8; VNum 7; VNum 6]
  /\ color_after (drawRect 1%nat 2 0 1 2 [VNum 9; VNum 8; VNum 7; VNum 6])
                 0 1 rgba_2x2
     <> returned (getColor 1%nat 0 1 rgba_2x2)
  /\ bytes_after (drawRect 1%nat 2 0 1 2 [VNum 9; VNum 8; VNum 7; VNum 6])
                 rgba_2x2
     = Some (VNum <$> [ 1; 1; 1; 255;   2; 2; 2; 255;
                        9; 8; 7; 6;     4; 4; 4; 255;
                        9; 8; 7; 6 ]).
Proof.
  split; [unfold on_canvas; cbn; lia|].
  split; [unfold in_rect; lia|].
  split; [reflexivity|]. split; [reflexivity|].
  split; [discriminate|reflexivity].
Qed.

(** *** replaceColor *)

Lemma strict_eq_eq u v : strict_eq u v = true -> u = v.
Proof.
  destruct u, v; cbn; try done. intros H. apply Z.eqb_eq in H. by subst.
Qed.

Lemma strict_eq_number v : is_number v -> strict_eq v v = true.
Proof. intros [n ->]. cbn. apply Z.eqb_refl. Qed.

Lemma isEqualColor_components c1 c2 :
  isEqualColor c1 c2 = true ->
  forall d, 0 <= d < 3 -> color_at c1 d = color_at c2 d.
Proof.
  unfold isEqualColor, CHANNEL_RED, CHANNEL_GREEN, CHANNEL_BLUE. intros H.
  apply andb_true_iff in H as [H Hb]. apply andb_true_iff in H as [Hr Hg].
  apply strict_eq_eq in Hr, Hg, Hb. intros d Hd.
  assert (d = 0 \/ d = 1 \/ d = 2) as [->|[->| ->]] by lia; done.
Qed.

(** [isEqualColor] looks at R, G, B only. *)
Lemma isEqualColor_ext c1 c1' c2 :
  (forall d, 0 <= d < 3 -> color_at c1 d = color_at c1' d) ->
  isEqualColor c1 c2 = isEqualColor c1' c2.
Proof.
  intros H. unfold isEqualColor, CHANNEL_RED, CHANNEL_GREEN, CHANNEL_BLUE.
  by rewrite (H 0), (H 1), (H 2) by lia.
Qed.

Lemma isEqualColor_refl color : is_color color -> isEqualColor color color = true.
Proof.
  intros (Hr & Hg & Hb). unfold isEqualColor.
  by rewrite !strict_eq_number.
Qed.

Lemma color_at_getColor_arr c a x y d :
  0 <= d < 3 ->
  color_at (getColor_arr c a x y) d = arr_get a (bytePos_of c x y + d).
Proof.
  intros Hd. unfold getColor_arr, CHANNEL_RED, CHANNEL_GREEN, CHANNEL_BLUE.
  assert (d = 0 \/ d = 1 \/ d = 2) as [->|[->| ->]] by lia; reflexivity.
Qed.

Lemma arr_get_replace_px c a replacee replacer b px k :
  arr_get (replace_px c a replacee replacer b px) k
  = if replace_touch c a replacee px k then replace_val replacer px k
    else arr_get b k.
Proof.
  destruct px as [[x y] p]. unfold replace_px, replace_touch, replace_val, covers.
  destruct (isEqualColor _ _); cbn [andb]; [|done].
  apply arr_get_assignRGB.
Qed.

(** After [replaceColor], the R, G, B of a pixel on the canvas are the
    replacer's where the pixel had the replacee's colour, and what the
    clone held elsewhere; no other byte of the pixel changes. *)
Lemma replaceColor_arr_pixel_byte c a replacee replacer b px py d :
  on_canvas c px py -> 0 <= d < getChannelCount (hasAlphaChannel c) ->
  arr_get (replaceColor_arr c a replacee replacer b) (bytePos_of c px py + d)
  = if isEqualColor (getColor_arr c a px py) replacee && (d <? 3)
    then color_at replacer d
    else arr_get b (bytePos_of c px py + d).
Proof.
  intros Hon Hd. unfold replaceColor_arr.
  set (k := bytePos_of c px py + d).
  set (l := pixels (width c) (height c) (hasAlphaChannel c)).
  pose proof (getChannelCount_cases (hasAlphaChannel c)) as Hch.
  assert (Honly : forall e, In e l -> replace_touch c a replacee e k = true ->
            e = (px, py, bytePos_of c px py) /\ d < 3).
  { intros [[x y] p] Hin Ht. apply in_pixels in Hin as (Hx & Hy & ->).
    unfold replace_touch, covers in Ht.
    apply andb_true_iff in Ht as [_ Ht]. apply andb_true_iff in Ht as [H1 H2].
    apply Z.leb_le in H1. apply Z.ltb_lt in H2.
    destruct (pixel_bytes_disjoint (width c) (hasAlphaChannel c) x y px py
                (k - coordinatesToBytePosition (width c) (hasAlphaChannel c) x y)
                d) as (-> & -> & Hdd);
      try done; try (unfold on_canvas in *; lia).
    - unfold k, bytePos_of. lia.
    - split; [done|]. lia. }
  destruct (isEqualColor (getColor_arr c a px py) replacee && (d <? 3)) eqn:Heq.
  - apply andb_true_iff in Heq as [Heq Hd3]. apply Z.ltb_lt in Hd3.
    apply (fold_touched_same _ (replace_touch c a replacee)
             (replace_val replacer) (arr_get_replace_px c a replacee replacer)).
    + intros e Hin Ht. destruct (Honly e Hin Ht) as [-> _].
      unfold replace_val. f_equal. unfold k. lia.
    + exists (px, py, bytePos_of c px py). split.
      * apply in_pixels. destruct Hon as [Hpx Hpy].
        split; [lia|]. split; [lia|reflexivity].
      * unfold replace_touch, covers, k. rewrite Heq. zbool.
  - apply (fold_untouched _ (replace_touch c a replacee)
             (replace_val replacer) (arr_get_replace_px c a replacee replacer)).
    intros e Hin. destruct (replace_touch c a replacee e k) eqn:Ht; [|done].
    destruct (Honly e Hin Ht) as [-> Hd3].
    unfold replace_touch in Ht. apply andb_true_iff in Ht as [Ht _].
    rewrite Ht in Heq. cbn [andb] in Heq. apply Z.ltb_ge in Heq. lia.
Qed.

Section ReplaceRoundTrip.

Variables (c : Canvas) (a : JsArray) (X B Y : Color).
Hypothesis Hwf : well_formed c a.
Hypothesis Honly : forall px py, on_canvas c px py ->
  isEqualColor (getColor_arr c a px py) X = true
  \/ isEqualColor (getColor_arr c a px py) B = true.
Hypothesis HBX : isEqualColor B X = false.
Hypothesis HBY : isEqualColor B Y = false.
Hypothesis HY : is_color Y.

Let a1 := replaceColor_arr c a X Y (spread a).
Let a2 := replaceColor_arr c a1 Y X (spread a1).

Lemma pixel_is_color px py : on_canvas c px py -> is_color (getColor_arr c a px py).
Proof.
  intros Hon. destruct Hwf as (_ & _ & Hlen & Hnum & _).
  pose proof (getChannelCount_cases (hasAlphaChannel c)) as Hch.
  unfold is_color, CHANNEL_RED, CHANNEL_GREEN, CHANNEL_BLUE.
  rewrite !color_at_getColor_arr by lia.
  repeat split; apply Hnum; rewrite Hlen; apply pixel_bytes_inside; done || lia.
Qed.

Lemma spread_pixel_byte b px py d :
  on_canvas c px py -> 0 <= d < getChannelCount (hasAlphaChannel c) ->
  arr_get (spread b) (bytePos_of c px py + d) = arr_get b (bytePos_of c px py + d).
Proof.
  intros Hon Hd. rewrite arr_get_spread.
  pose proof (pixel_bytes_inside c px py d Hon Hd).
  destruct (Z.leb_spec 0 (bytePos_of c px py + d)); [done|lia].
Qed.

(** R, G, B of a pixel after the first replacement. *)
Lemma first_pass_byte px py d :
  on_canvas c px py -> 0 <= d < 3 ->
  arr_get a1 (bytePos_of c px py + d)
  = if isEqualColor (getColor_arr c a px py) X then color_at Y d
    else arr_get a (bytePos_of c px py + d).
Proof.
  intros Hon Hd. unfold a1.
  pose proof (getChannelCount_cases (hasAlphaChannel c)) as Hch.
  rewrite replaceColor_arr_pixel_byte by (done || lia).
  rewrite spread_pixel_byte by (done || lia).
  destruct (Z.ltb_spec d 3); [|lia]. by rewrite andb_true_r.
Qed.

(** The second replacement finds exactly the pixels the first one
    changed. *)
Lemma second_pass_matches px py :
  on_canvas c px py ->
  isEqualColor (getColor_arr c a1 px py) Y
  = isEqualColor (getColor_arr c a px py) X.
Proof.
  intros Hon.
  destruct (isEqualColor (getColor_arr c a px py) X) eqn:HX.
  - rewrite (isEqualColor_ext _ Y); [by apply isEqualColor_refl|].
    intros d Hd. rewrite color_at_getColor_arr, first_pass_byte by done.
    by rewrite HX.
  - destruct (Honly px py Hon) as [HX'|HB]; [congruence|].
    rewrite (isEqualColor_ext _ B); [done|].
    intros d Hd. rewrite color_at_getColor_arr, first_pass_byte by done.
    rewrite HX, <- color_at_getColor_arr by done.
    by apply isEqualColor_components.
Qed.

Lemma round_trip_byte px py d :
  on_canvas c px py -> 0 <= d < 3 ->
  arr_get a2 (bytePos_of c px py + d) = arr_get a (bytePos_of c px py + d).
Proof.
  intros Hon Hd. unfold a2.
  pose proof (getChannelCount_cases (hasAlphaChannel c)) as Hch.
  rewrite replaceColor_arr_pixel_byte by (done || lia).
  rewrite spread_pixel_byte by (done || lia).
  rewrite second_pass_matches, first_pass_byte by done.
  destruct (Z.ltb_spec d 3); [|lia]. rewrite andb_true_r.
  destruct (isEqualColor (getColor_arr c a px py) X) eqn:HX; [|done].
  rewrite <- color_at_getColor_arr by done.
  symmetry. by apply isEqualColor_components.
Qed.

Lemma round_trip_color_equal px py :
  on_canvas c px py ->
  isEqualColor (getColor_arr c a2 px py) (getColor_arr c a px py) = true.
Proof.
  intros Hon.
  rewrite (isEqualColor_ext _ (getColor_arr c a px py)).
  - by apply isEqualColor_refl, pixel_is_color.
  - intros d Hd. rewrite !color_at_getColor_arr by done.
    by apply round_trip_byte.
Qed.

End ReplaceRoundTrip.

(** C7, for a replacement colour that is not the background's.  On a
    canvas whose pixels all have the colour [X] or a background colour
    [B] that differs from [X] in R, G, B, and for a colour [Y] that also
    differs from [B], [replaceColor(replaceColor(canvas, X, Y), Y, X)]
    returns a canvas that is colour-equal, pixel by pixel, to the
    original. *)
Theorem replaceColor_round_trip s l c a (X B Y : Color) :
  canvas_at s l c a -> well_formed c a ->
  (forall px py, on_canvas c px py ->
     exists color, getColor l px py s = Ok (color, s)
       /\ (isEqualColor color X = true \/ isEqualColor color B = true)) ->
  isEqualColor B X = false ->
  isEqualColor B Y = false ->
  is_color Y ->
  exists l2 s2,
    (l1 <- replaceColor l X Y ;; replaceColor l1 Y X) s = Ok (l2, s2)
    /\ forall px py, on_canvas c px py ->
         exists before after,
           getColor l px py s = Ok (before, s)
           /\ getColor l2 px py s2 = Ok (after, s2)
           /\ isEqualColor after before = true.
Proof.
  intros Hat Hwf Honly HBX HBY HY.
  pose proof (well_formed_size c a Hwf) as Hsize.
  assert (Honly' : forall px py, on_canvas c px py ->
            isEqualColor (getColor_arr c a px py) X = true
            \/ isEqualColor (getColor_arr c a px py) B = true).
  { intros px py Hon. destruct (Honly px py Hon) as [color [Hget Hcol]].
    rewrite (getColor_run _ _ _ _ _ _ Hat) in Hget.
    inversion Hget as [Hcolor]. by rewrite Hcolor. }
  set (a1 := replaceColor_arr c a X Y (spread a)).
  set (c1 := mkCanvas (width c) (height c) (hasAlphaChannel c)
                      (S (S (length s)))).
  assert (Hat1 : canvas_at (working s c a1) (S (length s)) c1 a1)
    by apply working_canvas_at.
  eexists _, _. split.
  - rewrite (bind_Ok _ _ _ _ _ (replaceColor_run _ _ _ _ Hat Hsize X Y)).
    fold a1. by apply (replaceColor_run _ _ _ _ Hat1).
  - intros px py Hon.
    exists (getColor_arr c a px py).
    eexists. split; [by apply getColor_run|].
    split; [apply getColor_run, working_canvas_at|].
    by apply (round_trip_color_equal c a X B Y).
Qed.

Lemma rgb_2x1_canvas_at :
  canvas_at rgb_2x1 1%nat (mkCanvas 2 1 false 0%nat)
    (arr_of_bytes [1; 1; 1; 2; 2; 2]).
Proof. split; reflexivity. Qed.

Lemma replaceColor_round_trip_witness :
  exists l2 s2,
    (l1 <- replaceColor 1%nat [VNum 1; VNum 1; VNum 1] [VNum 7; VNum 7; VNum 7] ;;
     replaceColor l1 [VNum 7; VNum 7; VNum 7] [VNum 1; VNum 1; VNum 1]) rgb_2x1
    = Ok (l2, s2)
    /\ forall px py, on_canvas (mkCanvas 2 1 false 0%nat) px py ->
         exists before after,
           getColor 1%nat px py rgb_2x1 = Ok (before, rgb_2x1)
           /\ getColor l2 px py s2 = Ok (after, s2)
           /\ isEqualColor after before = true.
Proof.
  apply (replaceColor_round_trip rgb_2x1 1%nat _ _
           [VNum 1; VNum 1; VNum 1] [VNum 2; VNum 2; VNum 2]
           [VNum 7; VNum 7; VNum 7] rgb_2x1_canvas_at).
  - apply well_formed_check. reflexivity.
  - intros px py [Hx Hy]. cbn in Hx, Hy.
    assert (py = 0) as -> by lia.
    assert (px = 0 \/ px = 1) as [-> | ->] by lia.
    + eexists. split; [reflexivity|]. left. reflexivity.
    + eexists. split; [reflexivity|]. right. reflexivity.
  - reflexivity.
  - reflexivity.
  - repeat split; by eexists.
Defined.

(** C7, as stated, fails when [Y] is the background colour.  On the 2x1
    canvas with pixels [1, 1, 1] and [2, 2, 2], replacing [1, 1, 1] by
    [2, 2, 2] and then [2, 2, 2] by [1, 1, 1] turns the background pixel
    into [1, 1, 1], which is not colour-equal to [2, 2, 2]. *)
Lemma replaceColor_round_trip_loses_background :
  returned (getColor 1%nat 1 0 rgb_2x1) = Some [VNum 2; VNum 2; VNum 2]
  /\ isEqualColor [VNum 2; VNum 2; VNum 2] [VNum 1; VNum 1; VNum 1] = false
  /\ color_after
       (l1 <- replaceColor 1%nat [VNum 1; VNum 1; VNum 1] [VNum 2; VNum 2; VNum 2] ;;
        replaceColor l1 [VNum 2; VNum 2; VNum 2] [VNum 1; VNum 1; VNum 1])
       1 0 rgb_2x1
     = Some [VNum 1; VNum 1; VNum 1]
  /\ isEqualColor [VNum 1; VNum 1; VNum 1] [VNum 2; VNum 2; VNum 2] = false.
Proof. repeat split; reflexivity. Qed.

(** *** drawCanvas: clipping *)

Lemma find_agree {A} (f g : A -> bool) (l : list A) :
  (forall x, f x = g x) -> find f l = find g l.
Proof.
  intros Hfg. induction l as [|x l IH]; [done|].
  cbn [find]. by rewrite Hfg, IH.
Qed.

Lemma arr_get_blit_px dc da sc sa offsetX offsetY b px k :
  arr_get (blit_px dc da sc sa offsetX offsetY b px) k
  = if blit_touch dc da sc offsetX offsetY px k
    then blit_val dc da sc sa offsetX offsetY px k
    else arr_get b k.
Proof.
  destruct px as [[x y] p]. unfold blit_px, blit_touch, blit_val, covers.
  set (q := bytePos_of dc (x + offsetX) (y + offsetY)).
  destruct (is_undefined (arr_get da q)); cbn [negb andb]; [done|].
  unfold CHANNEL_ALPHA.
  destruct (hasAlphaChannel dc && hasAlphaChannel sc);
    rewrite ?arr_get_set, arr_get_assignRGB; zbool.
Qed.

Section Clip.

Variables (dc : Canvas) (da : JsArray).
Hypothesis Hwf : well_formed dc da.

(** On a well-formed destination the probe [typeof data[q] ===
    'undefined'] tells whether [q] is outside the buffer. *)
Lemma probe_inside q :
  is_undefined (arr_get da q) = false <-> 0 <= q < arr_length da.
Proof.
  destruct Hwf as (_ & _ & _ & Hnum & Hneg). split.
  - intros Hdef.
    destruct (Z.lt_ge_cases q 0) as [Hq|Hq]; [by rewrite Hneg in Hdef|].
    destruct (Z.lt_ge_cases q (arr_length da)) as [Hq'|Hq']; [lia|].
    by rewrite arr_get_outside in Hdef.
  - intros Hq. by destruct (Hnum q Hq) as [n ->].
Qed.

(** A pixel offset inside the buffer has its whole pixel inside. *)
Lemma offset_inside x y :
  0 <= bytePos_of dc x y < arr_length da ->
  bytePos_of dc x y + getChannelCount (hasAlphaChannel dc) <= arr_length da.
Proof.
  destruct Hwf as (Hw & Hh & -> & _).
  unfold bytePos_of, coordinatesToBytePosition, byte_size.
  pose proof (getChannelCount_pos (hasAlphaChannel dc)) as Hch.
  set (ch := getChannelCount (hasAlphaChannel dc)) in *.
  intros Hq. assert (y * width dc + x < width dc * height dc) by nia. nia.
Qed.

(** Two pixel offsets of which one covers a byte of the other are the
    same offset. *)
Lemma offsets_aligned x y x' y' n k :
  0 <= n <= getChannelCount (hasAlphaChannel dc) ->
  covers (bytePos_of dc x y) n k = true ->
  bytePos_of dc x' y' <= k < bytePos_of dc x' y' + getChannelCount (hasAlphaChannel dc) ->
  bytePos_of dc x y = bytePos_of dc x' y'.
Proof.
  unfold covers, bytePos_of, coordinatesToBytePosition.
  pose proof (getChannelCount_pos (hasAlphaChannel dc)) as Hch.
  set (ch := getChannelCount (hasAlphaChannel dc)) in *.
  intros Hn Hcov Hk. apply andb_true_iff in Hcov as [H1 H2].
  apply Z.leb_le in H1. apply Z.ltb_lt in H2.
  assert (y * width dc + x = y' * width dc + x') by nia. congruence.
Qed.

Variables (sc : Canvas) (sa : JsArray) (offsetX offsetY : Z).

(** The number of bytes a blitted pixel writes fits the destination's
    pixel. *)
Lemma blit_bytes_fit :
  0 <= (if hasAlphaChannel dc && hasAlphaChannel sc then 4 else 3)
    <= getChannelCount (hasAlphaChannel dc).
Proof.
  unfold getChannelCount, RGBA, RGB.
  destruct (hasAlphaChannel dc), (hasAlphaChannel sc); cbn [andb]; lia.
Qed.

Lemma blit_touch_inside px k :
  blit_touch dc da sc offsetX offsetY px k = true ->
  let q := bytePos_of dc (fst (fst px) + offsetX) (snd (fst px) + offsetY) in
  0 <= q < arr_length da
  /\ q <= k < q + getChannelCount (hasAlphaChannel dc).
Proof.
  destruct px as [[x y] p]. unfold blit_touch. cbn [fst snd]. intros Ht.
  apply andb_true_iff in Ht as [Hdef Hcov].
  apply negb_true_iff, probe_inside in Hdef.
  unfold covers in Hcov. apply andb_true_iff in Hcov as [H1 H2].
  apply Z.leb_le in H1. apply Z.ltb_lt in H2.
  pose proof blit_bytes_fit as Hfit. cbn zeta.
  remember (if hasAlphaChannel dc && hasAlphaChannel sc then 4 else 3) as n.
  lia.
Qed.

(** No step of the blit changes the length of the buffer. *)
Lemma blit_px_length b px :
  arr_length b = arr_length da ->
  arr_length (blit_px dc da sc sa offsetX offsetY b px) = arr_length da.
Proof.
  intros Hb. destruct px as [[x y] p]. unfold blit_px.
  set (q := bytePos_of dc (x + offsetX) (y + offsetY)).
  destruct (is_undefined (arr_get da q)) eqn:Hprobe; [done|].
  apply probe_inside in Hprobe.
  pose proof (offset_inside _ _ Hprobe) as Hfit. fold q in Hfit.
  pose proof (getChannelCount_cases (hasAlphaChannel dc)) as Hch.
  assert (Hrgb : arr_length (assignRGB_arr b q
                   (mergeColors (dest_color dc da q) (src_color sc sa p q)))
                 = arr_length da)
    by (rewrite arr_length_assignRGB_inside; lia).
  destruct (hasAlphaChannel dc) eqn:Hd; cbn [andb]; [|done].
  destruct (hasAlphaChannel sc); [|done].
  rewrite arr_length_set_inside; [done|].
  unfold getChannelCount, RGBA, CHANNEL_ALPHA in *. lia.
Qed.

Lemma drawCanvas_arr_length b :
  arr_length b = arr_length da ->
  arr_length (drawCanvas_arr dc da sc sa offsetX offsetY b) = arr_length da.
Proof.
  intros Hb. unfold drawCanvas_arr. apply fold_length; [|done].
  intros b' e _. apply blit_px_length.
Qed.

(** A byte that no source pixel landing inside the buffer covers is left
    as it was. *)
Lemma drawCanvas_arr_untouched b k :
  (forall x y, on_canvas sc x y ->
     let q := bytePos_of dc (x + offsetX) (y + offsetY) in
     0 <= q < arr_length da ->
     ~ (q <= k < q + getChannelCount (hasAlphaChannel dc))) ->
  arr_get (drawCanvas_arr dc da sc sa offsetX offsetY b) k = arr_get b k.
Proof.
  intros Hfree. unfold drawCanvas_arr.
  apply (fold_untouched _ (blit_touch dc da sc offsetX offsetY)
           (blit_val dc da sc sa offsetX offsetY)
           (arr_get_blit_px dc da sc sa offsetX offsetY)).
  intros [[x y] p] Hin.
  destruct (blit_touch dc da sc offsetX offsetY (x, y, p) k) eqn:Ht; [|done].
  apply blit_touch_inside in Ht as [Hq Hk]. cbn [fst snd] in Hq, Hk.
  apply in_pixels in Hin as (Hx & Hy & _).
  by destruct (Hfree x y (conj Hx Hy) Hq).
Qed.

(** A source pixel that lands inside the buffer is drawn: the R, G, B at
    its offset are the merge of the destination pixel with a source pixel
    landing there (the last one, should several land on one offset). *)
Lemma drawCanvas_arr_drawn b x y :
  on_canvas sc x y ->
  let q := bytePos_of dc (x + offsetX) (y + offsetY) in
  0 <= q < arr_length da ->
  exists x' y',
    on_canvas sc x' y'
    /\ bytePos_of dc (x' + offsetX) (y' + offsetY) = q
    /\ forall i, 0 <= i < 3 ->
         arr_get (drawCanvas_arr dc da sc sa offsetX offsetY b) (q + i)
         = color_at (mergeColors (dest_color dc da q)
                                 (src_color sc sa (bytePos_of sc x' y') q)) i.
Proof.
  intros Hon q Hq. unfold drawCanvas_arr.
  set (l := pixels (width sc) (height sc) (hasAlphaChannel sc)).
  set (touch := blit_touch dc da sc offsetX offsetY).
  pose proof blit_bytes_fit as Hfit.
  pose proof (getChannelCount_cases (hasAlphaChannel dc)) as Hch.
  assert (Hn : 3 <= (if hasAlphaChannel dc && hasAlphaChannel sc then 4 else 3))
    by (destruct (hasAlphaChannel dc && hasAlphaChannel sc); lia).
  assert (Hsame : forall e i, 0 <= i < 3 -> touch e (q + i) = touch e q).
  { intros [[x1 y1] p1] i Hi. unfold touch, blit_touch.
    set (q1 := bytePos_of dc (x1 + offsetX) (y1 + offsetY)).
    destruct (is_undefined (arr_get da q1)); cbn [negb andb]; [done|].
    destruct (covers q1 _ (q + i)) eqn:H1, (covers q1 _ q) eqn:H2; try done.
    - assert (q1 = q) as Heq
        by (eapply (offsets_aligned _ _ _ _ _ (q + i)); [exact Hfit|exact H1|];
            fold q; lia).
      unfold covers in H2. rewrite Heq in H2. revert H2. zbool.
    - assert (q1 = q) as Heq
        by (eapply (offsets_aligned _ _ _ _ _ q); [exact Hfit|exact H2|];
            fold q; lia).
      unfold covers in H1. rewrite Heq in H1. revert H1. zbool. }
  destruct (find (fun e => touch e q) (rev l)) as [[[x' y'] p']|] eqn:Hfind.
  - pose proof Hfind as Hlast.
    apply find_some in Hfind as [Hin Ht].
    apply in_rev, in_pixels in Hin as (Hx' & Hy' & Hp').
    assert (Hq' : bytePos_of dc (x' + offsetX) (y' + offsetY) = q).
    { unfold touch, blit_touch in Ht. apply andb_true_iff in Ht as [_ Hcov].
      eapply (offsets_aligned _ _ _ _ _ q); [exact Hfit|exact Hcov|].
      fold q. lia. }
    exists x', y'. split; [done|]. split; [done|].
    intros i Hi.
    rewrite (fold_last _ touch (blit_val dc da sc sa offsetX offsetY)
               (arr_get_blit_px dc da sc sa offsetX offsetY)).
    rewrite (find_agree _ (fun e => touch e q)) by (intros e; by apply Hsame).
    rewrite Hlast. unfold blit_val. rewrite Hq', Hp'.
    replace (q + i - q) with i by lia.
    destruct (Z.ltb_spec i 3); [done|lia].
  - exfalso.
    assert (Hin : In (x, y, bytePos_of sc x y) (rev l)).
    { apply -> in_rev. apply in_pixels.
      destruct Hon. split; [lia|]. split; [lia|reflexivity]. }
    pose proof (find_none _ _ Hfind _ Hin) as Hnone. cbn beta in Hnone.
    unfold touch, blit_touch in Hnone. fold q in Hnone.
    apply (proj2 (probe_inside q)) in Hq. rewrite Hq in Hnone.
    cbn [negb andb] in Hnone. unfold covers in Hnone. revert Hnone. zbool.
Qed.

End Clip.

(** C9. [drawCanvas] clips without an error.  On a well-formed
    destination and for any source and offsets, the call returns; the
    returned buffer has the destination's length and holds nothing
    outside it (no write fell outside the buffer); a byte that is not in
    the destination pixel of a source pixel landing inside the buffer is
    what it was in the destination (a source pixel whose destination
    offset falls outside the buffer writes nothing); and every source
    pixel whose destination offset is inside the buffer is drawn: the
    R, G, B at that offset are [mergeColors] of the destination pixel and
    a source pixel landing there. *)
Theorem drawCanvas_clips s d dc da src sc sa (offsetX offsetY : Z) :
  canvas_at s d dc da -> well_formed dc da -> canvas_at s src sc sa ->
  exists l' s' c' a',
    drawCanvas d src offsetX offsetY s = Ok (l', s')
    /\ canvas_at s' l' c' a'
    /\ (width c', height c', hasAlphaChannel c')
       = (width dc, height dc, hasAlphaChannel dc)
    /\ arr_length a' = arr_length da
    /\ (forall k, k < 0 \/ arr_length da <= k -> arr_get a' k = VUndef)
    /\ (forall k, 0 <= k ->
          (forall x y, on_canvas sc x y ->
             let q := bytePos_of dc (x + offsetX) (y + offsetY) in
             0 <= q < arr_length da ->
             ~ (q <= k < q + getChannelCount (hasAlphaChannel dc))) ->
          arr_get a' k = arr_get da k)
    /\ (forall x y, on_canvas sc x y ->
          let q := bytePos_of dc (x + offsetX) (y + offsetY) in
          0 <= q < arr_length da ->
          exists x' y',
            on_canvas sc x' y'
            /\ bytePos_of dc (x' + offsetX) (y' + offsetY) = q
            /\ forall i, 0 <= i < 3 ->
                 arr_get a' (q + i)
                 = color_at (mergeColors (dest_color dc da q)
                               (src_color sc sa (bytePos_of sc x' y') q)) i).
Proof.
  intros Hat Hwf Hsrc.
  pose proof (well_formed_size dc da Hwf) as Hsize.
  pose proof (getChannelCount_pos (hasAlphaChannel dc)) as Hch.
  eexists _, _, _, _.
  split; [by eapply drawCanvas_run|].
  split; [apply working_canvas_at|].
  split; [done|].
  assert (Hlen : arr_length (drawCanvas_arr dc da sc sa offsetX offsetY (spread da))
                 = arr_length da)
    by (by apply drawCanvas_arr_length).
  split; [done|].
  split; [|split].
  - intros k [Hk|Hk].
    + rewrite drawCanvas_arr_untouched; [|done|].
      * rewrite arr_get_spread. destruct (Z.leb_spec 0 k); [lia|done].
      * intros x y _ q Hq. lia.
    + apply arr_get_outside. lia.
  - intros k Hk Hfree. rewrite drawCanvas_arr_untouched by done.
    rewrite arr_get_spread. destruct (Z.leb_spec 0 k); [done|lia].
  - intros x y Hon q Hq. by apply drawCanvas_arr_drawn.
Qed.

Lemma two_strips_destination :
  canvas_at two_strips 1%nat (mkCanvas 2 1 true 0%nat)
    (arr_of_bytes [1; 2; 3; 255; 4; 5; 6; 255]).
Proof. split; reflexivity. Qed.

Lemma two_strips_source :
  canvas_at two_strips 3%nat (mkCanvas 2 1 true 2%nat)
    (arr_of_bytes [10; 20; 30; 255; 0; 0; 0; 0]).
Proof. split; reflexivity. Qed.

Lemma two_strips_well_formed :
  well_formed (mkCanvas 2 1 true 0%nat)
    (arr_of_bytes [1; 2; 3; 255; 4; 5; 6; 255]).
Proof. apply well_formed_check. reflexivity. Qed.

Lemma drawCanvas_clips_witness :
  exists l' s' c' a',
    drawCanvas 1%nat 3%nat 1 0 two_strips = Ok (l', s')
    /\ canvas_at s' l' c' a'
    /\ (width c', height c', hasAlphaChannel c') = (2, 1, true)
    /\ arr_length a' = 8
    /\ (forall k, k < 0 \/ 8 <= k -> arr_get a' k = VUndef).
Proof.
  destruct (drawCanvas_clips two_strips 1%nat _ _ 3%nat _ _ 1 0
              two_strips_destination
              two_strips_well_formed
              two_strips_source)
    as (l' & s' & c' & a' & Hrun & Hat & Hdim & Hlen & Hout & _).
  exists l', s', c', a'. done.
Defined.

(** C9, as stated for every destination canvas, fails.  The 1x1 RGBA
    destination of [short_destination] has a buffer of 3 bytes.  The
    source pixel lands on offset 0, which is inside the buffer, so the
    probe lets it through; both canvases have an alpha channel, so the
    alpha is written at index 3, outside the 3 bytes, and the returned
    buffer has 4 slots. *)
Lemma drawCanvas_writes_past_short_buffer :
  bytes_of short_destination 1%nat = Some [VNum 1; VNum 2; VNum 3]
  /\ returned (readData 1%nat 3 short_destination) = Some VUndef
  /\ length <$> bytes_after (drawCanvas 1%nat 3%nat 0 0) short_destination
     = Some 4%nat.
Proof. repeat split; reflexivity. Qed.

(* ===================================================================== *)
(** ** Part 6: further properties of index.js *)
(* ===================================================================== *)

(** *** Bytes and pixels *)

Lemma byte_canvas_check c a : byte_canvasb c a = true -> byte_canvas c a.
Proof.
  unfold byte_canvasb, byte_canvas. intros H.
  apply andb_true_iff in H as [Hwf Hbytes].
  split; [by apply well_formed_check|].
  intros k Hk. unfold arr_get, arr_length in *.
  destruct (Z.leb_spec 0 k); [|lia].
  destruct (lookup_lt_is_Some_2 (elems a) (Z.to_nat k)) as [v Hv]; [lia|].
  rewrite Hv. cbn.
  rewrite forallb_forall in Hbytes.
  specialize (Hbytes v). rewrite <- list_elem_of_In in Hbytes.
  specialize (Hbytes (list_elem_of_lookup_2 _ _ _ Hv)).
  destruct v as [| |n]; try done. cbn in Hbytes.
  apply andb_true_iff in Hbytes as [H1 H2].
  apply Z.leb_le in H1, H2. by exists n.
Qed.

Lemma is_byte_number v : is_byte v -> is_number v.
Proof. intros (n & -> & _). by exists n. Qed.

(** Every byte of the buffer belongs to one pixel of the canvas. *)
Lemma byte_of_pixel c k :
  0 <= width c -> 0 <= height c -> 0 <= k < byte_size c ->
  exists px py d,
    on_canvas c px py /\ 0 <= d < getChannelCount (hasAlphaChannel c)
    /\ k = bytePos_of c px py + d.
Proof.
  intros Hw Hh Hk. unfold byte_size, bytePos_of, coordinatesToBytePosition,
    on_canvas in *.
  pose proof (getChannelCount_pos (hasAlphaChannel c)) as Hch.
  set (ch := getChannelCount (hasAlphaChannel c)) in *.
  assert (Hwpos : 0 < width c) by nia.
  set (pix := k / ch).
  assert (Hpix : 0 <= pix < width c * height c).
  { unfold pix. split; [apply Z.div_pos; lia|].
    apply Z.div_lt_upper_bound; [lia|nia]. }
  exists (pix mod width c), (pix / width c), (k mod ch).
  pose proof (Z.mod_pos_bound pix (width c) Hwpos).
  pose proof (Z.mod_pos_bound k ch Hch).
  split; [|split; [done|]].
  - split; [done|]. split; [apply Z.div_pos; lia|].
    apply Z.div_lt_upper_bound; [lia|nia].
  - rewrite (Z.mul_comm (pix / width c)), <- Z.div_mod by lia.
    unfold pix. rewrite (Z.mul_comm (k / ch)). apply Z.div_mod. lia.
Qed.

Lemma arr_length_zeros n : 0 <= n -> arr_length (zeros n) = n.
Proof.
  intros Hn. unfold arr_length, zeros. cbn [elems].
  rewrite length_replicate. lia.
Qed.

Lemma arr_get_zeros n k : 0 <= k < n -> arr_get (zeros n) k = VNum 0.
Proof.
  intros Hk. unfold arr_get, zeros. cbn [elems].
  destruct (Z.leb_spec 0 k); [|lia].
  rewrite lookup_replicate_2; [done|lia].
Qed.

Lemma arr_get_zeros_negative n k : k < 0 -> arr_get (zeros n) k = VUndef.
Proof.
  intros Hk. unfold arr_get, zeros. cbn [props].
  destruct (Z.leb_spec 0 k); [lia|]. by rewrite lookup_empty.
Qed.

(** *** createCanvas *)

(** [createCanvas] with non-negative dimensions allocates a zero-filled
    buffer of [width*height*channels] bytes and a canvas that owns it: the
    canvas is well formed, every pixel reads as transparent black, and
    nothing that existed is changed. *)
Theorem createCanvas_blank s (w h : Z) (alpha : bool) :
  0 <= w -> 0 <= h ->
  exists l' s' c' a',
    createCanvas w h alpha s = Ok (l', s')
    /\ s `prefix_of` s'
    /\ canvas_at s' l' c' a'
    /\ (width c', height c', hasAlphaChannel c') = (w, h, alpha)
    /\ well_formed c' a'
    /\ (forall k, 0 <= k < arr_length a' -> arr_get a' k = VNum 0)
    /\ forall px py, on_canvas c' px py ->
         getColor l' px py s' = Ok (blank_color alpha, s').
Proof.
  intros Hw Hh.
  pose proof (getChannelCount_pos alpha) as Hch.
  assert (Hsize : 0 <= w * h * getChannelCount alpha) by nia.
  set (c' := mkCanvas w h alpha (length s)).
  set (a' := zeros (w * h * getChannelCount alpha)).
  assert (Hat : canvas_at (s ++ [OArray a'; OCanvas c']) (S (length s)) c' a').
  { split.
    - rewrite lookup_app_r by lia.
      by replace (S (length s) - length s)%nat with 1%nat by lia.
    - cbn [data c']. rewrite lookup_app_r by lia.
      by replace (length s - length s)%nat with 0%nat by lia. }
  assert (Hlen : arr_length a' = byte_size c')
    by (unfold a'; by rewrite arr_length_zeros).
  exists (S (length s)), (s ++ [OArray a'; OCanvas c']), c', a'.
  split; [by apply createCanvas_run|].
  split; [by eexists|]. split; [done|]. split; [done|].
  split; [|split].
  - repeat split; try done.
    + intros k Hk. exists 0. apply arr_get_zeros. unfold a' in Hk.
      by rewrite arr_length_zeros in Hk.
    + intros k Hk. by apply arr_get_zeros_negative.
  - intros k Hk. apply arr_get_zeros. unfold a' in Hk.
    by rewrite arr_length_zeros in Hk.
  - intros px py Hon.
    rewrite (getColor_run _ _ _ _ _ _ Hat). f_equal. f_equal.
    unfold getColor_arr, blank_color.
    assert (Hbyte : forall d, 0 <= d < getChannelCount alpha ->
              arr_get a' (bytePos_of c' px py + d) = VNum 0).
    { intros d Hd. apply arr_get_zeros.
      apply (pixel_bytes_inside c' px py d Hon). done. }
    pose proof (getChannelCount_cases alpha) as Hcases.
    rewrite (Hbyte CHANNEL_RED), (Hbyte CHANNEL_GREEN), (Hbyte CHANNEL_BLUE)
      by (unfold CHANNEL_RED, CHANNEL_GREEN, CHANNEL_BLUE; lia).
    cbn [hasAlphaChannel c']. destruct alpha; [|done].
    by rewrite (Hbyte CHANNEL_ALPHA)
      by (unfold CHANNEL_ALPHA, getChannelCount, RGBA; lia).
Qed.

Lemma createCanvas_blank_witness :
  exists l' s' c' a',
    createCanvas 2 3 true [] = Ok (l', s')
    /\ [] `prefix_of` s'
    /\ canvas_at s' l' c' a'
    /\ (width c', height c', hasAlphaChannel c') = (2, 3, true)
    /\ well_formed c' a'
    /\ (forall k, 0 <= k < arr_length a' -> arr_get a' k = VNum 0)
    /\ forall px py, on_canvas c' px py ->
         getColor l' px py s' = Ok (blank_color true, s').
Proof. apply (createCanvas_blank [] 2 3 true); lia. Defined.

(** A size [width*height*channels] below zero makes [new Uint8Array]
    throw: [createCanvas] and [createCanvasFromImageBuffer] throw a
    RangeError and allocate nothing. *)
Theorem createCanvas_negative_size s (w h : Z) (alpha : bool) :
  w * h * getChannelCount alpha < 0 ->
  createCanvas w h alpha s = Throw RangeError
  /\ forall buf, createCanvasFromImageBuffer buf w h alpha s = Throw RangeError.
Proof.
  intros Hsize.
  assert (Hcreate : createCanvas w h alpha s = Throw RangeError).
  { unfold createCanvas, newUint8Array. fold (getChannelCount alpha).
    destruct (Z.ltb_spec (w * h * getChannelCount alpha) 0); [done|lia]. }
  split; [done|]. intros buf. unfold createCanvasFromImageBuffer.
  by apply bind_Throw.
Qed.

Lemma createCanvas_negative_size_witness :
  createCanvas (-2) 3 false [] = Throw RangeError
  /\ forall buf, createCanvasFromImageBuffer buf (-2) 3 false [] = Throw RangeError.
Proof. apply (createCanvas_negative_size [] (-2) 3 false). reflexivity. Defined.

(** Every operation starts by cloning its canvas, so on a canvas object
    whose dimensions give a negative size each of them throws the
    RangeError of the clone, whatever its other arguments are. *)
Theorem operations_throw_on_negative_size s l c :
  s !! l = Some (OCanvas c) -> byte_size c < 0 ->
  cloneCanvas l s = Throw RangeError
  /\ (forall x y color, drawPixel l x y color s = Throw RangeError)
  /\ (forall x y w h color, drawRect l x y w h color s = Throw RangeError)
  /\ (forall source offsetX offsetY,
        drawCanvas l source offsetX offsetY s = Throw RangeError)
  /\ (forall replacee replacer,
        replaceColor l replacee replacer s = Throw RangeError).
Proof.
  intros Hc Hsize.
  pose proof (cloneCanvas_negative s l c Hc Hsize) as Hclone.
  repeat split; try done; intros;
    unfold drawPixel, drawRect, drawCanvas, replaceColor;
    by apply bind_Throw.
Qed.

Lemma operations_throw_on_negative_size_witness :
  cloneCanvas 1%nat negative_width = Throw RangeError
  /\ (forall x y color, drawPixel 1%nat x y color negative_width = Throw RangeError)
  /\ (forall x y w h color,
        drawRect 1%nat x y w h color negative_width = Throw RangeError)
  /\ (forall source offsetX offsetY,
        drawCanvas 1%nat source offsetX offsetY negative_width = Throw RangeError)
  /\ (forall replacee replacer,
        replaceColor 1%nat replacee replacer negative_width = Throw RangeError).
Proof.
  apply (operations_throw_on_negative_size negative_width 1%nat
           (mkCanvas (-1) 1 true 0%nat)); reflexivity.
Defined.

(** *** drawPixel and getColor *)

Lemma arr_get_drawPixel_arr c x y color b k :
  arr_get (drawPixel_arr c x y color b) k
  = if pixel_touch c x y color k
    then (if k - bytePos_of c x y <? 3 then color_at color (k - bytePos_of c x y)
          else color_at color CHANNEL_ALPHA)
    else arr_get b k.
Proof.
  unfold drawPixel_arr, pixel_touch, covers, CHANNEL_ALPHA.
  set (p := bytePos_of c x y).
  destruct (truthy (color_at color 3) && hasAlphaChannel c);
    rewrite ?arr_get_set, arr_get_assignRGB; zbool.
Qed.

Lemma pixel_touch_fits c color :
  3 <= (if truthy (color_at color CHANNEL_ALPHA) && hasAlphaChannel c
        then 4 else 3) <= getChannelCount (hasAlphaChannel c).
Proof.
  unfold getChannelCount, RGBA, RGB.
  destruct (truthy _), (hasAlphaChannel c); cbn [andb]; lia.
Qed.

Lemma drawPixel_arr_length c a x y color b :
  well_formed c a -> on_canvas c x y -> arr_length b = arr_length a ->
  arr_length (drawPixel_arr c x y color b) = arr_length a.
Proof.
  intros (_ & _ & Hlen & _) Hon Hb.
  pose proof (fun d => pixel_bytes_inside c x y d Hon) as Hd.
  pose proof (getChannelCount_cases (hasAlphaChannel c)) as Hch.
  unfold drawPixel_arr.
  assert (Hrgb : arr_length (assignRGB_arr b (bytePos_of c x y) color)
                 = arr_length a).
  { rewrite arr_length_assignRGB_inside; [done| |].
    - specialize (Hd 0). lia.
    - specialize (Hd 2). lia. }
  destruct (truthy _); cbn [andb]; [|done].
  destruct (hasAlphaChannel c) eqn:Halpha; [|done].
  rewrite arr_length_set_inside; [done|].
  specialize (Hd 3). unfold getChannelCount, RGBA, CHANNEL_ALPHA in *. lia.
Qed.

(** [getColor] reads back what [drawPixel] wrote.  For a pixel on a
    well-formed canvas, [getColor(drawPixel(canvas, x, y, color), x, y)]
    has the colour's R, G, B and, on an alpha canvas, the colour's alpha
    when that is truthy and the old alpha otherwise; every other pixel of
    the canvas reads as before, and the buffer keeps its length. *)
Theorem drawPixel_then_getColor s l c a (x y : Z) (color : Color) :
  canvas_at s l c a -> well_formed c a -> on_canvas c x y ->
  exists l' s' c' a',
    drawPixel l x y color s = Ok (l', s')
    /\ canvas_at s' l' c' a'
    /\ (width c', height c', hasAlphaChannel c')
       = (width c, height c, hasAlphaChannel c)
    /\ arr_length a' = arr_length a
    /\ getColor l' x y s'
       = Ok ([color_at color 0; color_at color 1; color_at color 2]
             ++ (if hasAlphaChannel c
                 then [if truthy (color_at color CHANNEL_ALPHA)
                       then color_at color CHANNEL_ALPHA
                       else arr_get a (bytePos_of c x y + CHANNEL_ALPHA)]
                 else []), s')
    /\ forall px py, on_canvas c px py -> (px, py) <> (x, y) ->
         exists before,
           getColor l px py s = Ok (before, s)
           /\ getColor l' px py s' = Ok (before, s').
Proof.
  intros Hat Hwf Hon.
  pose proof (well_formed_size c a Hwf) as Hsize.
  pose proof (getChannelCount_cases (hasAlphaChannel c)) as Hch.
  pose proof (pixel_touch_fits c color) as Hfit.
  assert (Hbyte : forall px py d, on_canvas c px py ->
            0 <= d < getChannelCount (hasAlphaChannel c) ->
            arr_get (drawPixel_arr c x y color (spread a)) (bytePos_of c px py + d)
            = if pixel_touch c x y color (bytePos_of c px py + d)
              then (if d <? 3 then color_at color d
                    else color_at color CHANNEL_ALPHA)
              else arr_get a (bytePos_of c px py + d)).
  { intros px py d Hpx Hd. rewrite arr_get_drawPixel_arr.
    destruct (pixel_touch c x y color (bytePos_of c px py + d)) eqn:Ht.
    - unfold pixel_touch, covers in Ht.
      apply andb_true_iff in Ht as [H1 H2].
      apply Z.leb_le in H1. apply Z.ltb_lt in H2.
      destruct (pixel_bytes_disjoint (width c) (hasAlphaChannel c)
                  x y px py (bytePos_of c px py + d - bytePos_of c x y) d)
        as (_ & _ & ->); try done;
        try (unfold on_canvas in *; lia).
      unfold bytePos_of. lia.
    - rewrite arr_get_spread.
      pose proof (pixel_bytes_inside c px py d Hpx Hd).
      destruct (Z.leb_spec 0 (bytePos_of c px py + d)); [done|lia]. }
  eexists _, _, _, _.
  split; [by apply drawPixel_run|].
  split; [apply working_canvas_at|].
  split; [done|].
  split.
  { eapply drawPixel_arr_length; [exact Hwf|exact Hon|apply arr_length_spread]. }
  split.
  - erewrite getColor_run by apply working_canvas_at. f_equal. f_equal.
    unfold getColor_arr, bytePos_of. cbn [width height hasAlphaChannel].
    fold (bytePos_of c x y).
    assert (Htouch : forall d, 0 <= d < 3 ->
              pixel_touch c x y color (bytePos_of c x y + d) = true).
    { intros d Hd. unfold pixel_touch, covers.
      apply andb_true_iff. split; [apply Z.leb_le|apply Z.ltb_lt]; lia. }
    rewrite (Hbyte x y CHANNEL_RED), (Hbyte x y CHANNEL_GREEN),
      (Hbyte x y CHANNEL_BLUE)
      by (done || unfold CHANNEL_RED, CHANNEL_GREEN, CHANNEL_BLUE; lia).
    rewrite !Htouch by (unfold CHANNEL_RED, CHANNEL_GREEN, CHANNEL_BLUE; lia).
    cbn [Z.ltb Z.compare CHANNEL_RED CHANNEL_GREEN CHANNEL_BLUE Pos.compare
         Pos.compare_cont].
    f_equal.
    destruct (hasAlphaChannel c) eqn:Halpha; [|done].
    rewrite (Hbyte x y CHANNEL_ALPHA)
      by (done || unfold CHANNEL_ALPHA, getChannelCount, RGBA; lia).
    unfold pixel_touch, covers. rewrite Halpha, andb_true_r.
    unfold CHANNEL_ALPHA.
    destruct (truthy (color_at color 3)); zbool.
  - intros px py Hpx Hne. exists (getColor_arr c a px py).
    split; [by apply getColor_run|].
    erewrite getColor_run by apply working_canvas_at. f_equal. f_equal.
    unfold getColor_arr, bytePos_of. cbn [width height hasAlphaChannel].
    fold (bytePos_of c px py).
    assert (Hfree : forall d, 0 <= d < getChannelCount (hasAlphaChannel c) ->
              pixel_touch c x y color (bytePos_of c px py + d) = false).
    { intros d Hd.
      destruct (pixel_touch c x y color (bytePos_of c px py + d)) eqn:Ht; [|done].
      unfold pixel_touch, covers in Ht.
      apply andb_true_iff in Ht as [H1 H2].
      apply Z.leb_le in H1. apply Z.ltb_lt in H2.
      destruct (pixel_bytes_disjoint (width c) (hasAlphaChannel c)
                  x y px py (bytePos_of c px py + d - bytePos_of c x y) d)
        as (-> & -> & _); try done;
        try (unfold on_canvas in *; lia).
      unfold bytePos_of. lia. }
    rewrite (Hbyte px py CHANNEL_RED), (Hbyte px py CHANNEL_GREEN),
      (Hbyte px py CHANNEL_BLUE)
      by (done || unfold CHANNEL_RED, CHANNEL_GREEN, CHANNEL_BLUE; lia).
    rewrite !Hfree
      by (unfold CHANNEL_RED, CHANNEL_GREEN, CHANNEL_BLUE; lia).
    destruct (hasAlphaChannel c) eqn:Halpha; [|done].
    rewrite (Hbyte px py CHANNEL_ALPHA), Hfree
      by (done || unfold CHANNEL_ALPHA, getChannelCount, RGBA; lia).
    done.
Qed.

Lemma drawPixel_then_getColor_witness :
  exists l' s' c' a',
    drawPixel 1%nat 1 0 [VNum 9; VNum 8; VNum 7; VNum 0] rgba_2x2 = Ok (l', s')
    /\ canvas_at s' l' c' a'
    /\ (width c', height c', hasAlphaChannel c') = (2, 2, true)
    /\ arr_length a' = 16
    /\ getColor l' 1 0 s' = Ok ([VNum 9; VNum 8; VNum 7; VNum 255], s')
    /\ forall px py, on_canvas (mkCanvas 2 2 true 0%nat) px py ->
         (px, py) <> (1, 0) ->
         exists before,
           getColor 1%nat px py rgba_2x2 = Ok (before, rgba_2x2)
           /\ getColor l' px py s' = Ok (before, s').
Proof.
  apply (drawPixel_then_getColor rgba_2x2 1%nat _ _ 1 0
           [VNum 9; VNum 8; VNum 7; VNum 0]
           rgba_2x2_canvas_at rgba_2x2_well_formed).
  unfold on_canvas. cbn. lia.
Defined.

(** [getColor] does not check its coordinates.  In a column of a
    well-formed canvas, a row above or below the canvas has its byte
    offset outside the buffer, and [getColor] returns a colour of
    [undefined] components there, without an error. *)
Theorem getColor_outside_rows s l c a (x y : Z) :
  canvas_at s l c a -> well_formed c a ->
  0 <= x < width c -> y < 0 \/ height c <= y ->
  getColor l x y s = Ok (undefined_color (hasAlphaChannel c), s).
Proof.
  intros Hat (Hw & Hh & Hlen & _ & Hneg) Hx Hy.
  rewrite (getColor_run _ _ _ _ _ _ Hat). f_equal. f_equal.
  pose proof (getChannelCount_pos (hasAlphaChannel c)) as Hch.
  assert (Hout : forall d, 0 <= d < getChannelCount (hasAlphaChannel c) ->
            arr_get a (bytePos_of c x y + d) = VUndef).
  { intros d Hd.
    unfold bytePos_of, coordinatesToBytePosition.
    set (ch := getChannelCount (hasAlphaChannel c)) in *.
    destruct Hy as [Hy|Hy].
    - apply Hneg. assert (y * width c + x + 1 <= 0) by nia. nia.
    - apply arr_get_outside. rewrite Hlen. unfold byte_size. fold ch.
      assert (width c * height c <= y * width c + x) by nia. nia. }
  pose proof (getChannelCount_cases (hasAlphaChannel c)) as Hcases.
  unfold getColor_arr, undefined_color.
  rewrite (Hout CHANNEL_RED), (Hout CHANNEL_GREEN), (Hout CHANNEL_BLUE)
    by (unfold CHANNEL_RED, CHANNEL_GREEN, CHANNEL_BLUE; lia).
  destruct (hasAlphaChannel c); [|done].
  by rewrite (Hout CHANNEL_ALPHA)
    by (unfold CHANNEL_ALPHA, getChannelCount, RGBA; lia).
Qed.

Lemma getColor_outside_rows_witness :
  getColor 1%nat 1 2 rgba_2x2 = Ok (undefined_color true, rgba_2x2)
  /\ getColor 1%nat 0 (-1) rgba_2x2 = Ok (undefined_color true, rgba_2x2).
Proof.
  split.
  - apply (getColor_outside_rows rgba_2x2 1%nat _ _ 1 2
             rgba_2x2_canvas_at rgba_2x2_well_formed); cbn; lia.
  - apply (getColor_outside_rows rgba_2x2 1%nat _ _ 0 (-1)
             rgba_2x2_canvas_at rgba_2x2_well_formed); cbn; lia.
Defined.

(** *** isEqualColor *)

Lemma strict_eq_sym u v : strict_eq u v = strict_eq v u.
Proof. destruct u, v; cbn; try done. apply Z.eqb_sym. Qed.

(** [isEqualColor] compares R, G, B with [===] and nothing else: it is
    symmetric and transitive, it holds between a colour and itself when
    the three components are numbers, it does not look at the alpha or at
    any further component, and a colour with a [NaN] component equals no
    colour, itself included. *)
Theorem isEqualColor_compares_rgb :
  (forall c1 c2, isEqualColor c1 c2 = isEqualColor c2 c1)
  /\ (forall c1 c2 c3, isEqualColor c1 c2 = true -> isEqualColor c2 c3 = true ->
        isEqualColor c1 c3 = true)
  /\ (forall c1, is_color c1 -> isEqualColor c1 c1 = true)
  /\ (forall r g b rest1 rest2 c2,
        isEqualColor (r :: g :: b :: rest1) c2
        = isEqualColor (r :: g :: b :: rest2) c2)
  /\ (forall c1 c2 d, 0 <= d < 3 -> color_at c1 d = VNaN ->
        isEqualColor c1 c2 = false).
Proof.
  split; [|split; [|split; [|split]]].
  - intros c1 c2. unfold isEqualColor.
    by rewrite (strict_eq_sym (color_at c1 _)), (strict_eq_sym (color_at c1 _)),
      (strict_eq_sym (color_at c1 CHANNEL_BLUE)).
  - intros c1 c2 c3 H12 H23.
    rewrite (isEqualColor_ext c1 c2); [done|].
    by apply isEqualColor_components.
  - apply isEqualColor_refl.
  - intros r g b rest1 rest2 c2. apply isEqualColor_ext.
    intros d Hd.
    assert (d = 0 \/ d = 1 \/ d = 2) as [->|[->| ->]] by lia; reflexivity.
  - intros c1 c2 d Hd Hnan. unfold isEqualColor.
    assert (d = 0 \/ d = 1 \/ d = 2) as [->|[->| ->]] by lia;
      unfold CHANNEL_RED, CHANNEL_GREEN, CHANNEL_BLUE; rewrite Hnan; cbn;
      by rewrite ?andb_false_r.
Qed.

Lemma isEqualColor_compares_rgb_witness :
  isEqualColor [VNum 1; VNum 2; VNum 3; VNum 0] [VNum 1; VNum 2; VNum 3] = true
  /\ isEqualColor [VNum 1; VNaN; VNum 3] [VNum 1; VNaN; VNum 3] = false.
Proof.
  destruct isEqualColor_compares_rgb as (_ & Htrans & Hrefl & Hrest & Hnan).
  split.
  - rewrite (Hrest _ _ _ [VNum 0] []). apply Hrefl.
    repeat split; by eexists.
  - apply (Hnan _ _ 1); [lia|reflexivity].
Defined.

(** *** replaceColor *)

Lemma replaceColor_arr_length c a replacee replacer b :
  well_formed c a -> arr_length b = arr_length a ->
  arr_length (replaceColor_arr c a replacee replacer b) = arr_length a.
Proof.
  intros (_ & _ & Hlen & _) Hb. unfold replaceColor_arr.
  apply fold_length; [|done].
  intros b' [[x y] p] Hin Hb'. apply in_pixels in Hin as (Hx & Hy & ->).
  unfold replace_px. destruct (isEqualColor _ _); [|done].
  pose proof (fun d => pixel_bytes_inside c x y d (conj Hx Hy)) as Hd.
  pose proof (getChannelCount_cases (hasAlphaChannel c)) as Hch.
  fold (bytePos_of c x y).
  rewrite arr_length_assignRGB_inside; [done| |].
  - specialize (Hd 0). lia.
  - specialize (Hd 2). lia.
Qed.

(** [replaceColor] pixel by pixel.  On a well-formed canvas the call
    returns a canvas of the same dimensions and buffer length in which a
    pixel whose R, G, B equalled the replacee's has the replacer's R, G, B
    and its old alpha, and every other pixel reads as before. *)
Theorem replaceColor_replaces s l c a (replacee replacer : Color) :
  canvas_at s l c a -> well_formed c a ->
  exists l' s' c' a',
    replaceColor l replacee replacer s = Ok (l', s')
    /\ canvas_at s' l' c' a'
    /\ (width c', height c', hasAlphaChannel c')
       = (width c, height c, hasAlphaChannel c)
    /\ arr_length a' = arr_length a
    /\ forall px py, on_canvas c px py ->
         exists before,
           getColor l px py s = Ok (before, s)
           /\ getColor l' px py s'
              = Ok (if isEqualColor before replacee
                    then [color_at replacer 0; color_at replacer 1;
                          color_at replacer 2] ++ drop 3 before
                    else before, s').
Proof.
  intros Hat Hwf.
  pose proof (well_formed_size c a Hwf) as Hsize.
  pose proof (getChannelCount_cases (hasAlphaChannel c)) as Hch.
  eexists _, _, _, _.
  split; [by apply replaceColor_run|].
  split; [apply working_canvas_at|].
  split; [done|].
  split; [by apply replaceColor_arr_length|].
  intros px py Hon. exists (getColor_arr c a px py).
  split; [by apply getColor_run|].
  erewrite getColor_run by apply working_canvas_at. f_equal. f_equal.
  assert (Hbyte : forall d, 0 <= d < getChannelCount (hasAlphaChannel c) ->
            arr_get (replaceColor_arr c a replacee replacer (spread a))
                    (bytePos_of c px py + d)
            = if isEqualColor (getColor_arr c a px py) replacee && (d <? 3)
              then color_at replacer d
              else arr_get a (bytePos_of c px py + d)).
  { intros d Hd. rewrite replaceColor_arr_pixel_byte by done.
    rewrite arr_get_spread.
    pose proof (pixel_bytes_inside c px py d Hon Hd).
    destruct (Z.leb_spec 0 (bytePos_of c px py + d)); [done|lia]. }
  match goal with
  | |- getColor_arr _ ?a' _ _ = ?R => change (getColor_arr c a' px py = R)
  end.
  unfold getColor_arr.
  rewrite (Hbyte CHANNEL_RED), (Hbyte CHANNEL_GREEN), (Hbyte CHANNEL_BLUE)
    by (unfold CHANNEL_RED, CHANNEL_GREEN, CHANNEL_BLUE; lia).
  destruct (hasAlphaChannel c) eqn:Halpha.
  - rewrite (Hbyte CHANNEL_ALPHA)
      by (unfold CHANNEL_ALPHA, getChannelCount, RGBA; lia).
    by destruct (isEqualColor _ replacee).
  - by destruct (isEqualColor _ replacee).
Qed.

Lemma replaceColor_replaces_witness :
  exists l' s' c' a',
    replaceColor 1%nat [VNum 2; VNum 2; VNum 2] [VNum 9; VNum 8; VNum 7] rgba_2x2
    = Ok (l', s')
    /\ canvas_at s' l' c' a'
    /\ (width c', height c', hasAlphaChannel c') = (2, 2, true)
    /\ arr_length a' = 16
    /\ forall px py, on_canvas (mkCanvas 2 2 true 0%nat) px py ->
         exists before,
           getColor 1%nat px py rgba_2x2 = Ok (before, rgba_2x2)
           /\ getColor l' px py s'
              = Ok (if isEqualColor before [VNum 2; VNum 2; VNum 2]
                    then [VNum 9; VNum 8; VNum 7] ++ drop 3 before
                    else before, s').
Proof.
  apply (replaceColor_replaces rgba_2x2 1%nat _ _
           [VNum 2; VNum 2; VNum 2] [VNum 9; VNum 8; VNum 7]
           rgba_2x2_canvas_at rgba_2x2_well_formed).
Defined.

Lemma fold_left_id_in {A} (f : JsArray -> A -> JsArray) (l : list A)
    (b : JsArray) :
  (forall b' x, In x l -> f b' x = b') -> fold_left f l b = b.
Proof.
  revert b. induction l as [|x l IH]; intros b Hid; [done|].
  cbn [fold_left]. rewrite Hid by (by left).
  apply IH. intros b' x' Hin. apply Hid. by right.
Qed.

(** When no pixel of the canvas has the replacee's colour, [replaceColor]
    returns a copy: the same dimensions and, byte for byte, the same
    buffer. *)
Theorem replaceColor_without_match s l c a (replacee replacer : Color) :
  canvas_at s l c a -> 0 <= byte_size c ->
  (forall px py, on_canvas c px py ->
     exists color, getColor l px py s = Ok (color, s)
                   /\ isEqualColor color replacee = false) ->
  exists l' s' c' a',
    replaceColor l replacee replacer s = Ok (l', s')
    /\ canvas_at s' l' c' a'
    /\ (width c', height c', hasAlphaChannel c')
       = (width c, height c, hasAlphaChannel c)
    /\ elems a' = elems a.
Proof.
  intros Hat Hsize Hnone.
  eexists _, _, _, _.
  split; [by apply replaceColor_run|].
  split; [apply working_canvas_at|].
  split; [done|].
  unfold replaceColor_arr. rewrite fold_left_id_in; [done|].
  intros b' [[x y] p] Hin. apply in_pixels in Hin as (Hx & Hy & _).
  destruct (Hnone x y (conj Hx Hy)) as [color [Hget Hne]].
  rewrite (getColor_run _ _ _ _ _ _ Hat) in Hget.
  inversion Hget as [Hcolor]. unfold replace_px. by rewrite Hcolor, Hne.
Qed.

Lemma replaceColor_without_match_witness :
  exists l' s' c' a',
    replaceColor 1%nat [VNum 5; VNum 5; VNum 5] [VNum 9; VNum 9; VNum 9] rgb_2x1
    = Ok (l', s')
    /\ canvas_at s' l' c' a'
    /\ (width c', height c', hasAlphaChannel c') = (2, 1, false)
    /\ elems a' = VNum <$> [1; 1; 1; 2; 2; 2].
Proof.
  apply (replaceColor_without_match rgb_2x1 1%nat _ _
           [VNum 5; VNum 5; VNum 5] [VNum 9; VNum 9; VNum 9] rgb_2x1_canvas_at).
  - vm_compute. discriminate.
  - intros px py [Hx Hy]. cbn in Hx, Hy.
    assert (py = 0) as -> by lia.
    assert (px = 0 \/ px = 1) as [-> | ->] by lia;
      (eexists; split; reflexivity).
Defined.

(** *** drawRect and drawPixel together *)

(** A 1x1 rectangle is a pixel, alpha apart: when the canvas has no alpha
    channel, or the colour's alpha is truthy, [drawRect(canvas, x, y, 1,
    1, color)] and [drawPixel(canvas, x, y, color)] return the same canvas
    in the same store, wherever [(x, y)] is. *)
Theorem drawRect_single_pixel s l c a (x y : Z) (color : Color) :
  canvas_at s l c a -> 0 <= byte_size c ->
  hasAlphaChannel c = false \/ truthy (color_at color CHANNEL_ALPHA) = true ->
  exists l' s',
    drawPixel l x y color s = Ok (l', s')
    /\ drawRect l x y 1 1 color s = Ok (l', s').
Proof.
  intros Hat Hsize Hcase. eexists _, _.
  split; [by apply drawPixel_run|].
  rewrite (drawRect_run _ _ _ _ Hat Hsize). do 3 f_equal.
  unfold drawRect_arr, drawPixel_arr, rect_px, rect_alpha, isDefined.
  cbn [seqZ fold_left Z.to_nat Pos.to_nat Pos.iter_op seq fmap list_fmap
       Z.of_nat Z.add].
  destruct Hcase as [Halpha|Htruthy].
  - by rewrite Halpha, andb_false_r.
  - rewrite Htruthy. cbn [andb].
    destruct (hasAlphaChannel c); [|done].
    by destruct (color_at color CHANNEL_ALPHA).
Qed.

Lemma drawRect_single_pixel_witness :
  exists l' s',
    drawPixel 1%nat 5 (-1) [VNum 9; VNum 8; VNum 7; VNum 6] rgba_2x2 = Ok (l', s')
    /\ drawRect 1%nat 5 (-1) 1 1 [VNum 9; VNum 8; VNum 7; VNum 6] rgba_2x2
       = Ok (l', s').
Proof.
  apply (drawRect_single_pixel rgba_2x2 1%nat _ _ 5 (-1)
           [VNum 9; VNum 8; VNum 7; VNum 6] rgba_2x2_canvas_at).
  - vm_compute. discriminate.
  - right. reflexivity.
Defined.

(** The indexed elements after a write depend on the indexed elements
    only. *)
Lemma elems_arr_set a b k v :
  elems a = elems b -> elems (arr_set a k v) = elems (arr_set b k v).
Proof.
  intros Heq. unfold arr_set. rewrite Heq.
  destruct (0 <=? k); [|done].
  cbn zeta. by destruct (Z.to_nat k <? length (elems b))%nat.
Qed.

Lemma elems_rect_px c color i j a b :
  elems a = elems b -> elems (rect_px c color i j a) = elems (rect_px c color i j b).
Proof.
  intros Heq. unfold rect_px, assignRGB_arr.
  destruct (hasAlphaChannel c); repeat apply elems_arr_set; done.
Qed.

Lemma elems_drawRect_arr c x y w h color a b :
  elems a = elems b ->
  elems (drawRect_arr c x y w h color a) = elems (drawRect_arr c x y w h color b).
Proof.
  rewrite !drawRect_arr_fold. generalize (rect_pixels x y w h) as l.
  intros l. revert a b. induction l as [|[i j] l IH]; intros a b Heq; [done|].
  cbn [fold_left fst snd]. apply IH. by apply elems_rect_px.
Qed.

Lemma drawRect_arr_split c x y w1 w2 h color b :
  0 <= w1 -> 0 <= w2 ->
  drawRect_arr c x y (w1 + w2) h color b
  = drawRect_arr c (x + w1) y w2 h color (drawRect_arr c x y w1 h color b).
Proof.
  intros H1 H2. unfold drawRect_arr.
  by rewrite seqZ_app, fold_left_app by done.
Qed.

Lemma bytes_after_run (call : M loc) s l' s' c' a' :
  call s = Ok (l', s') -> canvas_at s' l' c' a' ->
  bytes_after call s = Some (elems a').
Proof.
  intros Hrun [Hc Ha]. unfold bytes_after. by rewrite Hrun, Hc, Ha.
Qed.

(** Filling two rectangles that stand side by side, one call after the
    other, leaves the same bytes as filling their union in one call;
    this holds with or without bounds. *)
Theorem drawRect_side_by_side s l c a (x y w1 w2 h : Z) (color : Color) :
  canvas_at s l c a -> 0 <= byte_size c -> 0 <= w1 -> 0 <= w2 ->
  exists bytes,
    bytes_after (l1 <- drawRect l x y w1 h color ;;
                 drawRect l1 (x + w1) y w2 h color) s = Some bytes
    /\ bytes_after (drawRect l x y (w1 + w2) h color) s = Some bytes.
Proof.
  intros Hat Hsize H1 H2.
  set (a1 := drawRect_arr c x y w1 h color (spread a)).
  set (c1 := mkCanvas (width c) (height c) (hasAlphaChannel c)
                      (S (S (length s)))).
  assert (Hat1 : canvas_at (working s c a1) (S (length s)) c1 a1)
    by apply working_canvas_at.
  exists (elems (drawRect_arr c x y (w1 + w2) h color (spread a))).
  split.
  - assert (Hrun : (l1 <- drawRect l x y w1 h color ;;
                    drawRect l1 (x + w1) y w2 h color) s
                   = Ok (S (length (working s c a1)),
                         working (working s c a1) c1
                           (drawRect_arr c1 (x + w1) y w2 h color (spread a1)))).
    { rewrite (bind_Ok _ _ _ _ _ (drawRect_run _ _ _ _ Hat Hsize x y w1 h color)).
      fold a1. by apply (drawRect_run _ _ _ _ Hat1). }
    rewrite (bytes_after_run _ _ _ _ _ _ Hrun (working_canvas_at _ _ _)).
    f_equal. rewrite drawRect_arr_split by done.
    by apply (elems_drawRect_arr c (x + w1) y w2 h color (spread a1) a1).
  - eapply bytes_after_run; [by apply drawRect_run|apply working_canvas_at].
Qed.

Lemma drawRect_side_by_side_witness :
  exists bytes,
    bytes_after (l1 <- drawRect 1%nat 0 0 1 2 [VNum 9; VNum 8; VNum 7] ;;
                 drawRect l1 (0 + 1) 0 2 2 [VNum 9; VNum 8; VNum 7]) rgba_2x2
    = Some bytes
    /\ bytes_after (drawRect 1%nat 0 0 (1 + 2) 2 [VNum 9; VNum 8; VNum 7]) rgba_2x2
       = Some bytes.
Proof.
  apply (drawRect_side_by_side rgba_2x2 1%nat _ _ 0 0 1 2 2
           [VNum 9; VNum 8; VNum 7] rgba_2x2_canvas_at);
    [vm_compute; discriminate|lia|lia].
Defined.

(** *** The data model is kept *)

Lemma well_formed_from_pixels c a' :
  0 <= width c -> 0 <= height c -> arr_length a' = byte_size c ->
  (forall px py d, on_canvas c px py ->
     0 <= d < getChannelCount (hasAlphaChannel c) ->
     is_number (arr_get a' (bytePos_of c px py + d))) ->
  (forall k, k < 0 -> arr_get a' k = VUndef) ->
  well_formed c a'.
Proof.
  intros Hw Hh Hlen Hnum Hneg. repeat split; try done.
  intros k Hk. rewrite Hlen in Hk.
  destruct (byte_of_pixel c k Hw Hh Hk) as (px & py & d & Hon & Hd & ->).
  by apply Hnum.
Qed.

Lemma drawPixel_arr_pixel_byte c x y color b px py d :
  on_canvas c x y -> on_canvas c px py ->
  0 <= d < getChannelCount (hasAlphaChannel c) ->
  arr_get (drawPixel_arr c x y color b) (bytePos_of c px py + d)
  = if pixel_touch c x y color (bytePos_of c px py + d)
    then (if d <? 3 then color_at color d else color_at color CHANNEL_ALPHA)
    else arr_get b (bytePos_of c px py + d).
Proof.
  intros Hon Hpx Hd. rewrite arr_get_drawPixel_arr.
  pose proof (pixel_touch_fits c color) as Hfit.
  destruct (pixel_touch c x y color (bytePos_of c px py + d)) eqn:Ht; [|done].
  unfold pixel_touch, covers in Ht.
  apply andb_true_iff in Ht as [H1 H2].
  apply Z.leb_le in H1. apply Z.ltb_lt in H2.
  destruct (pixel_bytes_disjoint (width c) (hasAlphaChannel c)
              x y px py (bytePos_of c px py + d - bytePos_of c x y) d)
    as (_ & _ & ->); try done;
    try (unfold on_canvas in *; lia).
  unfold bytePos_of. lia.
Qed.

(** [drawPixel] on a pixel of the canvas, with a colour whose R, G, B are
    numbers, returns a well-formed canvas when it is given one. *)
Theorem drawPixel_keeps_well_formed s l c a (x y : Z) (color : Color) :
  canvas_at s l c a -> well_formed c a -> on_canvas c x y -> is_color color ->
  exists l' s' c' a',
    drawPixel l x y color s = Ok (l', s')
    /\ canvas_at s' l' c' a'
    /\ well_formed c' a'.
Proof.
  intros Hat Hwf Hon (Hr & Hg & Hb).
  pose proof (well_formed_size c a Hwf) as Hsize.
  pose proof Hwf as (Hw & Hh & Hlen & Hnum & Hneg).
  pose proof (pixel_touch_fits c color) as Hfit.
  eexists _, _, _, _.
  split; [by apply drawPixel_run|].
  split; [apply working_canvas_at|].
  match goal with |- well_formed _ ?a' => change (well_formed c a') end.
  apply well_formed_from_pixels; try done.
  - rewrite <- Hlen.
    eapply drawPixel_arr_length; [exact Hwf|exact Hon|apply arr_length_spread].
  - intros px py d Hpx Hd. rewrite drawPixel_arr_pixel_byte by done.
    pose proof (pixel_bytes_inside c px py d Hpx Hd) as Hin.
    destruct (pixel_touch c x y color (bytePos_of c px py + d)) eqn:Ht.
    + destruct (Z.ltb_spec d 3).
      * unfold CHANNEL_RED, CHANNEL_GREEN, CHANNEL_BLUE in *.
        assert (d = 0 \/ d = 1 \/ d = 2) as [->|[->| ->]] by lia; done.
      * unfold pixel_touch, covers in Ht.
        destruct (truthy (color_at color CHANNEL_ALPHA)) eqn:Htr.
        -- destruct (color_at color CHANNEL_ALPHA) as [| |n]; try done.
           by exists n.
        -- cbn [andb] in Ht. apply andb_true_iff in Ht as [H1 H2].
           apply Z.leb_le in H1. apply Z.ltb_lt in H2.
           pose proof (getChannelCount_cases (hasAlphaChannel c)).
           destruct (pixel_bytes_disjoint (width c) (hasAlphaChannel c)
                       x y px py (bytePos_of c px py + d - bytePos_of c x y) d)
             as (_ & _ & Hdd); try done;
             try (unfold on_canvas, bytePos_of in *; lia).
    + rewrite arr_get_spread.
      destruct (Z.leb_spec 0 (bytePos_of c px py + d)); [|lia].
      apply Hnum. lia.
  - intros k Hk. rewrite arr_get_drawPixel_arr.
    pose proof (pixel_bytes_inside c x y 0 Hon) as H0.
    pose proof (getChannelCount_pos (hasAlphaChannel c)).
    destruct (pixel_touch c x y color k) eqn:Ht.
    + unfold pixel_touch, covers in Ht. apply andb_true_iff in Ht as [H1 _].
      apply Z.leb_le in H1. lia.
    + rewrite arr_get_spread. destruct (Z.leb_spec 0 k); [lia|done].
Qed.

Lemma drawPixel_keeps_well_formed_witness :
  exists l' s' c' a',
    drawPixel 1%nat 1 1 [VNum 9; VNum 8; VNum 7] rgba_2x2 = Ok (l', s')
    /\ canvas_at s' l' c' a'
    /\ well_formed c' a'.
Proof.
  apply (drawPixel_keeps_well_formed rgba_2x2 1%nat _ _ 1 1
           [VNum 9; VNum 8; VNum 7] rgba_2x2_canvas_at rgba_2x2_well_formed).
  - unfold on_canvas. cbn. lia.
  - repeat split; by eexists.
Defined.

(** [drawRect] with a rectangle inside the bounds, and a colour whose
    R, G, B are numbers and whose alpha is a number or left out, returns
    a well-formed canvas when it is given one. *)
Theorem drawRect_keeps_well_formed s l c a (x y w h : Z) (color : Color) :
  canvas_at s l c a -> well_formed c a ->
  0 <= x -> 0 <= y -> x + w <= width c -> y + h <= height c ->
  is_color color -> alpha_ok color ->
  exists l' s' c' a',
    drawRect l x y w h color s = Ok (l', s')
    /\ canvas_at s' l' c' a'
    /\ well_formed c' a'.
Proof.
  intros Hat Hwf Hx Hy Hxw Hyh (Hr & Hg & Hb) Halpha.
  pose proof (well_formed_size c a Hwf) as Hsize.
  pose proof Hwf as (Hw & Hh & Hlen & Hnum & Hneg).
  eexists _, _, _, _.
  split; [by apply drawRect_run|].
  split; [apply working_canvas_at|].
  match goal with |- well_formed _ ?a' => change (well_formed c a') end.
  apply well_formed_from_pixels; try done.
  - by apply drawRect_arr_length.
  - intros px py d Hpx Hd. rewrite drawRect_arr_pixel_byte by done.
    pose proof (pixel_bytes_inside c px py d Hpx Hd) as Hin.
    destruct (in_rectb x y w h px py).
    + destruct (Z.ltb_spec d 3).
      * unfold CHANNEL_RED, CHANNEL_GREEN, CHANNEL_BLUE in *.
        assert (d = 0 \/ d = 1 \/ d = 2) as [->|[->| ->]] by lia; done.
      * unfold rect_alpha, isDefined.
        destruct Halpha as [Hnumber| ->]; [|by exists 255].
        destruct Hnumber as [n ->]. by exists n.
    + rewrite arr_get_spread.
      destruct (Z.leb_spec 0 (bytePos_of c px py + d)); [|lia].
      apply Hnum. lia.
  - intros k Hk. rewrite drawRect_arr_fold.
    rewrite (fold_untouched _ (rect_touch c) (rect_val c color)
               (arr_get_rect_px c color)).
    + rewrite arr_get_spread. destruct (Z.leb_spec 0 k); [lia|done].
    + intros [i j] Hin. apply in_rect_pixels in Hin.
      assert (Hon : on_canvas c i j) by (unfold in_rect, on_canvas in *; lia).
      pose proof (pixel_bytes_inside c i j 0 Hon) as H0.
      pose proof (getChannelCount_pos (hasAlphaChannel c)).
      unfold rect_touch, covers. cbn [fst snd].
      destruct (Z.leb_spec (bytePos_of c i j) k); [lia|done].
Qed.

Lemma drawRect_keeps_well_formed_witness :
  exists l' s' c' a',
    drawRect 1%nat 0 1 2 1 [VNum 9; VNum 8; VNum 7] rgba_2x2 = Ok (l', s')
    /\ canvas_at s' l' c' a'
    /\ well_formed c' a'.
Proof.
  apply (drawRect_keeps_well_formed rgba_2x2 1%nat _ _ 0 1 2 1
           [VNum 9; VNum 8; VNum 7] rgba_2x2_canvas_at rgba_2x2_well_formed);
    try (cbn; lia).
  - repeat split; by eexists.
  - right. reflexivity.
Defined.

(** [replaceColor] with a replacer whose R, G, B are numbers returns a
    well-formed canvas when it is given one. *)
Theorem replaceColor_keeps_well_formed s l c a (replacee replacer : Color) :
  canvas_at s l c a -> well_formed c a -> is_color replacer ->
  exists l' s' c' a',
    replaceColor l replacee replacer s = Ok (l', s')
    /\ canvas_at s' l' c' a'
    /\ well_formed c' a'.
Proof.
  intros Hat Hwf (Hr & Hg & Hb).
  pose proof (well_formed_size c a Hwf) as Hsize.
  pose proof Hwf as (Hw & Hh & Hlen & Hnum & Hneg).
  eexists _, _, _, _.
  split; [by apply replaceColor_run|].
  split; [apply working_canvas_at|].
  match goal with |- well_formed _ ?a' => change (well_formed c a') end.
  apply well_formed_from_pixels; try done.
  - rewrite <- Hlen. by apply replaceColor_arr_length.
  - intros px py d Hpx Hd. rewrite replaceColor_arr_pixel_byte by done.
    pose proof (pixel_bytes_inside c px py d Hpx Hd) as Hin.
    destruct (isEqualColor _ _ && (d <? 3)) eqn:Hcase.
    + apply andb_true_iff in Hcase as [_ Hd3]. apply Z.ltb_lt in Hd3.
      unfold CHANNEL_RED, CHANNEL_GREEN, CHANNEL_BLUE in *.
      assert (d = 0 \/ d = 1 \/ d = 2) as [->|[->| ->]] by lia; done.
    + rewrite arr_get_spread.
      destruct (Z.leb_spec 0 (bytePos_of c px py + d)); [|lia].
      apply Hnum. lia.
  - intros k Hk. unfold replaceColor_arr.
    rewrite (fold_untouched _ (replace_touch c a replacee)
               (replace_val replacer) (arr_get_replace_px c a replacee replacer)).
    + rewrite arr_get_spread. destruct (Z.leb_spec 0 k); [lia|done].
    + intros [[i j] p] Hin. apply in_pixels in Hin as (Hi & Hj & ->).
      pose proof (pixel_bytes_inside c i j 0 (conj Hi Hj)) as H0.
      pose proof (getChannelCount_pos (hasAlphaChannel c)).
      unfold replace_touch, covers. fold (bytePos_of c i j).
      destruct (Z.leb_spec (bytePos_of c i j) k); [lia|].
      by rewrite andb_false_r.
Qed.

Lemma replaceColor_keeps_well_formed_witness :
  exists l' s' c' a',
    replaceColor 1%nat [VNum 2; VNum 2; VNum 2] [VNum 9; VNum 8; VNum 7] rgba_2x2
    = Ok (l', s')
    /\ canvas_at s' l' c' a'
    /\ well_formed c' a'.
Proof.
  apply (replaceColor_keeps_well_formed rgba_2x2 1%nat _ _
           [VNum 2; VNum 2; VNum 2] [VNum 9; VNum 8; VNum 7]
           rgba_2x2_canvas_at rgba_2x2_well_formed).
  repeat split; by eexists.
Defined.

(** *** drawCanvas, pixel by pixel *)

Section Blit.

Variables (dc : Canvas) (da : JsArray) (sc : Canvas) (sa : JsArray).
Variables (offsetX offsetY : Z).
Hypothesis Hwf : well_formed dc da.
Hypothesis Hleft : 0 <= offsetX.
Hypothesis Hright : offsetX + width sc <= width dc.

(** When the source's columns all fall on columns of the destination, a
    destination pixel is written by the one source pixel that lands on
    it, if there is one. *)
Lemma drawCanvas_arr_pixel_byte b px py d :
  on_canvas dc px py -> 0 <= d < getChannelCount (hasAlphaChannel dc) ->
  arr_get (drawCanvas_arr dc da sc sa offsetX offsetY b) (bytePos_of dc px py + d)
  = if on_canvasb sc (px - offsetX) (py - offsetY)
       && (d <? (if hasAlphaChannel dc && hasAlphaChannel sc then 4 else 3))
    then blit_val dc da sc sa offsetX offsetY
           (px - offsetX, py - offsetY,
            bytePos_of sc (px - offsetX) (py - offsetY))
           (bytePos_of dc px py + d)
    else arr_get b (bytePos_of dc px py + d).
Proof.
  intros Hon Hd. unfold drawCanvas_arr.
  set (k := bytePos_of dc px py + d).
  set (l := pixels (width sc) (height sc) (hasAlphaChannel sc)).
  set (n := if hasAlphaChannel dc && hasAlphaChannel sc then 4 else 3).
  set (e0 := (px - offsetX, py - offsetY,
              bytePos_of sc (px - offsetX) (py - offsetY))).
  pose proof (blit_bytes_fit dc sc) as Hfit. fold n in Hfit.
  assert (Honly : forall e, In e l ->
            blit_touch dc da sc offsetX offsetY e k = true ->
            e = e0 /\ d < n).
  { intros [[x y] p] Hin Ht. apply in_pixels in Hin as (Hx & Hy & ->).
    unfold blit_touch in Ht. fold n in Ht.
    apply andb_true_iff in Ht as [_ Hcov]. unfold covers in Hcov.
    apply andb_true_iff in Hcov as [H1 H2].
    apply Z.leb_le in H1. apply Z.ltb_lt in H2.
    destruct (pixel_bytes_disjoint (width dc) (hasAlphaChannel dc)
                (x + offsetX) (y + offsetY) px py
                (k - bytePos_of dc (x + offsetX) (y + offsetY)) d)
      as (Hxx & Hyy & Hdd); try done;
      try (unfold on_canvas, k, bytePos_of in *; lia).
    split; [|lia]. unfold e0, bytePos_of.
    by replace (px - offsetX) with x by lia;
       replace (py - offsetY) with y by lia. }
  assert (Hq : bytePos_of dc (px - offsetX + offsetX) (py - offsetY + offsetY)
               = bytePos_of dc px py)
    by (f_equal; lia).
  destruct (on_canvasb sc (px - offsetX) (py - offsetY) && (d <? n)) eqn:Hcase.
  - apply andb_true_iff in Hcase as [Hsrc Hdn]. apply Z.ltb_lt in Hdn.
    apply (fold_touched_same _ (blit_touch dc da sc offsetX offsetY)
             (blit_val dc da sc sa offsetX offsetY)
             (arr_get_blit_px dc da sc sa offsetX offsetY)).
    + intros e Hin Ht. by destruct (Honly e Hin Ht) as [-> _].
    + exists e0. split.
      * apply in_pixels. unfold on_canvasb in Hsrc.
        apply andb_true_iff in Hsrc as [Hsrc H4].
        apply andb_true_iff in Hsrc as [Hsrc H3].
        apply andb_true_iff in Hsrc as [H1 H2].
        apply Z.leb_le in H1, H3. apply Z.ltb_lt in H2, H4.
        split; [lia|]. split; [lia|reflexivity].
      * unfold e0, blit_touch. rewrite Hq. fold n.
        pose proof (pixel_bytes_inside dc px py 0 Hon) as H0.
        pose proof (getChannelCount_pos (hasAlphaChannel dc)) as Hch.
        destruct Hwf as (_ & _ & Hlen & _).
        rewrite (proj2 (probe_inside dc da Hwf (bytePos_of dc px py)))
          by (rewrite Hlen; lia).
        cbn [negb andb]. unfold covers, k.
        apply andb_true_iff. split; [apply Z.leb_le|apply Z.ltb_lt]; lia.
  - apply (fold_untouched _ (blit_touch dc da sc offsetX offsetY)
             (blit_val dc da sc sa offsetX offsetY)
             (arr_get_blit_px dc da sc sa offsetX offsetY)).
    intros e Hin.
    destruct (blit_touch dc da sc offsetX offsetY e k) eqn:Ht; [|done].
    destruct (Honly e Hin Ht) as [-> Hdn].
    apply in_pixels in Hin as (Hx & Hy & _).
    assert (on_canvasb sc (px - offsetX) (py - offsetY) = true).
    { unfold on_canvasb. apply andb_true_iff. split; [|apply Z.ltb_lt; lia].
      apply andb_true_iff. split; [|apply Z.leb_le; lia].
      apply andb_true_iff. split; [apply Z.leb_le|apply Z.ltb_lt]; lia. }
    assert ((d <? n) = true) by (apply Z.ltb_lt; lia).
    rewrite andb_false_iff in Hcase. destruct Hcase; congruence.
Qed.

(** What the source pixel landing on [(px, py)] puts into byte [d] of
    that pixel. *)
Lemma blit_val_landing px py d :
  blit_val dc da sc sa offsetX offsetY
    (px - offsetX, py - offsetY, bytePos_of sc (px - offsetX) (py - offsetY))
    (bytePos_of dc px py + d)
  = let q := bytePos_of dc px py in
    let p := bytePos_of sc (px - offsetX) (py - offsetY) in
    if d <? 3
    then color_at (mergeColors (dest_color dc da q) (src_color sc sa p q)) d
    else mergeAlpha (arr_get da (q + CHANNEL_ALPHA)) (arr_get sa (p + CHANNEL_ALPHA)).
Proof.
  unfold blit_val.
  replace (px - offsetX + offsetX) with px by lia.
  replace (py - offsetY + offsetY) with py by lia.
  cbn zeta.
  by replace (bytePos_of dc px py + d - bytePos_of dc px py) with d by lia.
Qed.

End Blit.

Lemma round_div_mul m x : 0 < m -> round_div (m * x) m = x.
Proof.
  intros Hm. unfold round_div.
  replace (2 * (m * x) + m) with (x * (2 * m) + m) by lia.
  rewrite Z.div_add_l by lia. rewrite Z.div_small; lia.
Qed.

Lemma clamp_byte_id n : 0 <= n <= 255 -> clamp_byte n = n.
Proof. unfold clamp_byte. lia. Qed.

Lemma blendAlpha_opaque_source da : blendAlpha da 255 = 255.
Proof.
  unfold blendAlpha.
  replace (255 * 255 + da * (255 - 255)) with (255 * 255) by lia.
  by rewrite round_div_mul.
Qed.

Lemma blendChannel_opaque_source d s da :
  0 <= s <= 255 -> blendChannel d s da 255 = s.
Proof.
  intros Hs. unfold blendChannel. rewrite blendAlpha_opaque_source.
  cbn [Z.eqb].
  replace (255 * (s * 255) + d * da * (255 - 255)) with (255 * 255 * s) by lia.
  rewrite round_div_mul by lia. by apply clamp_byte_id.
Qed.

Lemma blendAlpha_transparent_source da :
  0 <= da <= 255 -> blendAlpha da 0 = da.
Proof.
  intros Hda. unfold blendAlpha.
  replace (255 * 0 + da * (255 - 0)) with (255 * da) by lia.
  rewrite round_div_mul by lia. by apply clamp_byte_id.
Qed.

Lemma blendChannel_transparent_source d s da :
  0 <= d <= 255 -> 0 <= da <= 255 -> blendChannel d s da 0 = d.
Proof.
  intros Hd Hda. unfold blendChannel. rewrite blendAlpha_transparent_source by done.
  destruct (Z.eqb_spec da 0); [done|].
  replace (255 * (s * 0) + d * da * (255 - 0)) with (255 * da * d) by lia.
  rewrite round_div_mul by lia. by apply clamp_byte_id.
Qed.

(** What [getColor] finds in a destination pixel after a blit at (0, 0)
    between two RGBA canvases of one width. *)
Lemma drawCanvas_arr_same_shape_read dc da sc sa px py :
  well_formed dc da -> width sc = width dc ->
  hasAlphaChannel dc = true -> hasAlphaChannel sc = true ->
  on_canvas dc px py ->
  getColor_arr dc (drawCanvas_arr dc da sc sa 0 0 (spread da)) px py
  = if on_canvasb sc px py
    then mergeColors (getColor_arr dc da px py) (getColor_arr sc sa px py)
    else getColor_arr dc da px py.
Proof.
  intros Hwf Hwidth Hdalpha Hsalpha Hon.
  assert (Hbyte : forall i, 0 <= i < 4 ->
            arr_get (drawCanvas_arr dc da sc sa 0 0 (spread da))
                    (bytePos_of dc px py + i)
            = if on_canvasb sc px py
              then blit_val dc da sc sa 0 0 (px - 0, py - 0,
                     bytePos_of sc (px - 0) (py - 0)) (bytePos_of dc px py + i)
              else arr_get da (bytePos_of dc px py + i)).
  { intros i Hi.
    rewrite (drawCanvas_arr_pixel_byte dc da sc sa 0 0 Hwf); try done; try lia.
    - rewrite !Z.sub_0_r, Hdalpha, Hsalpha. cbn [andb].
      destruct (Z.ltb_spec i 4); [|lia]. rewrite andb_true_r.
      destruct (on_canvasb sc px py); [done|].
      rewrite arr_get_spread.
      pose proof (pixel_bytes_inside dc px py i Hon) as Hin.
      rewrite Hdalpha in Hin. unfold getChannelCount, RGBA in Hin.
      destruct (Z.leb_spec 0 (bytePos_of dc px py + i)); [done|lia].
    - rewrite Hdalpha. unfold getChannelCount, RGBA. lia. }
  assert (Hpos : bytePos_of sc px py = bytePos_of dc px py)
    by (unfold bytePos_of; by rewrite Hwidth, Hdalpha, Hsalpha).
  unfold getColor_arr at 1. rewrite Hdalpha.
  rewrite (Hbyte CHANNEL_RED), (Hbyte CHANNEL_GREEN), (Hbyte CHANNEL_BLUE),
    (Hbyte CHANNEL_ALPHA)
    by (unfold CHANNEL_RED, CHANNEL_GREEN, CHANNEL_BLUE, CHANNEL_ALPHA; lia).
  destruct (on_canvasb sc px py).
  - rewrite !blit_val_landing. cbn zeta. rewrite !Z.sub_0_r, Hpos.
    unfold getColor_arr, dest_color, src_color. rewrite Hdalpha, Hsalpha, Hpos.
    reflexivity.
  - unfold getColor_arr. by rewrite Hdalpha.
Qed.

(** Blitting between canvases of one shape.  When the destination is well
    formed, destination and source both have an alpha channel, and they
    have the same width, [drawCanvas(destination, source, 0, 0)] leaves in
    every destination pixel that the source covers the [mergeColors] of
    the two pixels as [getColor] reads them, alpha included, and leaves
    every other destination pixel as it was. *)
Theorem drawCanvas_same_shape s d dc da src sc sa :
  canvas_at s d dc da -> well_formed dc da -> canvas_at s src sc sa ->
  width sc = width dc ->
  hasAlphaChannel dc = true -> hasAlphaChannel sc = true ->
  exists l' s',
    drawCanvas d src 0 0 s = Ok (l', s')
    /\ forall px py, on_canvas dc px py ->
         exists before,
           getColor d px py s = Ok (before, s)
           /\ if on_canvasb sc px py
              then exists over,
                     getColor src px py s = Ok (over, s)
                     /\ getColor l' px py s' = Ok (mergeColors before over, s')
              else getColor l' px py s' = Ok (before, s').
Proof.
  intros Hat Hwf Hsrc Hwidth Hdalpha Hsalpha.
  pose proof (well_formed_size dc da Hwf) as Hsize.
  eexists _, _.
  split; [by eapply drawCanvas_run|].
  intros px py Hon. exists (getColor_arr dc da px py).
  split; [by apply getColor_run|].
  pose proof (drawCanvas_arr_same_shape_read dc da sc sa px py
                Hwf Hwidth Hdalpha Hsalpha Hon) as Hread.
  destruct (on_canvasb sc px py) eqn:Hcov.
  - exists (getColor_arr sc sa px py).
    split; [by apply getColor_run|].
    erewrite getColor_run by apply working_canvas_at.
    match goal with
    | |- Ok (getColor_arr _ ?a' _ _, ?t) = _ =>
        change (Ok (getColor_arr dc a' px py, t)
                = Ok (mergeColors (getColor_arr dc da px py)
                                  (getColor_arr sc sa px py), t))
    end.
    by rewrite Hread.
  - erewrite getColor_run by apply working_canvas_at.
    match goal with
    | |- Ok (getColor_arr _ ?a' _ _, ?t) = _ =>
        change (Ok (getColor_arr dc a' px py, t)
                = Ok (getColor_arr dc da px py, t))
    end.
    by rewrite Hread.
Qed.

Lemma drawCanvas_same_shape_witness :
  exists l' s',
    drawCanvas 1%nat 3%nat 0 0 two_strips = Ok (l', s')
    /\ forall px py, on_canvas (mkCanvas 2 1 true 0%nat) px py ->
         exists before,
           getColor 1%nat px py two_strips = Ok (before, two_strips)
           /\ if on_canvasb (mkCanvas 2 1 true 2%nat) px py
              then exists over,
                     getColor 3%nat px py two_strips = Ok (over, two_strips)
                     /\ getColor l' px py s' = Ok (mergeColors before over, s')
              else getColor l' px py s' = Ok (before, s').
Proof.
  apply (drawCanvas_same_shape two_strips 1%nat _ _ 3%nat _ _
           two_strips_destination two_strips_well_formed two_strips_source);
    reflexivity.
Defined.

Lemma on_canvasb_true c x y : on_canvasb c x y = true <-> on_canvas c x y.
Proof.
  unfold on_canvasb, on_canvas.
  rewrite !andb_true_iff, !Z.leb_le, !Z.ltb_lt. lia.
Qed.

(** The R, G, B, A of a pixel of a byte canvas are bytes. *)
Lemma byte_canvas_pixel c a x y d :
  byte_canvas c a -> on_canvas c x y ->
  0 <= d < getChannelCount (hasAlphaChannel c) ->
  is_byte (arr_get a (bytePos_of c x y + d)).
Proof.
  intros [(_ & _ & Hlen & _) Hbytes] Hon Hd. apply Hbytes. rewrite Hlen.
  by apply pixel_bytes_inside.
Qed.

Lemma mergeColors_numbers d0 d1 d2 d3 s0 s1 s2 s3 :
  mergeColors [VNum d0; VNum d1; VNum d2; VNum d3]
              [VNum s0; VNum s1; VNum s2; VNum s3]
  = [ VNum (blendChannel d0 s0 d3 s3); VNum (blendChannel d1 s1 d3 s3);
      VNum (blendChannel d2 s2 d3 s3); VNum (blendAlpha d3 s3) ].
Proof. reflexivity. Qed.

(** Opaque and transparent source pixels.  Between two RGBA byte canvases
    of one width, after [drawCanvas(destination, source, 0, 0)] a pixel
    that both canvases have reads exactly as the source pixel where the
    source's alpha is 255, and exactly as before where the source's alpha
    is 0. *)
Theorem drawCanvas_same_shape_opaque_transparent s d dc da src sc sa :
  canvas_at s d dc da -> byte_canvas dc da ->
  canvas_at s src sc sa -> byte_canvas sc sa ->
  width sc = width dc ->
  hasAlphaChannel dc = true -> hasAlphaChannel sc = true ->
  exists l' s',
    drawCanvas d src 0 0 s = Ok (l', s')
    /\ forall px py, on_canvas dc px py -> on_canvas sc px py ->
         exists before over,
           getColor d px py s = Ok (before, s)
           /\ getColor src px py s = Ok (over, s)
           /\ (color_at over CHANNEL_ALPHA = VNum 255 ->
               getColor l' px py s' = Ok (over, s'))
           /\ (color_at over CHANNEL_ALPHA = VNum 0 ->
               getColor l' px py s' = Ok (before, s')).
Proof.
  intros Hat Hdbytes Hsrc Hsbytes Hwidth Hdalpha Hsalpha.
  pose proof (proj1 Hdbytes) as Hwf.
  pose proof (well_formed_size dc da Hwf) as Hsize.
  eexists _, _.
  split; [by eapply drawCanvas_run|].
  intros px py Hon Hons.
  exists (getColor_arr dc da px py), (getColor_arr sc sa px py).
  split; [by apply getColor_run|]. split; [by apply getColor_run|].
  pose proof (drawCanvas_arr_same_shape_read dc da sc sa px py
                Hwf Hwidth Hdalpha Hsalpha Hon) as Hread.
  rewrite (proj2 (on_canvasb_true sc px py) Hons) in Hread.
  assert (Hd : forall i, 0 <= i < 4 ->
            is_byte (arr_get da (bytePos_of dc px py + i))).
  { intros i Hi. apply byte_canvas_pixel; try done.
    rewrite Hdalpha. unfold getChannelCount, RGBA. lia. }
  assert (Hs : forall i, 0 <= i < 4 ->
            is_byte (arr_get sa (bytePos_of sc px py + i))).
  { intros i Hi. apply byte_canvas_pixel; try done.
    rewrite Hsalpha. unfold getChannelCount, RGBA. lia. }
  destruct (Hd 0) as (d0 & Hd0 & ?); [lia|].
  destruct (Hd 1) as (d1 & Hd1 & ?); [lia|].
  destruct (Hd 2) as (d2 & Hd2 & ?); [lia|].
  destruct (Hd 3) as (d3 & Hd3 & ?); [lia|].
  destruct (Hs 0) as (s0 & Hs0 & ?); [lia|].
  destruct (Hs 1) as (s1 & Hs1 & ?); [lia|].
  destruct (Hs 2) as (s2 & Hs2 & ?); [lia|].
  destruct (Hs 3) as (s3 & Hs3 & ?); [lia|].
  assert (Hbefore : getColor_arr dc da px py = [VNum d0; VNum d1; VNum d2; VNum d3]).
  { unfold getColor_arr, CHANNEL_RED, CHANNEL_GREEN, CHANNEL_BLUE, CHANNEL_ALPHA.
    by rewrite Hdalpha, Hd0, Hd1, Hd2, Hd3. }
  assert (Hover : getColor_arr sc sa px py = [VNum s0; VNum s1; VNum s2; VNum s3]).
  { unfold getColor_arr, CHANNEL_RED, CHANNEL_GREEN, CHANNEL_BLUE, CHANNEL_ALPHA.
    by rewrite Hsalpha, Hs0, Hs1, Hs2, Hs3. }
  rewrite Hbefore, Hover in Hread.
  split.
  - intros Halpha. rewrite Hover in Halpha. cbn in Halpha.
    inversion Halpha; subst s3.
    erewrite getColor_run by apply working_canvas_at.
    match goal with
    | |- Ok (getColor_arr _ ?a' _ _, ?t) = _ =>
        change (Ok (getColor_arr dc a' px py, t)
                = Ok (getColor_arr sc sa px py, t))
    end.
    rewrite Hread, Hover. do 2 f_equal.
    rewrite mergeColors_numbers.
    by rewrite !blendChannel_opaque_source, blendAlpha_opaque_source by done.
  - intros Halpha. rewrite Hover in Halpha. cbn in Halpha.
    inversion Halpha; subst s3.
    erewrite getColor_run by apply working_canvas_at.
    match goal with
    | |- Ok (getColor_arr _ ?a' _ _, ?t) = _ =>
        change (Ok (getColor_arr dc a' px py, t)
                = Ok (getColor_arr dc da px py, t))
    end.
    rewrite Hread, Hbefore. do 2 f_equal.
    rewrite mergeColors_numbers.
    by rewrite !blendChannel_transparent_source, blendAlpha_transparent_source
      by done.
Qed.

Lemma two_strips_bytes :
  byte_canvas (mkCanvas 2 1 true 0%nat)
    (arr_of_bytes [1; 2; 3; 255; 4; 5; 6; 255])
  /\ byte_canvas (mkCanvas 2 1 true 2%nat)
       (arr_of_bytes [10; 20; 30; 255; 0; 0; 0; 0]).
Proof. split; apply byte_canvas_check; reflexivity. Qed.

Lemma drawCanvas_same_shape_opaque_transparent_witness :
  exists l' s',
    drawCanvas 1%nat 3%nat 0 0 two_strips = Ok (l', s')
    /\ forall px py, on_canvas (mkCanvas 2 1 true 0%nat) px py ->
         on_canvas (mkCanvas 2 1 true 2%nat) px py ->
         exists before over,
           getColor 1%nat px py two_strips = Ok (before, two_strips)
           /\ getColor 3%nat px py two_strips = Ok (over, two_strips)
           /\ (color_at over CHANNEL_ALPHA = VNum 255 ->
               getColor l' px py s' = Ok (over, s'))
           /\ (color_at over CHANNEL_ALPHA = VNum 0 ->
               getColor l' px py s' = Ok (before, s')).
Proof.
  apply (drawCanvas_same_shape_opaque_transparent two_strips 1%nat _ _ 3%nat _ _
           two_strips_destination (proj1 two_strips_bytes)
           two_strips_source (proj2 two_strips_bytes));
    reflexivity.
Defined.

(** Blitting a source without alpha channel.  Such a source counts as
    opaque: when the destination is well formed, the source is a
    well-formed canvas of bytes (numbers from 0 to 255), and the source's
    columns all fall on columns of the destination, every destination
    pixel that a source pixel lands on gets that pixel's R, G, B and keeps
    its own alpha byte, if it has one, and every other destination pixel
    reads as before; source rows that fall outside the destination are
    dropped. *)
Theorem drawCanvas_rgb_source s d dc da src sc sa (offsetX offsetY : Z) :
  canvas_at s d dc da -> well_formed dc da ->
  canvas_at s src sc sa -> byte_canvas sc sa ->
  hasAlphaChannel sc = false ->
  0 <= offsetX -> offsetX + width sc <= width dc ->
  exists l' s',
    drawCanvas d src offsetX offsetY s = Ok (l', s')
    /\ forall px py, on_canvas dc px py ->
         exists before,
           getColor d px py s = Ok (before, s)
           /\ if on_canvasb sc (px - offsetX) (py - offsetY)
              then exists over,
                     getColor src (px - offsetX) (py - offsetY) s = Ok (over, s)
                     /\ getColor l' px py s' = Ok (over ++ drop 3 before, s')
              else getColor l' px py s' = Ok (before, s').
Proof.
  intros Hat Hwf Hsrc Hsbytes Hsalpha Hleft Hright.
  pose proof (well_formed_size dc da Hwf) as Hsize.
  pose proof Hwf as (_ & _ & Hlen & Hnum & _).
  pose proof (getChannelCount_cases (hasAlphaChannel dc)) as Hch.
  eexists _, _.
  split; [by eapply drawCanvas_run|].
  intros px py Hon. exists (getColor_arr dc da px py).
  split; [by apply getColor_run|].
  set (q := bytePos_of dc px py).
  set (p := bytePos_of sc (px - offsetX) (py - offsetY)).
  assert (Hold : forall i, 0 <= i < getChannelCount (hasAlphaChannel dc) ->
            arr_get (spread da) (q + i) = arr_get da (q + i)).
  { intros i Hi. rewrite arr_get_spread.
    pose proof (pixel_bytes_inside dc px py i Hon Hi). fold q in H.
    destruct (Z.leb_spec 0 (q + i)); [done|lia]. }
  assert (Hbyte : forall i, 0 <= i < getChannelCount (hasAlphaChannel dc) ->
            arr_get (drawCanvas_arr dc da sc sa offsetX offsetY (spread da)) (q + i)
            = if on_canvasb sc (px - offsetX) (py - offsetY) && (i <? 3)
              then arr_get sa (p + i)
              else arr_get da (q + i)).
  { intros i Hi. unfold q.
    rewrite (drawCanvas_arr_pixel_byte dc da sc sa offsetX offsetY Hwf)
      by done.
    rewrite Hsalpha, andb_false_r. fold q.
    destruct (on_canvasb sc (px - offsetX) (py - offsetY)) eqn:Hcov;
      cbn [andb]; [|by apply Hold].
    destruct (Z.ltb_spec i 3); [|by apply Hold].
    unfold q. rewrite blit_val_landing. cbn zeta. fold q p.
    destruct (Z.ltb_spec i 3); [|lia].
    apply on_canvasb_true in Hcov.
    assert (Hs : forall j, 0 <= j < 3 -> is_byte (arr_get sa (p + j))).
    { intros j Hj. apply byte_canvas_pixel; try done.
      rewrite Hsalpha. unfold getChannelCount, RGB. lia. }
    assert (Hd : forall j, 0 <= j < getChannelCount (hasAlphaChannel dc) ->
              is_number (arr_get da (q + j))).
    { intros j Hj. apply Hnum. rewrite Hlen.
      by apply pixel_bytes_inside. }
    destruct (Hs 0) as (s0 & Hs0 & ?); [lia|].
    destruct (Hs 1) as (s1 & Hs1 & ?); [lia|].
    destruct (Hs 2) as (s2 & Hs2 & ?); [lia|].
    destruct (Hd 0) as (d0 & Hd0); [lia|].
    destruct (Hd 1) as (d1 & Hd1); [lia|].
    destruct (Hd 2) as (d2 & Hd2); [lia|].
    assert (Halpha : exists d3,
              (if hasAlphaChannel dc then arr_get da (q + CHANNEL_ALPHA)
               else VNum 255) = VNum d3).
    { destruct (hasAlphaChannel dc) eqn:Hdalpha; [|by eexists].
      apply (Hd 3). unfold getChannelCount, RGBA. lia. }
    destruct Halpha as [d3 Hd3].
    unfold dest_color, src_color, CHANNEL_RED, CHANNEL_GREEN, CHANNEL_BLUE.
    rewrite Hsalpha, Hd3, Hs0, Hs1, Hs2, Hd0, Hd1, Hd2.
    rewrite mergeColors_numbers.
    rewrite !blendChannel_opaque_source by done.
    assert (i = 0 \/ i = 1 \/ i = 2) as [->|[->| ->]] by lia; done. }
  assert (Hread : getColor_arr dc
                    (drawCanvas_arr dc da sc sa offsetX offsetY (spread da)) px py
                  = if on_canvasb sc (px - offsetX) (py - offsetY)
                    then getColor_arr sc sa (px - offsetX) (py - offsetY)
                         ++ drop 3 (getColor_arr dc da px py)
                    else getColor_arr dc da px py).
  { unfold getColor_arr. fold q p.
    rewrite (Hbyte CHANNEL_RED), (Hbyte CHANNEL_GREEN), (Hbyte CHANNEL_BLUE)
      by (unfold CHANNEL_RED, CHANNEL_GREEN, CHANNEL_BLUE; lia).
    rewrite Hsalpha.
    destruct (hasAlphaChannel dc) eqn:Hdalpha.
    - rewrite (Hbyte CHANNEL_ALPHA)
        by (unfold CHANNEL_ALPHA, getChannelCount, RGBA; lia).
      by destruct (on_canvasb sc (px - offsetX) (py - offsetY)).
    - by destruct (on_canvasb sc (px - offsetX) (py - offsetY)). }
  destruct (on_canvasb sc (px - offsetX) (py - offsetY)) eqn:Hcov.
  - exists (getColor_arr sc sa (px - offsetX) (py - offsetY)).
    split; [by apply getColor_run|].
    erewrite getColor_run by apply working_canvas_at.
    match goal with
    | |- Ok (getColor_arr _ ?a' _ _, ?t) = Ok (?R, _) =>
        change (Ok (getColor_arr dc a' px py, t) = Ok (R, t))
    end.
    by rewrite Hread.
  - erewrite getColor_run by apply working_canvas_at.
    match goal with
    | |- Ok (getColor_arr _ ?a' _ _, ?t) = Ok (?R, _) =>
        change (Ok (getColor_arr dc a' px py, t) = Ok (R, t))
    end.
    by rewrite Hread.
Qed.

Lemma rgb_over_rgba_destination :
  canvas_at rgb_over_rgba 1%nat (mkCanvas 2 2 true 0%nat)
    (arr_of_bytes [1; 1; 1; 0; 2; 2; 2; 128; 3; 3; 3; 255; 4; 4; 4; 255]).
Proof. split; reflexivity. Qed.

Lemma rgb_over_rgba_source :
  canvas_at rgb_over_rgba 3%nat (mkCanvas 1 2 false 2%nat)
    (arr_of_bytes [10; 20; 30; 40; 50; 60]).
Proof. split; reflexivity. Qed.

Lemma rgb_over_rgba_checked :
  well_formed (mkCanvas 2 2 true 0%nat)
    (arr_of_bytes [1; 1; 1; 0; 2; 2; 2; 128; 3; 3; 3; 255; 4; 4; 4; 255])
  /\ byte_canvas (mkCanvas 1 2 false 2%nat)
       (arr_of_bytes [10; 20; 30; 40; 50; 60]).
Proof.
  split; [apply well_formed_check|apply byte_canvas_check]; reflexivity.
Qed.

Lemma drawCanvas_rgb_source_witness :
  exists l' s',
    drawCanvas 1%nat 3%nat 1 1 rgb_over_rgba = Ok (l', s')
    /\ forall px py, on_canvas (mkCanvas 2 2 true 0%nat) px py ->
         exists before,
           getColor 1%nat px py rgb_over_rgba = Ok (before, rgb_over_rgba)
           /\ if on_canvasb (mkCanvas 1 2 false 2%nat) (px - 1) (py - 1)
              then exists over,
                     getColor 3%nat (px - 1) (py - 1) rgb_over_rgba
                     = Ok (over, rgb_over_rgba)
                     /\ getColor l' px py s' = Ok (over ++ drop 3 before, s')
              else getColor l' px py s' = Ok (before, s').
Proof.
  apply (drawCanvas_rgb_source rgb_over_rgba 1%nat _ _ 3%nat _ _ 1 1
           rgb_over_rgba_destination (proj1 rgb_over_rgba_checked)
           rgb_over_rgba_source (proj2 rgb_over_rgba_checked));
    [reflexivity|lia|cbn; lia].
Defined.

(** *** The flat iteration *)

Lemma pixels_empty w h alpha : w <= 0 \/ h <= 0 -> pixels w h alpha = [].
Proof.
  intros [Hw|Hh]; unfold pixels.
  - rewrite (seqZ_nil 0 w) by lia. cbn [map].
    induction (seqZ 0 h) as [|y l IH]; [done|]. by cbn [flat_map app].
  - by rewrite (seqZ_nil 0 h) by lia.
Qed.

(** The flat [drawCanvas] never draws.  With a source that has a pixel
    the call throws the ReferenceError of its callback, whatever the
    canvases hold and whatever the offsets are; with a source without
    pixels the callback is not called and the call returns a copy of the
    destination. *)
Theorem Flat_drawCanvas_never_draws s d dc da src sc sa (offsetX offsetY : Z) :
  canvas_at s d dc da -> 0 <= byte_size dc -> canvas_at s src sc sa ->
  (0 < width sc -> 0 < height sc ->
   Flat.drawCanvas d src offsetX offsetY s = Throw ReferenceError)
  /\ (width sc <= 0 \/ height sc <= 0 ->
      exists l' s' c' a',
        Flat.drawCanvas d src offsetX offsetY s = Ok (l', s')
        /\ canvas_at s' l' c' a'
        /\ (width c', height c', hasAlphaChannel c')
           = (width dc, height dc, hasAlphaChannel dc)
        /\ elems a' = elems da).
Proof.
  intros Hat Hsize Hsrc. split.
  - intros Hw Hh. by eapply Flat_drawCanvas_throws.
  - intros Hempty. exists (S (length s)), (working s dc (spread da)).
    eexists _, _. split; [|split; [apply working_canvas_at|done]].
    unfold Flat.drawCanvas.
    rewrite (bind_Ok _ _ _ _ _ (cloneCanvas_run _ _ _ _ Hat Hsize)).
    erewrite bind_Ok; [reflexivity|].
    unfold forEachPixel.
    erewrite bind_Ok
      by (apply getCanvas_run, working_lookup_old, (proj1 Hsrc)).
    by rewrite pixels_empty.
Qed.

Lemma Flat_drawCanvas_never_draws_witness :
  Flat.drawCanvas 1%nat 3%nat 0 0 two_strips = Throw ReferenceError.
Proof.
  assert (Hsize : 0 <= byte_size (mkCanvas 2 1 true 0%nat))
    by (vm_compute; discriminate).
  apply (proj1 (Flat_drawCanvas_never_draws two_strips 1%nat _ _ 3%nat _ _ 0 0
                  two_strips_destination Hsize two_strips_source));
    reflexivity.
Defined.

(** Where the two iterations agree.  On a canvas with an alpha channel
    and for a colour that provides an alpha, the flat [drawRect] returns
    what the compositing [drawRect] returns; on a canvas without alpha
    channel, or for a colour whose alpha is falsy, the flat [drawPixel]
    returns what the compositing [drawPixel] returns. *)
Theorem Flat_agrees_with_compositing s l c a (color : Color) :
  canvas_at s l c a -> 0 <= byte_size c ->
  (hasAlphaChannel c = true -> isDefined (color_at color CHANNEL_ALPHA) = true ->
   forall x y w h, exists l' s',
     drawRect l x y w h color s = Ok (l', s')
     /\ Flat.drawRect l x y w h color s = Ok (l', s'))
  /\ (hasAlphaChannel c = false \/ truthy (color_at color CHANNEL_ALPHA) = false ->
      forall x y, exists l' s',
        drawPixel l x y color s = Ok (l', s')
        /\ Flat.drawPixel l x y color s = Ok (l', s')).
Proof.
  intros Hat Hsize. split.
  - intros Halpha Hdef x y w h. eexists _, _.
    split; [by apply drawRect_run|].
    rewrite (Flat_drawRect_run _ _ _ _ Hat Hsize). do 3 f_equal.
    unfold Flat_arr.drawRect_arr, drawRect_arr.
    apply (nested_fold_agree (fun b i j => Flat_arr.rect_px c color i j b)
             (fun b i j => rect_px c color i j b)).
    intros b' i j. unfold Flat_arr.rect_px, rect_px, rect_alpha.
    by rewrite Halpha, Hdef.
  - intros Hcase x y. eexists _, _.
    split; [by apply drawPixel_run|].
    rewrite (Flat_drawPixel_run _ _ _ _ Hat Hsize). do 3 f_equal.
    unfold drawPixel_arr.
    destruct Hcase as [-> | ->]; [by rewrite andb_false_r|done].
Qed.

Lemma Flat_agrees_with_compositing_witness :
  exists l' s',
    drawRect 1%nat 0 0 2 1 [VNum 9; VNum 8; VNum 7; VNum 0] rgba_2x2 = Ok (l', s')
    /\ Flat.drawRect 1%nat 0 0 2 1 [VNum 9; VNum 8; VNum 7; VNum 0] rgba_2x2
       = Ok (l', s').
Proof.
  assert (Hsize : 0 <= byte_size (mkCanvas 2 2 true 0%nat))
    by (vm_compute; discriminate).
  exact (proj1 (Flat_agrees_with_compositing rgba_2x2 1%nat _ _
                  [VNum 9; VNum 8; VNum 7; VNum 0] rgba_2x2_canvas_at Hsize)
           eq_refl eq_refl 0 0 2 1).
Defined.

Lemma seqZ_one m : seqZ m 1 = [m].
Proof. rewrite seqZ_cons by lia. by rewrite seqZ_nil by lia. Qed.

(** Where they differ.  On a well-formed canvas without alpha channel the
    flat [drawRect] writes a fourth byte per pixel: filling the single
    pixel [(x, y)] puts [color[3]] into the red byte of the pixel to its
    right, whose green and blue stay. *)
Theorem Flat_drawRect_spills_right s l c a (x y : Z) (color : Color) :
  canvas_at s l c a -> well_formed c a -> hasAlphaChannel c = false ->
  on_canvas c x y -> on_canvas c (x + 1) y ->
  exists l' s' before,
    Flat.drawRect l x y 1 1 color s = Ok (l', s')
    /\ getColor l (x + 1) y s = Ok (before, s)
    /\ getColor l' (x + 1) y s'
       = Ok (color_at color CHANNEL_ALPHA :: drop 1 before, s').
Proof.
  intros Hat Hwf Halpha Hon Hnext.
  pose proof (well_formed_size c a Hwf) as Hsize.
  eexists _, _, (getColor_arr c a (x + 1) y).
  split; [by apply Flat_drawRect_run|].
  split; [by apply getColor_run|].
  erewrite getColor_run by apply working_canvas_at.
  match goal with
  | |- Ok (getColor_arr _ ?a' _ _, ?t) = Ok (?R, _) =>
      change (Ok (getColor_arr c a' (x + 1) y, t) = Ok (R, t))
  end.
  do 2 f_equal.
  unfold Flat_arr.drawRect_arr. rewrite !seqZ_one. cbn [fold_left].
  assert (Hpos : bytePos_of c (x + 1) y = bytePos_of c x y + 3).
  { unfold bytePos_of, coordinatesToBytePosition. rewrite Halpha.
    unfold getChannelCount, RGB. lia. }
  assert (Hold : forall i, 0 <= i < 3 ->
            arr_get (spread a) (bytePos_of c (x + 1) y + i)
            = arr_get a (bytePos_of c (x + 1) y + i)).
  { intros i Hi. rewrite arr_get_spread.
    pose proof (pixel_bytes_inside c (x + 1) y i Hnext) as Hin.
    rewrite Halpha in Hin. unfold getChannelCount, RGB in Hin.
    destruct (Z.leb_spec 0 (bytePos_of c (x + 1) y + i)); [done|lia]. }
  unfold getColor_arr, Flat_arr.rect_px. rewrite Halpha.
  rewrite !arr_get_set, !arr_get_assignRGB, Hpos.
  unfold CHANNEL_RED, CHANNEL_GREEN, CHANNEL_BLUE, CHANNEL_ALPHA.
  rewrite <- Hpos.
  rewrite <- (Hold 1), <- (Hold 2) by lia. rewrite Hpos.
  set (p := bytePos_of c x y).
  cbn [app drop].
  f_equal; [|f_equal; [|f_equal]]; zbool.
Qed.

Lemma Flat_drawRect_spills_right_witness :
  exists l' s' before,
    Flat.drawRect 1%nat 0 0 1 1 [VNum 9; VNum 8; VNum 7; VNum 6] rgb_2x1
    = Ok (l', s')
    /\ getColor 1%nat (0 + 1) 0 rgb_2x1 = Ok (before, rgb_2x1)
    /\ getColor l' (0 + 1) 0 s' = Ok (VNum 6 :: drop 1 before, s').
Proof.
  apply (Flat_drawRect_spills_right rgb_2x1 1%nat _ _ 0 0
           [VNum 9; VNum 8; VNum 7; VNum 6] rgb_2x1_canvas_at).
  - apply well_formed_check. reflexivity.
  - reflexivity.
  - unfold on_canvas. cbn. lia.
  - unfold on_canvas. cbn. lia.
Defined.
